(** * mac_cleaner: the classification-and-cleanup pipeline of [main.py]

    A shallow embedding of [src/main.py] and the properties of its
    pipeline: the retrying oracle client ([classify_file_with_openai]),
    the result aggregation loop and the relocation loop of
    [cleanup_files], the operator review ([display_and_filter_files]),
    the scanner ([scan_system_data]) and the mover ([move_to_backup]).

    Conventions of the embedding.
    - A Python [str] is the [string] of the bytes of its UTF-8 encoding.
      Comparison, concatenation, [split], [startswith] and the substring
      test read the same on code points and on their encodings.
      [str.strip] removes every code point [str.isspace] accepts.
      [str.lower] and [str.capitalize] change ASCII letters only: the
      program compares their results with ASCII words only (none, all,
      y, the tier names and the program names), and the two code
      points whose lower case holds an ASCII letter at all (U+0130 and
      U+212A) give a combining dot and a k, which no such word holds.
    - Library calls whose answer comes from outside the program (the
      HTTP exchange with the oracle, [json.loads], [os.stat], [os.walk],
      [os.makedirs], [shutil.move], [input]) are inputs of the model:
      their results are supplied by the environment and every theorem
      quantifies over them.
    - [posixpath] is pure string code and is embedded in full. *)

From Stdlib Require Import ZArith QArith Ascii String List Permutation Lia.
From Stdlib Require Import Floats.SpecFloat.
From stdpp Require Import gmap strings list fin_maps.

#[local] Set Warnings "-register-all,-abstract-large-number".

(** ** Python string operations *)

Module Py.

Definition is_ascii_upper (c : ascii) : bool :=
  let n := nat_of_ascii c in (65 <=? n)%nat && (n <=? 90)%nat.

Definition is_ascii_lower (c : ascii) : bool :=
  let n := nat_of_ascii c in (97 <=? n)%nat && (n <=? 122)%nat.

Definition lower_char (c : ascii) : ascii :=
  if is_ascii_upper c then ascii_of_nat (nat_of_ascii c + 32) else c.

Definition upper_char (c : ascii) : ascii :=
  if is_ascii_lower c then ascii_of_nat (nat_of_ascii c - 32) else c.

(** [s.lower()] *)
Fixpoint lower (s : string) : string :=
  match s with
  | EmptyString => EmptyString
  | String c r => String (lower_char c) (lower r)
  end.

(** [s.capitalize()] *)
Definition capitalize (s : string) : string :=
  match s with
  | EmptyString => EmptyString
  | String c r => String (upper_char c) (lower r)
  end.

(** [s.startswith(p)] *)
Fixpoint startswith (s p : string) {struct p} : bool :=
  match p, s with
  | EmptyString, _ => true
  | String _ _, EmptyString => false
  | String a p', String b s' => Ascii.eqb a b && startswith s' p'
  end.

(** [sub in s] for two strings *)
Fixpoint contains (sub s : string) : bool :=
  startswith s sub ||
  match s with
  | EmptyString => false
  | String _ r => contains sub r
  end.

Fixpoint lstrip_by (p : ascii -> bool) (s : string) : string :=
  match s with
  | EmptyString => EmptyString
  | String c r => if p c then lstrip_by p r else s
  end.

Fixpoint rstrip_by (p : ascii -> bool) (s : string) : string :=
  match s with
  | EmptyString => EmptyString
  | String c r =>
      match rstrip_by p r with
      | EmptyString => if p c then EmptyString else String c EmptyString
      | r' => String c r'
      end
  end.

(** The string of the bytes [l]. *)
Definition of_bytes (l : list nat) : string :=
  fold_right (fun n s => String (ascii_of_nat n) s) EmptyString l.

(** The code points [str.isspace] accepts, each in UTF-8: U+0009 to
    U+000D, U+001C to U+0020, U+0085, U+00A0, U+1680, U+2000 to U+200A,
    U+2028, U+2029, U+202F, U+205F and U+3000. *)
Definition WHITESPACE : list string :=
  map of_bytes
    [ [9]; [10]; [11]; [12]; [13]; [28]; [29]; [30]; [31]; [32];
      [194; 133]; [194; 160]; [225; 154; 128];
      [226; 128; 128]; [226; 128; 129]; [226; 128; 130]; [226; 128; 131];
      [226; 128; 132]; [226; 128; 133]; [226; 128; 134]; [226; 128; 135];
      [226; 128; 136]; [226; 128; 137]; [226; 128; 138];
      [226; 128; 168]; [226; 128; 169]; [226; 128; 175]; [226; 129; 159];
      [227; 128; 128] ]%nat.

(** [s[len(p):]] when [s] starts with [p]. *)
Fixpoint removeprefix (p s : string) {struct p} : option string :=
  match p, s with
  | EmptyString, _ => Some s
  | String a p', String b s' => if Ascii.eqb a b then removeprefix p' s' else None
  | String _ _, EmptyString => None
  end.

(** [s] without the one of [chars] it starts with, if it starts with
    one. *)
Definition skip_one (chars : list string) (s : string) : option string :=
  head (omap (fun c => removeprefix c s) chars).

(** [s] without the [chars] it starts with; at most [n] are removed. *)
Fixpoint lstrip_chars (chars : list string) (n : nat) (s : string) : string :=
  match n with
  | O => s
  | S n' =>
      match skip_one chars s with
      | Some r => lstrip_chars chars n' r
      | None => s
      end
  end.

(** [s.lstrip()] and [s.rstrip()]: a string holds no more characters
    than bytes. *)
Definition lstrip (s : string) : string := lstrip_chars WHITESPACE (String.length s) s.

Definition rstrip (s : string) : string :=
  String.rev (lstrip_chars (map String.rev WHITESPACE) (String.length s) (String.rev s)).

(** [s.strip()] *)
Definition strip (s : string) : string := rstrip (lstrip s).

(** [s.split(sep)] for a one-character separator: never the empty list. *)
Fixpoint split (sep : ascii) (s : string) : list string :=
  match s with
  | EmptyString => [EmptyString]
  | String c r =>
      if Ascii.eqb c sep then EmptyString :: split sep r
      else match split sep r with
           | h :: t => String c h :: t
           | [] => [String c EmptyString]
           end
  end.

(** [sep.join(parts)] *)
Fixpoint join (sep : string) (parts : list string) : string :=
  match parts with
  | [] => EmptyString
  | [x] => x
  | x :: rest => x +:+ sep +:+ join sep rest
  end.

(** [s.endswith(c)] for a one-character [c] *)
Fixpoint endswith_char (s : string) (c : ascii) : bool :=
  match s with
  | EmptyString => false
  | String a EmptyString => Ascii.eqb a c
  | String _ r => endswith_char r c
  end.

(** [c * n] for a one-character string [c] *)
Fixpoint repeat_char (c : ascii) (n : nat) : string :=
  match n with
  | O => EmptyString
  | S n' => String c (repeat_char c n')
  end.

(** [x in l] for a string [x] and a list of strings [l] *)
Definition str_in (x : string) (l : list string) : bool :=
  existsb (String.eqb x) l.

End Py.

(** ** [posixpath] *)

Module PosixPath.

Definition sep : ascii := "/"%char.
Definition is_sep (c : ascii) : bool := Ascii.eqb c sep.

(** [posixpath.join(a, b)] *)
Definition join (a b : string) : string :=
  if Py.startswith b "/" then b
  else match a with
       | EmptyString => b
       | _ => if Py.endswith_char a sep then a +:+ b else a +:+ "/" +:+ b
       end.

(** [p[:p.rfind('/') + 1]] *)
Fixpoint upto_last_sep (p : string) : string :=
  match p with
  | EmptyString => EmptyString
  | String c r =>
      if Py.contains "/" p then String c (upto_last_sep r) else EmptyString
  end.

(** [posixpath.dirname(p)] *)
Definition dirname (p : string) : string :=
  let head := upto_last_sep p in
  match Py.rstrip_by is_sep head with
  | EmptyString => head
  | stripped => stripped
  end.

(** One iteration of the component loop of [normpath]; [new_comps] is
    kept in order. *)
Definition norm_step (initial_slashes : nat) (new_comps : list string) (comp : string)
  : list string :=
  if String.eqb comp "" || String.eqb comp "." then new_comps
  else if negb (String.eqb comp "..")
          || (Nat.eqb initial_slashes 0 && match new_comps with [] => true | _ => false end)
          || match last new_comps with Some l => String.eqb l ".." | None => false end
       then new_comps ++ [comp]
       else removelast new_comps.

(** [posixpath.normpath(path)] *)
Definition normpath (path : string) : string :=
  match path with
  | EmptyString => "."
  | _ =>
      let initial_slashes :=
        if Py.startswith path "/" then
          if Py.startswith path "//" && negb (Py.startswith path "///") then 2%nat else 1%nat
        else 0%nat in
      let comps := fold_left (norm_step initial_slashes) (Py.split sep path) [] in
      let path' := Py.repeat_char sep initial_slashes +:+ Py.join "/" comps in
      match path' with
      | EmptyString => "."
      | _ => path'
      end
  end.

(** [posixpath.isabs(path)] *)
Definition isabs (path : string) : bool := Py.startswith path "/".

(** [posixpath.abspath(path)]; [cwd] is what [os.getcwd()] answers. *)
Definition abspath (cwd path : string) : string :=
  if isabs path then normpath path else normpath (join cwd path).

(** [genericpath.commonprefix] on two component lists: their longest
    common prefix. *)
Fixpoint commonprefix (a b : list string) : list string :=
  match a, b with
  | x :: a', y :: b' => if String.eqb x y then x :: commonprefix a' b' else []
  | _, _ => []
  end.

(** The component list [relpath] builds from an absolute path:
    [tail.split(sep) if tail else []] with [tail = p.lstrip(sep)]. *)
Definition components (p : string) : list string :=
  match Py.lstrip_by is_sep p with
  | EmptyString => []
  | tail => Py.split sep tail
  end.

(** The list [rel_list] of [relpath]. *)
Definition rel_list (start_list path_list : list string) : list string :=
  let i := length (commonprefix start_list path_list) in
  repeat ".." (length start_list - i) ++ drop i path_list.

(** [posixpath.relpath(path, start)]; [None] stands for the
    [ValueError] raised on an empty [path]. *)
Definition relpath (cwd path start : string) : option string :=
  match path with
  | EmptyString => None
  | _ =>
      let rl := rel_list (components (abspath cwd start)) (components (abspath cwd path)) in
      match rl with
      | [] => Some "."
      | _ => Some (Py.join "/" rl)
      end
  end.

(** [posixpath.expanduser(path)] for the two shapes the program uses,
    ["~"] and ["~/..."]; [home] is the value of [$HOME]. Any other path
    starting with ["~"] names another user and is outside the model
    (returned unchanged, as [expanduser] does for an unknown user). *)
Definition expanduser (home path : string) : string :=
  match path with
  | String "~" rest =>
      if String.eqb rest "" || Py.startswith rest "/" then
        match Py.rstrip_by is_sep home +:+ rest with
        | EmptyString => "/"
        | p => p
        end
      else path
  | _ => path
  end.

End PosixPath.

(** ** Configuration constants of [main.py] *)

Definition MIN_FILE_SIZE_KB : Q := 10.
Definition MAX_FILES : N := 10000.
Definition NUM_THREADS : nat := 4.
Definition PROTECTED_PATHS : list string :=
  [ "/Library/Caches/com.apple."; "/private/var/db/";
    "/private/var/protected/"; "/private/var/folders/" ].
Definition KNOWN_PROGRAMS : list string := [ "Android Studio"; "Transporter" ].

(** ** JSON values, as [json.loads] builds them *)

Inductive json : Type :=
| JNull
| JBool (b : bool)
| JInt (n : Z)
| JFloat (f : spec_float)
| JStr (s : string)
| JArr (items : list json)
| JObj (d : gmap string json).

(** Python truth value of a decoded JSON value ([bool(v)], as [not v] and
    [if v] use it). *)
Definition py_truthy (v : json) : bool :=
  match v with
  | JNull => false
  | JBool b => b
  | JInt n => negb (n =? 0)%Z
  | JFloat (S754_zero _) => false
  | JFloat _ => true
  | JStr s => negb (String.eqb s "")
  | JArr items => match items with [] => false | _ => true end
  | JObj d => negb (Nat.eqb (size d) 0)
  end.

(** [v == s] for a string [s]: only a JSON string can equal it. *)
Definition json_eq_str (v : json) (s : string) : bool :=
  match v with
  | JStr t => String.eqb t s
  | _ => false
  end.

(** [v in l] for a list [l] of strings. *)
Definition json_in (v : json) (l : list string) : bool := existsb (json_eq_str v) l.

(** ** Exceptions and results *)

Inductive exn : Type :=
| KeyError (key : string)
| TypeError (msg : string)
| ValueError (msg : string)
| OverflowError (msg : string)
| EOFError
| OSError (msg : string)
| OpenAIError (msg : string).

Inductive py_result (A : Type) : Type :=
| Ok (a : A)
| Raise (e : exn).
Arguments Ok {A} a.
Arguments Raise {A} e.

(** [key in result]: a dict tests its keys, a list its elements, a string
    its substrings; any other decoded value raises [TypeError]. *)
Definition py_contains (result : json) (key : string) : option bool :=
  match result with
  | JObj d => Some (bool_decide (is_Some (d !! key)))
  | JArr items => Some (existsb (fun v => json_eq_str v key) items)
  | JStr s => Some (Py.contains key s)
  | _ => None
  end.

(** [all(key in result for key in keys)], evaluated left to right and
    stopping at the first [False]; [None] is the [TypeError] of
    [py_contains]. *)
Fixpoint all_keys_in (result : json) (keys : list string) : option bool :=
  match keys with
  | [] => Some true
  | key :: rest =>
      match py_contains result key with
      | None => None
      | Some false => Some false
      | Some true => all_keys_in result rest
      end
  end.

(** ** File records *)

(** Python floats are binary64 numbers. *)
Definition prec : Z := 53.
Definition emax : Z := 1024.

(** [st_size / (1024 * 1024)]: the quotient of two [int]s is the float
    nearest to the exact quotient (ties to even), here the float nearest
    to [st_size] scaled by [2^-20]. *)
Definition size_in_mb (st_size : N) : spec_float :=
  binary_normalize prec emax (Z.of_N st_size) (-20) false.

(** The dict [get_file_metadata] returns. *)
Record metadata : Type := {
  path : string;
  size_mb : spec_float;
  mtime : string;
  is_dir : bool
}.

(** The same dict once [cleanup_files] has stored ["importance"] and
    ["reason"] in it. Every entry of [files] is a dict of its own
    ([get_file_metadata] builds a new one for each path), so storing the
    two keys in one record changes no other. *)
Record classified : Type := {
  file : metadata;
  importance : json;
  reason : json
}.

(** ** The oracle client *)

(** What one pass through the [try] body of [classify_file_with_openai]
    meets: the request raises [openai.RateLimitError]; the request (or
    reading [response.choices[0].message.content], or [json.loads] on a
    content that is not text) raises some other exception; [json.loads]
    raises [JSONDecodeError]; or [json.loads] returns a value. [e] is
    [str(e)]. *)
Inductive api_outcome : Type :=
| RateLimitError
| OtherException (e : string)
| JSONDecodeError (e : string)
| Loaded (result : json).

Inductive log_line : Type :=
| Classified (p : string) (result : gmap string json)
| InvalidStructure (p : string)
| ParseError (p : string) (e : string)
| RateLimitHit (p : string)
| ApiError (p : string) (e : string)
| FailedAfterRetries (p : string).

Inductive level : Type := INFO | WARNING | ERROR.

(** What a worker does, in order: requests, sleeps (in milliseconds) and
    lines written to the log of its thread. *)
Inductive worker_event : Type :=
| Request (attempt : nat)
| Sleep (millis : nat)
| ThreadLog (thread_id : nat) (lvl : level) (line : log_line).

Definition REQUIRED_KEYS : list string := [ "important"; "importance"; "reason" ].
Definition TIERS : list string := [ "Low"; "Medium"; "High" ].

(** The dict literals of the fallback returns. *)
Definition fail_safe (why : string) : gmap string json :=
  {[ "important" := JBool true; "importance" := JStr "High"; "reason" := JStr why ]}.

(** [type(v).__name__] of a decoded value. *)
Definition type_name (v : json) : string :=
  match v with
  | JNull => "NoneType"
  | JBool _ => "bool"
  | JInt _ => "int"
  | JFloat _ => "float"
  | JStr _ => "str"
  | JArr _ => "list"
  | JObj _ => "dict"
  end.

(** The text of the [TypeError] raised by [key in result] on a value
    that is no container, and by [result["importance"]] on a list or a
    string (wording of CPython 3.12; only the logged reason shows it). *)
Definition not_iterable_msg (v : json) : string :=
  "argument of type '" +:+ type_name v +:+ "' is not iterable".

Definition bad_index_msg (v : json) : string :=
  match v with
  | JStr _ => "string indices must be integers, not 'str'"
  | _ => "list indices must be integers or slices, not str"
  end.

(** The inner [try] body once [json.loads] has returned [result]:
    [Ok c] is [return metadata, c]; [Raise] is an exception that leaves
    the inner [try] and reaches [except Exception]. *)
Definition validate (result : json) : py_result (gmap string json * bool)%type :=
  match all_keys_in result REQUIRED_KEYS with
  | None => Raise (TypeError (not_iterable_msg result))
  | Some false => Ok (fail_safe "Invalid JSON structure", false)
  | Some true =>
      match result with
      | JObj d =>
          match d !! "importance" with
          | Some tier =>
              if negb (json_in tier TIERS)
              then Ok (<["importance" := JStr "Medium"]> d, true)
              else Ok (d, true)
          | None => Raise (KeyError "importance")
          end
      | _ => Raise (TypeError (bad_index_msg result))
      end
  end.

(** [str(e)] *)
Definition exn_text (e : exn) : string :=
  match e with
  | KeyError k => "'" +:+ k +:+ "'"
  | TypeError m => m
  | ValueError m => m
  | OverflowError m => m
  | EOFError => "EOF when reading a line"
  | OSError m => m
  | OpenAIError m => m
  end.

(** One iteration of [for attempt in range(3)], after the request was
    sent: the events of the iteration and [Some c] when it returns
    [metadata, c], [None] when the loop goes on. *)
Definition attempt_body (thread_id : nat) (m : metadata) (o : api_outcome)
  : list worker_event * option (gmap string json) :=
  match o with
  | Loaded result =>
      match validate result with
      | Ok (c, true) => ([ThreadLog thread_id INFO (Classified (path m) c)], Some c)
      | Ok (c, false) => ([ThreadLog thread_id WARNING (InvalidStructure (path m))], Some c)
      | Raise e =>
          ([ThreadLog thread_id ERROR (ApiError (path m) (exn_text e))],
           Some (fail_safe ("API error: " +:+ exn_text e)))
      end
  | JSONDecodeError e =>
      ([ThreadLog thread_id ERROR (ParseError (path m) e)],
       Some (fail_safe ("JSON parse error: " +:+ e)))
  | RateLimitError =>
      ([ThreadLog thread_id WARNING (RateLimitHit (path m)); Sleep 5000; Sleep 100], None)
  | OtherException e =>
      ([ThreadLog thread_id ERROR (ApiError (path m) e)],
       Some (fail_safe ("API error: " +:+ e)))
  end.

(** The [for] loop over the attempt numbers still to run, and the two
    statements after it. [oracle attempt] is what attempt number
    [attempt] meets. *)
Fixpoint attempts (oracle : nat -> api_outcome) (thread_id : nat) (m : metadata)
  (range : list nat) : list worker_event * gmap string json :=
  match range with
  | [] =>
      ([ThreadLog thread_id ERROR (FailedAfterRetries (path m))],
       fail_safe "Failed after retries")
  | attempt :: rest =>
      match attempt_body thread_id m (oracle attempt) with
      | (evs, Some c) => (Request attempt :: evs, c)
      | (evs, None) =>
          let '(evs', c) := attempts oracle thread_id m rest in
          (Request attempt :: evs ++ evs', c)
      end
  end.

(** [classify_file_with_openai(metadata, thread_id)]: what the worker did
    and the pair it returns. [setup] is the exception raised by the two
    statements before the loop, which open the log file of the thread
    and build the client ([OSError] from [logging.FileHandler],
    [OpenAIError] from [OpenAI] when no key is configured): they stand
    outside every [try], so the exception leaves the function. *)
Definition classify_file_with_openai (setup : option exn) (oracle : nat -> api_outcome)
  (m : metadata) (thread_id : nat)
  : py_result (list worker_event * (metadata * gmap string json)) :=
  match setup with
  | Some e => Raise e
  | None => let '(evs, c) := attempts oracle thread_id m (seq 0 3) in Ok (evs, (m, c))
  end.

(** ** Program attribution *)

(** [get_program_name(file_path)] *)
Definition get_program_name (file_path : string) : string :=
  let path_lower := Py.lower file_path in
  match find (fun program => Py.contains (Py.lower program) path_lower) KNOWN_PROGRAMS with
  | Some program => program
  | None => "Others"
  end.

(** ** The aggregation loop of [cleanup_files] *)

(** [program_files]: a dict, kept as the list of its items in insertion
    order (the order [.items()] yields). *)
Definition program_groups : Type := list (string * list classified).

(** [{program: [] for program in KNOWN_PROGRAMS + ["Others"]}] *)
Definition empty_groups : program_groups :=
  map (fun program => (program, [])) (KNOWN_PROGRAMS ++ ["Others"]).

(** [d[key]] on a decoded object. *)
Definition getitem (d : gmap string json) (key : string) : py_result json :=
  match d !! key with
  | Some v => Ok v
  | None => Raise (KeyError key)
  end.

(** [program_files[program].append(x)] *)
Fixpoint group_append (program : string) (x : classified) (groups : program_groups)
  : py_result program_groups :=
  match groups with
  | [] => Raise (KeyError program)
  | (p, members) :: rest =>
      if String.eqb p program then Ok ((p, members ++ [x]) :: rest)
      else match group_append program x rest with
           | Ok rest' => Ok ((p, members) :: rest')
           | Raise e => Raise e
           end
  end.

(** The variables the [as_completed] loop updates. *)
Record aggregate : Type := {
  to_delete : list classified;
  program_files : program_groups;
  total_size : spec_float;
  processed : nat
}.

(** [total_size = 0] is an [int]; the first [+=] makes it the float it
    adds, as adding to the float zero does. *)
Definition initial_aggregate : aggregate :=
  {| to_delete := []; program_files := empty_groups; total_size := S754_zero false;
     processed := 0 |}.

(** The body of [for future in as_completed(future_to_file)], up to the
    progress line, on the pair [future.result()] returns. *)
Definition collect (st : aggregate) (res : metadata * gmap string json)
  : py_result aggregate :=
  let '(m, classification) := res in
  match getitem classification "important" with
  | Raise e => Raise e
  | Ok important =>
      if negb (py_truthy important) then
        match getitem classification "importance" with
        | Raise e => Raise e
        | Ok tier =>
            match getitem classification "reason" with
            | Raise e => Raise e
            | Ok why =>
                let m' := {| file := m; importance := tier; reason := why |} in
                match group_append (get_program_name (path m)) m' (program_files st) with
                | Raise e => Raise e
                | Ok groups =>
                    Ok {| to_delete := to_delete st ++ [m'];
                          program_files := groups;
                          total_size := SFadd prec emax (total_size st) (size_mb m);
                          processed := S (processed st) |}
                end
            end
        end
      else
        Ok {| to_delete := to_delete st;
              program_files := program_files st;
              total_size := total_size st;
              processed := S (processed st) |}
  end.

(** ** The worker pool *)

(** The futures of the dict comprehension, in submission order, for a
    pool of [num_threads] workers ([NUM_THREADS] in the source): record
    number [i] goes to thread [i % num_threads + 1]; [setup i] and
    [oracle i] are what its call meets. Each future carries what the
    call did and what it returned, or the exception that left it. *)
Definition submit_all (num_threads : nat) (setup : nat -> option exn)
  (oracle : nat -> nat -> api_outcome) (files : list metadata)
  : list (py_result (list worker_event * (metadata * gmap string json))) :=
  imap (fun i m => classify_file_with_openai (setup i) (oracle i) m (i mod num_threads + 1))
       files.

(** [as_completed]: the futures in the order they finish, [order] being
    the submission numbers in completion order. *)
Definition as_completed {A : Type} (order : list nat) (futures : list A) : list A :=
  omap (fun i => futures !! i) order.

(** The order in which [n] futures finish, as the scheduler decides it:
    each of [picks] tells which of the futures still running finishes
    next (counted among those, modulo their number); when [picks] runs
    out the rest finish in submission order. [as_completed] yields
    every future once, when it is done. *)
Fixpoint finish_order (picks : list nat) (running : list nat) : list nat :=
  match picks with
  | [] => running
  | k :: picks' =>
      match running with
      | [] => []
      | _ =>
          let j := k mod length running in
          match running !! j with
          | Some i => i :: finish_order picks' (delete j running)
          | None => running
          end
      end
  end.

Definition completion_order (picks : list nat) (n : nat) : list nat :=
  finish_order picks (seq 0 n).

(** [future.result()]: the value the call returned, or the exception
    that left it, raised again. *)
Definition future_result {A B : Type} (future : py_result (A * B)) : py_result B :=
  match future with
  | Ok (_, v) => Ok v
  | Raise e => Raise e
  end.

(** What [future.result()] gives for each future, in the order the main
    thread receives them. *)
Definition pool_results (num_threads : nat) (setup : nat -> option exn)
  (oracle : nat -> nat -> api_outcome) (order : list nat) (files : list metadata)
  : list (py_result (metadata * gmap string json)) :=
  map future_result (as_completed order (submit_all num_threads setup oracle files)).

(** ** The operator review *)

(** The loop asking which programs to keep, on the lines the operator
    types; an exhausted input makes [input()] raise [EOFError]. Returns
    [programs_to_keep] and the lines left. *)
Fixpoint read_programs_to_keep (valid_programs : list string) (stdin : list string)
  : py_result (list string) * list string :=
  match stdin with
  | [] => (Raise EOFError, [])
  | line :: rest =>
      let response := Py.lower (Py.strip line) in
      if String.eqb response "none" then (Ok [], rest)
      else if String.eqb response "all" then (Ok valid_programs, rest)
      else
        let named :=
          List.filter (fun p => Py.str_in p (map Py.lower valid_programs))
                 (map Py.strip (Py.split "," response)) in
        match named with
        | [] => read_programs_to_keep valid_programs rest
        | _ => (Ok (List.filter (fun vp => Py.str_in (Py.lower vp) named) valid_programs), rest)
        end
  end.

(** The loop asking which importance levels to delete. *)
Fixpoint read_levels_to_delete (stdin : list string)
  : py_result (list string) * list string :=
  match stdin with
  | [] => (Raise EOFError, [])
  | line :: rest =>
      let response := Py.lower (Py.strip line) in
      if String.eqb response "none" then (Ok [], rest)
      else if String.eqb response "all" then (Ok TIERS, rest)
      else
        let levels :=
          List.filter (fun l => Py.str_in l TIERS)
                 (map (fun l => Py.capitalize (Py.strip l)) (Py.split "," response)) in
        match levels with
        | [] => read_levels_to_delete rest
        | _ => (Ok levels, rest)
        end
  end.

(** [[file for file in files if file["importance"] in levels_to_delete]] *)
Definition files_at_levels (levels_to_delete : list string) (files : list classified)
  : list classified :=
  List.filter (fun f => json_in (importance f) levels_to_delete) files.

(** What the review settles: the programs kept, the levels chosen for
    each program asked about (in the order asked), and [to_move]. *)
Record review : Type := {
  programs_to_keep : list string;
  levels_chosen : list (string * list string);
  to_move : list classified
}.

(** The second loop of [display_and_filter_files], over the items still
    to visit. *)
Fixpoint select_files (keep : list string) (items : program_groups) (stdin : list string)
  : py_result (list (string * list string) * list classified) * list string :=
  match items with
  | [] => (Ok ([], []), stdin)
  | (program, files) :: rest =>
      match files with
      | [] => select_files keep rest stdin
      | _ =>
          if Py.str_in program keep then select_files keep rest stdin
          else
            match read_levels_to_delete stdin with
            | (Raise e, stdin') => (Raise e, stdin')
            | (Ok levels, stdin') =>
                match select_files keep rest stdin' with
                | (Raise e, stdin'') => (Raise e, stdin'')
                | (Ok (chosen, moved), stdin'') =>
                    (Ok ((program, levels) :: chosen, files_at_levels levels files ++ moved),
                     stdin'')
                end
            end
      end
  end.

(** [display_and_filter_files(program_files)], with what the operator
    chose next to the returned [to_move]. The [print] calls change
    nothing and are left out. *)
Definition review_files (groups : program_groups) (stdin : list string)
  : py_result review * list string :=
  match groups with
  | [] => (Ok {| programs_to_keep := []; levels_chosen := []; to_move := [] |}, stdin)
  | _ =>
      let valid_programs :=
        map fst (List.filter (fun it => match snd it with [] => false | _ => true end) groups) in
      match valid_programs with
      | [] => (Ok {| programs_to_keep := []; levels_chosen := []; to_move := [] |}, stdin)
      | _ =>
          match read_programs_to_keep valid_programs stdin with
          | (Raise e, stdin') => (Raise e, stdin')
          | (Ok keep, stdin') =>
              match select_files keep groups stdin' with
              | (Raise e, stdin'') => (Raise e, stdin'')
              | (Ok (chosen, moved), stdin'') =>
                  (Ok {| programs_to_keep := keep; levels_chosen := chosen; to_move := moved |},
                   stdin'')
              end
          end
      end
  end.

Definition display_and_filter_files (groups : program_groups) (stdin : list string)
  : py_result (list classified) * list string :=
  match review_files groups stdin with
  | (Ok r, stdin') => (Ok (to_move r), stdin')
  | (Raise e, stdin') => (Raise e, stdin')
  end.

(** ** The main thread: filesystem calls, log lines and operator input *)

(** The two calls that change the filesystem: [os.makedirs(p,
    exist_ok=True)] and [shutil.move(src, dst)]. *)
Inductive syscall : Type :=
| Makedirs (p : string)
| Move (src dst : string).

(** The lines [main_logger] writes (the estimates and durations, which
    depend on the clock, and the sizes are left out: the lines carry
    their counters). *)
Inductive main_line : Type :=
| StartingCleanup
| DryRunState (enabled : bool)
| BackupDirCreated (dir : string)
| BackupDirFailed (e : string)
| DirectoryMissing (dir : string)
| ScannedItems (n : nat)
| MaxFilesReached
| ScanError (dir e : string)
| FoundFiles (n total : nat)
| NoFilesFound
| CleanupComplete
| UnexpectedError (e : string)
| StartingClassification (threads : nat)
| Processed (n total : nat)
| ClassificationComplete
| NothingToCleanUp
| NoFilesSelected
| Proceeding (n : nat)
| AbortedByUser
| WouldMove (p : string)
| Moved (src dst : string)
| FailedToMove (src e : string)
| FilesMovedTo (dir : string)
| DryRunNotice.

(** What the main thread does, in order. [Did c err] is the call [c]
    with the text of the exception it raised, if any. *)
Inductive event : Type :=
| Did (c : syscall) (err : option string)
| Logged (lvl : level) (line : main_line).

(** What [os.stat] and [os.path.isdir] tell about a path.
    [st_mtime_iso] is what [datetime.fromtimestamp(st_mtime).isoformat()]
    gives: the formatted modification time, or the exception
    [fromtimestamp] raises on a time it cannot represent ([ValueError],
    [OverflowError]) or the platform cannot convert ([OSError]). *)
Record stat_result : Type := {
  st_size : N;
  st_mtime_iso : py_result string;
  st_isdir : bool
}.

(** [isinstance(e, OSError)] *)
Definition is_OSError (e : exn) : bool :=
  match e with
  | OSError _ => true
  | _ => false
  end.

Section Run.

(** The filesystem the program moves files in, and how it answers a
    call: the new filesystem, and the text of the exception if the call
    raised one. *)
Context {World : Type}.
Variable perform : syscall -> World -> option string * World.

(** The module constant [DRY_RUN], the value of [$HOME] and the working
    directory. *)
Variable DRY_RUN : bool.
Variable HOME : string.
Variable cwd : string.

(** What the scanner reads: [os.path.exists], [os.walk] (the
    [(root, file_names)] of each directory visited, in order; a
    directory it cannot list is passed over) and [os.stat] ([None] when
    it raises [OSError]). *)
Variable os_exists : string -> bool.
Variable os_walk : string -> list (string * list string).
Variable os_stat : string -> option stat_result.

Definition BACKUP_DIR : string := PosixPath.expanduser HOME "~/SystemDataCleanupBackup".

Record state : Type := {
  world : World;
  stdin : list string;
  trace : list event
}.

(** A statement of the main thread: it runs from a state and either
    yields a value or raises, leaving a state. *)
Definition M (A : Type) : Type := state -> py_result A * state.

Definition ret {A : Type} (a : A) : M A := fun s => (Ok a, s).

Definition bind {A B : Type} (m : M A) (k : A -> M B) : M B :=
  fun s =>
    match m s with
    | (Ok a, s') => k a s'
    | (Raise e, s') => (Raise e, s')
    end.

Definition raise {A : Type} (e : exn) : M A := fun s => (Raise e, s).

Notation "'let*' x ':=' m 'in' k" := (bind m (fun x => k))
  (at level 10, x binder, k at level 200).

Definition lift {A : Type} (r : py_result A) : M A := fun s => (r, s).

Definition log (lvl : level) (line : main_line) : M unit :=
  fun s =>
    (Ok tt, {| world := world s; stdin := stdin s; trace := trace s ++ [Logged lvl line] |}).

Definition sys (c : syscall) : M (option string) :=
  fun s =>
    let '(err, w) := perform c (world s) in
    (Ok err, {| world := w; stdin := stdin s; trace := trace s ++ [Did c err] |}).

(** [input(prompt)] *)
Definition input : M string :=
  fun s =>
    match stdin s with
    | [] => (Raise EOFError, s)
    | line :: rest => (Ok line, {| world := world s; stdin := rest; trace := trace s |})
    end.

(** A function that only reads operator input, run on the input left. *)
Definition reading {A : Type} (f : list string -> py_result A * list string) : M A :=
  fun s =>
    let '(r, rest) := f (stdin s) in
    (r, {| world := world s; stdin := rest; trace := trace s |}).

(** [setup_backup_dir()] *)
Definition setup_backup_dir : M unit :=
  let* err := sys (Makedirs BACKUP_DIR) in
  match err with
  | None => log INFO (BackupDirCreated BACKUP_DIR)
  | Some e => let* _ := log ERROR (BackupDirFailed e) in raise (OSError e)
  end.

(** [is_protected_path(file_path)] *)
Definition is_protected_path (file_path : string) : bool :=
  existsb (fun p => Py.startswith file_path p) PROTECTED_PATHS.

(** [get_file_metadata(file_path)]: the record, [None], or the exception
    that leaves the function. The [debug] lines are below the level of
    the logger and write nothing. The test on [size_kb] compares the
    float quotient by 1024 with 10; dividing by a power of two keeps the
    order and is exact below [2^53], so it is the test on the exact
    quotient. *)
Definition get_file_metadata (file_path : string) : py_result (option metadata) :=
  if is_protected_path file_path then Ok None
  else
    match os_stat file_path with
    | None => Ok None
    | Some st =>
        let size_kb := (inject_Z (Z.of_N (st_size st)) / 1024)%Q in
        if negb (Qle_bool MIN_FILE_SIZE_KB size_kb) then Ok None
        else
          match st_mtime_iso st with
          | Ok iso =>
              Ok (Some {| path := file_path;
                          size_mb := size_in_mb (st_size st);
                          mtime := iso;
                          is_dir := st_isdir st |})
          | Raise e => if is_OSError e then Ok None else Raise e
          end
    end.

Definition SCAN_DIRS : list string :=
  [ PosixPath.expanduser HOME "~/Library/Caches";
    "/Library/Caches";
    PosixPath.expanduser HOME "~/Library/Logs";
    "/private/var/tmp";
    "/private/var/log" ].

(** Where the loops of [scan_system_data] stand, with [files] and
    [total_items] as they are: still scanning, left through
    [return files], or left by an exception on its way to the
    [except] of the scan directory. *)
Inductive scan_flow : Type :=
| Scanning (files : list metadata) (total_items : nat)
| Stopped (files : list metadata)
| Failed (files : list metadata) (total_items : nat) (e : exn).

(** [for name in file_names] *)
Fixpoint scan_names (root : string) (file_names : list string)
  (files : list metadata) (total_items : nat) : M scan_flow :=
  match file_names with
  | [] => ret (Scanning files total_items)
  | name :: rest =>
      let total_items := S total_items in
      let* _ := (if Nat.eqb (total_items mod 1000) 0
                 then log INFO (ScannedItems total_items) else ret tt) in
      if (MAX_FILES <=? N.of_nat (length files))%N then
        let* _ := log INFO MaxFilesReached in ret (Stopped files)
      else
        match get_file_metadata (PosixPath.join root name) with
        | Raise e => ret (Failed files total_items e)
        | Ok (Some md) => scan_names root rest (files ++ [md]) total_items
        | Ok None => scan_names root rest files total_items
        end
  end.

(** [for root, _, file_names in os.walk(dir_path)] *)
Fixpoint scan_walk (visited : list (string * list string))
  (files : list metadata) (total_items : nat) : M scan_flow :=
  match visited with
  | [] => ret (Scanning files total_items)
  | (root, file_names) :: rest =>
      let* flow := scan_names root file_names files total_items in
      match flow with
      | Scanning fs n => scan_walk rest fs n
      | _ => ret flow
      end
  end.

(** [for dir_path in SCAN_DIRS], with the [try] around the walk. *)
Fixpoint scan_dirs (dirs : list string) (files : list metadata) (total_items : nat)
  : M scan_flow :=
  match dirs with
  | [] => ret (Scanning files total_items)
  | dir_path :: rest =>
      if negb (os_exists dir_path) then
        let* _ := log WARNING (DirectoryMissing dir_path) in
        scan_dirs rest files total_items
      else
        let* flow := scan_walk (os_walk dir_path) files total_items in
        match flow with
        | Stopped fs => ret (Stopped fs)
        | Scanning fs n => scan_dirs rest fs n
        | Failed fs n e =>
            let* _ := log ERROR (ScanError dir_path (exn_text e)) in
            scan_dirs rest fs n
        end
  end.

(** [scan_system_data()] *)
Definition scan_system_data : M (list metadata) :=
  let* flow := scan_dirs SCAN_DIRS [] 0 in
  match flow with
  | Stopped files => ret files
  | Scanning files total_items | Failed files total_items _ =>
      let* _ := log INFO (FoundFiles (length files) total_items) in
      ret files
  end.

(** [move_to_backup(file_path)]: [Some backup_path], or [None] after a
    logged failure. The [ValueError] of [relpath] is raised before the
    [try] and leaves the function. *)
Definition move_to_backup (file_path : string) : M (option string) :=
  match PosixPath.relpath cwd file_path (PosixPath.expanduser HOME "~") with
  | None => raise (ValueError "no path specified")
  | Some rel_path =>
      let backup_path := PosixPath.join BACKUP_DIR rel_path in
      let backup_dir := PosixPath.dirname backup_path in
      let* err := sys (Makedirs backup_dir) in
      match err with
      | Some e => let* _ := log ERROR (FailedToMove file_path e) in ret None
      | None =>
          let* err' := (if DRY_RUN then ret None else sys (Move file_path backup_path)) in
          match err' with
          | Some e => let* _ := log ERROR (FailedToMove file_path e) in ret None
          | None => let* _ := log INFO (Moved file_path backup_path) in ret (Some backup_path)
          end
      end
  end.

(** The [as_completed] loop of [cleanup_files] with its progress line;
    [total] is [len(files)]. *)
Fixpoint collect_all (total : nat) (results : list (py_result (metadata * gmap string json)))
  (st : aggregate) : M aggregate :=
  match results with
  | [] => ret st
  | future :: rest =>
      let* res := lift future in
      let* st' := lift (collect st res) in
      let* _ := (if Nat.eqb (processed st' mod 100) 0
                 then log INFO (Processed (processed st') total) else ret tt) in
      collect_all total rest st'
  end.

(** [for metadata in to_move] at the end of [cleanup_files] *)
Fixpoint relocate (moving : list classified) : M unit :=
  match moving with
  | [] => ret tt
  | md :: rest =>
      let* _ := (if DRY_RUN then log INFO (WouldMove (path (file md)))
                 else let* _ := move_to_backup (path (file md)) in ret tt) in
      relocate rest
  end.

(** [cleanup_files(files)]. [setup i] and [oracle i] are what the call
    for record number [i] meets and [order] the order in which the
    futures finish. An exception [future.result()] raises leaves the
    function (the [with] block first waits for the other workers). *)
Definition cleanup_files (setup : nat -> option exn) (oracle : nat -> nat -> api_outcome)
  (order : list nat) (files : list metadata) : M unit :=
  let* _ := log INFO (StartingClassification NUM_THREADS) in
  let* agg := collect_all (length files) (pool_results NUM_THREADS setup oracle order files)
                initial_aggregate in
  let* _ := log INFO ClassificationComplete in
  match to_delete agg with
  | [] => log INFO NothingToCleanUp
  | _ =>
      let* moving := reading (display_and_filter_files (program_files agg)) in
      match moving with
      | [] => log INFO NoFilesSelected
      | _ =>
          let* _ := log INFO (Proceeding (length moving)) in
          let* confirm := input in
          if negb (String.eqb (Py.lower confirm) "y") then log INFO AbortedByUser
          else
            let* _ := relocate moving in
            let* _ := log INFO (FilesMovedTo BACKUP_DIR) in
            if DRY_RUN then log INFO DryRunNotice else ret tt
      end
  end.

(** [main()] *)
Definition main (setup : nat -> option exn) (oracle : nat -> nat -> api_outcome)
  (order : list nat) : M unit :=
  let* _ := log INFO StartingCleanup in
  let* _ := log INFO (DryRunState DRY_RUN) in
  let* _ := setup_backup_dir in
  let* files := scan_system_data in
  match files with
  | [] => log INFO NoFilesFound
  | _ =>
      let* _ := cleanup_files setup oracle order files in
      log INFO CleanupComplete
  end.

(** The [try] around [main()] at the end of the script. *)
Definition run (setup : nat -> option exn) (oracle : nat -> nat -> api_outcome)
  (order : list nat) (s : state) : state :=
  match main setup oracle order s with
  | (Ok _, s') => s'
  | (Raise e, s') =>
      {| world := world s'; stdin := stdin s';
         trace := trace s' ++ [Logged ERROR (UnexpectedError (exn_text e))] |}
  end.

End Run.

(** * Properties *)

(** ** Vocabulary of the statements *)

(** What a rate-limited attempt number [j] does before the loop goes on:
    the request, the warning, the cooldown of five seconds and the pause
    that ends every iteration. *)
Definition retry_block (thread_id : nat) (m : metadata) (j : nat) : list worker_event :=
  [Request j; ThreadLog thread_id WARNING (RateLimitHit (path m)); Sleep 5000; Sleep 100].

(** The attempts [0 .. k-1] all meet the rate limit. *)
Definition rate_limited_below (oracle : nat -> api_outcome) (k : nat) : Prop :=
  forall j, j < k -> oracle j = RateLimitError.

(** The attempt numbers a worker sent a request for, in order. *)
Definition requests (evs : list worker_event) : list nat :=
  omap (fun ev => match ev with Request j => Some j | _ => None end) evs.

(** The outcome that ends an invocation: the first one among attempts
    [range] that is not the rate limit, if any. *)
Fixpoint deciding_outcome (oracle : nat -> api_outcome) (range : list nat)
  : option api_outcome :=
  match range with
  | [] => None
  | attempt :: rest =>
      match oracle attempt with
      | RateLimitError => deciding_outcome oracle rest
      | o => Some o
      end
  end.

(** The oracle's answer was accepted: it decoded to a value that passed
    the validation. *)
Definition accepted (o : api_outcome) : bool :=
  match o with
  | Loaded result =>
      match validate result with
      | Ok (_, true) => true
      | _ => false
      end
  | _ => false
  end.

(** The invocation errors or exhausts its retries. *)
Definition invocation_fails (oracle : nat -> api_outcome) : bool :=
  match deciding_outcome oracle (seq 0 3) with
  | None => true
  | Some o => negb (accepted o)
  end.

(** The classification an invocation ends with, read off the outcome
    that decides it ([None]: the retries ran out). *)
Definition outcome_classification (o : option api_outcome) : gmap string json :=
  match o with
  | Some (Loaded result) =>
      match validate result with
      | Ok (c, _) => c
      | Raise e => fail_safe ("API error: " +:+ exn_text e)
      end
  | Some (JSONDecodeError e) => fail_safe ("JSON parse error: " +:+ e)
  | Some (OtherException e) => fail_safe ("API error: " +:+ e)
  | Some RateLimitError | None => fail_safe "Failed after retries"
  end.

(** The classification record number [i] receives. *)
Definition classification_of (oracle : nat -> api_outcome) : gmap string json :=
  outcome_classification (deciding_outcome oracle (seq 0 3)).

(** The test [not classification["important"]] of the aggregation loop. *)
Definition retained (res : metadata * gmap string json) : bool :=
  match snd res !! "important" with
  | Some v => negb (py_truthy v)
  | None => false
  end.

(** The record as the aggregation loop stores it. *)
Definition attach (res : metadata * gmap string json) : classified :=
  {| file := fst res;
     importance := default JNull (snd res !! "importance");
     reason := default JNull (snd res !! "reason") |}.

(** A classification holds the three keys the loop reads. *)
Definition well_keyed (c : gmap string json) : Prop :=
  is_Some (c !! "important") /\ is_Some (c !! "importance") /\ is_Some (c !! "reason").

(** The retained records attributed to [program], in arrival order. *)
Definition members_for (program : string) (results : list (metadata * gmap string json))
  : list classified :=
  map attach
    (List.filter (fun res => retained res && String.eqb (get_program_name (path (fst res))) program)
       results).

(** [program_files[program]] ([[]] for a name that is no key). *)
Definition group (program : string) (groups : program_groups) : list classified :=
  match find (fun it => String.eqb (fst it) program) groups with
  | Some it => snd it
  | None => []
  end.

(** The pairs the main thread receives before [future.result()] raises,
    if it does: the loop ends at the first exception. *)
Fixpoint delivered {A : Type} (futures : list (py_result A)) : list A :=
  match futures with
  | Ok a :: rest => a :: delivered rest
  | _ => []
  end.

(** The exception that ends the loop, if any. *)
Fixpoint first_failure {A : Type} (futures : list (py_result A)) : option exn :=
  match futures with
  | [] => None
  | Ok _ :: rest => first_failure rest
  | Raise e :: _ => Some e
  end.

(** What [future.result()] gives for record number [i]. *)
Definition result_of (setup : nat -> option exn) (oracle : nat -> nat -> api_outcome)
  (i : nat) (m : metadata) : py_result (metadata * gmap string json) :=
  match setup i with
  | Some e => Raise e
  | None => Ok (m, classification_of (oracle i))
  end.

(** Every call of the batch gets past its first two statements: the log
    file of its thread opens and its client is built. *)
Definition all_ready (setup : nat -> option exn) (files : list metadata) : Prop :=
  forall i, i < length files -> setup i = None.

(** The pairs of a pool in which every call got past its first two
    statements. *)
Definition pool_pairs (oracle : nat -> nat -> api_outcome) (order : list nat)
  (files : list metadata) : list (metadata * gmap string json) :=
  as_completed order (imap (fun i m => (m, classification_of (oracle i))) files).

(** The aggregation loop without its progress lines. *)
Fixpoint collect_list (results : list (metadata * gmap string json)) (st : aggregate)
  : py_result aggregate :=
  match results with
  | [] => Ok st
  | res :: rest =>
      match collect st res with
      | Ok st' => collect_list rest st'
      | Raise e => Raise e
      end
  end.

(** The three groups of a run, whatever they hold. *)
Definition three_groups (a t o : list classified) : program_groups :=
  [("Android Studio", a); ("Transporter", t); ("Others", o)].

(** ** The operator's answers, as the prompts word them *)

(** The names of the programs that have records, in order:
    [valid_programs] of [display_and_filter_files]. *)
Definition programs_with_files (groups : program_groups) : list string :=
  map fst (List.filter (fun it => match snd it with [] => false | _ => true end) groups).

(** What a line says: the line without the blanks around it and without
    regard to letter case; and its items, what stands between its
    commas, without the blanks around each. *)
Definition said (line : string) : string := Py.lower (Py.strip line).

Definition items_of (line : string) : list string := map Py.strip (Py.split "," (said line)).

(** What a line answers to "Which programs' files to KEEP? (e.g.,
    'Transporter, Build', 'none', or 'all')": no program, every program
    that has records, or those of them that the line names. A line that
    names none of them is no answer. *)
Definition keep_reply (valid : list string) (line : string) : option (list string) :=
  if String.eqb (said line) "none" then Some []
  else if String.eqb (said line) "all" then Some valid
  else
    match List.filter (fun vp => Py.str_in (Py.lower vp) (items_of line)) valid with
    | [] => None
    | named => Some named
    end.

(** The tier a word names, whatever its letter case. *)
Definition tier_named (word : string) : option string :=
  if String.eqb (Py.lower word) "low" then Some "Low"
  else if String.eqb (Py.lower word) "medium" then Some "Medium"
  else if String.eqb (Py.lower word) "high" then Some "High"
  else None.

(** What a line answers to "Which importance levels to DELETE? (e.g.,
    'Low, Medium', 'all', 'none')": no tier, the three tiers, or the
    tiers the line names, in the order it names them. A line that names
    no tier is no answer. *)
Definition tiers_reply (line : string) : option (list string) :=
  if String.eqb (said line) "none" then Some []
  else if String.eqb (said line) "all" then Some ["Low"; "Medium"; "High"]
  else
    match omap tier_named (items_of line) with
    | [] => None
    | levels => Some levels
    end.

(** A prompt is repeated until a line is an answer: the first answer
    among [lines], with the lines after it. *)
Fixpoint first_reply {A : Type} (reply : string -> option A) (lines : list string)
  : option (A * list string) :=
  match lines with
  | [] => None
  | line :: rest =>
      match reply line with
      | Some a => Some (a, rest)
      | None => first_reply reply rest
      end
  end.

(** The programs the operator is asked about: those that have records
    and are not kept, in order. *)
Definition asked (groups : program_groups) (keep : list string) : list string :=
  List.filter (fun p => negb (Py.str_in p keep)) (programs_with_files groups).

(** The tiers the operator chooses for each program asked about, in
    turn, and the lines left. *)
Fixpoint tier_replies (programs : list string) (lines : list string)
  : option (list (string * list string) * list string) :=
  match programs with
  | [] => Some ([], lines)
  | p :: programs' =>
      match first_reply tiers_reply lines with
      | None => None
      | Some (levels, rest) =>
          match tier_replies programs' rest with
          | None => None
          | Some (chosen, rest') => Some ((p, levels) :: chosen, rest')
          end
      end
  end.

(** The set of tiers chosen for [program] (none for a program not asked
    about). *)
Definition tiers_of (chosen : list (string * list string)) (program : string)
  : list string :=
  match find (fun ch => String.eqb (fst ch) program) chosen with
  | Some ch => snd ch
  | None => []
  end.

(** What the operator chooses on the input [lines]: the keep set, the
    tiers to delete for each program asked about, and the lines left;
    [None] when the input ends before every prompt is answered. With no
    program holding a record nothing is asked. *)
Definition operator_choices (groups : program_groups) (lines : list string)
  : option (list string * list (string * list string) * list string) :=
  match programs_with_files groups with
  | [] => Some ([], [], lines)
  | valid =>
      match first_reply (keep_reply valid) lines with
      | None => None
      | Some (keep, rest) =>
          match tier_replies (asked groups keep) rest with
          | None => None
          | Some (chosen, rest') => Some (keep, chosen, rest')
          end
      end
  end.

(** The Selection Planner of the specification: from the groups, the
    keep set and the delete-tier set of each program, the records of
    the programs not kept whose tier is in the set of their program. *)
Definition selection_set (groups : program_groups) (keep : list string)
  (tiers : string -> list string) : list classified :=
  flat_map (fun it =>
              if Py.str_in (fst it) keep then []
              else List.filter (fun f => json_in (importance f) (tiers (fst it))) (snd it))
           groups.

(** The review that asks nothing and selects nothing. *)
Definition empty_review : review :=
  {| programs_to_keep := []; levels_chosen := []; to_move := [] |}.

(** A statement of the main thread run from any state leaves a state
    related to the first by [R], and a value satisfying [Q] when it does
    not raise. *)
Definition post {World A : Type} (m : @M World A)
  (R : @state World -> @state World -> Prop) (Q : A -> Prop) : Prop :=
  forall s r s', m s = (r, s') -> R s s' /\ forall a, r = Ok a -> Q a.

(** [s] after the events [evs], and [s] with the operator input [rest]
    left. *)
Definition wrote {World : Type} (s : @state World) (evs : list event) : @state World :=
  {| world := world s; stdin := stdin s; trace := trace s ++ evs |}.

Definition read_to {World : Type} (s : @state World) (rest : list string) : @state World :=
  {| world := world s; stdin := rest; trace := trace s |}.

(** From [s] to [s'] the trace only grew, by events that satisfy [P]. *)
Definition appends {World : Type} (P : event -> Prop) (s s' : @state World) : Prop :=
  exists evs, trace s' = trace s ++ evs /\ Forall P evs.

(** The event is no move, or a move of a path in [allowed]. *)
Definition moves_from (allowed : string -> Prop) (ev : event) : Prop :=
  match ev with
  | Did (Move src _) _ => allowed src
  | _ => True
  end.

(** The event is a log line, not a filesystem call. *)
Definition is_logged (ev : event) : Prop :=
  match ev with
  | Logged _ _ => True
  | Did _ _ => False
  end.

(** [src] is the path of an input record whose invocation did not fail. *)
Definition accepted_path (oracle : nat -> nat -> api_outcome) (files : list metadata)
  (src : string) : Prop :=
  exists i m, files !! i = Some m /\ path m = src /\ invocation_fails (oracle i) = false.

(** [x] is an input record, as stored, whose invocation did not fail and
    whose classification passed the test of the aggregation loop. *)
Definition accepted_record (oracle : nat -> nat -> api_outcome) (files : list metadata)
  (x : classified) : Prop :=
  exists i m, files !! i = Some m /\ invocation_fails (oracle i) = false /\
    retained (m, classification_of (oracle i)) = true /\
    x = attach (m, classification_of (oracle i)).

(** From [s] to [s'] the filesystem is untouched and only log lines were
    written. *)
Definition only_logged {World : Type} (s s' : @state World) : Prop :=
  world s' = world s /\ appends is_logged s s'.

(** ** Paths as component lists *)

Fixpoint has_sep (s : string) : bool :=
  match s with
  | EmptyString => false
  | String c r => PosixPath.is_sep c || has_sep r
  end.

(** A path component: not empty and without a slash. *)
Definition is_part (c : string) : bool := negb (String.eqb c "") && negb (has_sep c).

(** A component [normpath] keeps: a part other than ["."] and [".."]. *)
Definition is_clean (c : string) : bool :=
  is_part c && negb (String.eqb c ".") && negb (String.eqb c "..").

(** The absolute path with the components [comps]. *)
Definition absolute (comps : list string) : string := "/" +:+ Py.join "/" comps.

(** [a] is an initial segment of [b]. *)
Fixpoint is_prefix (a b : list string) : bool :=
  match a, b with
  | [], _ => true
  | x :: a', y :: b' => String.eqb x y && is_prefix a' b'
  | _ :: _, [] => false
  end.

(** Once both are normalised, [p] is [root] or lies below it. *)
Definition resolves_inside (root p : string) : bool :=
  is_prefix (PosixPath.components (PosixPath.normpath root))
            (PosixPath.components (PosixPath.normpath p)).

Definition BACKUP_NAME : string := "SystemDataCleanupBackup".

(** What [move_to_backup] does once [relpath] has given [rel], by the
    answers of the filesystem: the value returned and the state left. *)
Definition move_to_backup_outcome {World : Type}
  (perform : syscall -> World -> option string * World) (dry : bool) (HOME : string)
  (file_path rel : string) (s : @state World) : py_result (option string) * @state World :=
  let backup_path := PosixPath.join (BACKUP_DIR HOME) rel in
  let backup_dir := PosixPath.dirname backup_path in
  match perform (Makedirs backup_dir) (world s) with
  | (Some e, w1) =>
      (Ok None,
       {| world := w1; stdin := stdin s;
          trace := trace s ++ [Did (Makedirs backup_dir) (Some e);
                               Logged ERROR (FailedToMove file_path e)] |})
  | (None, w1) =>
      if dry then
        (Ok (Some backup_path),
         {| world := w1; stdin := stdin s;
            trace := trace s ++ [Did (Makedirs backup_dir) None;
                                 Logged INFO (Moved file_path backup_path)] |})
      else
        match perform (Move file_path backup_path) w1 with
        | (Some e, w2) =>
            (Ok None,
             {| world := w2; stdin := stdin s;
                trace := trace s ++ [Did (Makedirs backup_dir) None;
                                     Did (Move file_path backup_path) (Some e);
                                     Logged ERROR (FailedToMove file_path e)] |})
        | (None, w2) =>
            (Ok (Some backup_path),
             {| world := w2; stdin := stdin s;
                trace := trace s ++ [Did (Makedirs backup_dir) None;
                                     Did (Move file_path backup_path) None;
                                     Logged INFO (Moved file_path backup_path)] |})
        end
  end.

(** ** Sample runs *)

(** A small concrete setting for the examples: a home directory, a
    filesystem that accepts every call, one cache file outside the home
    directory, an oracle that calls everything a low-importance cache,
    and an operator who keeps nothing, deletes every level and
    confirms. *)
Module Sample.

Definition HOME : string := "/Users/me".
Definition cwd : string := "/".

Definition quiet (c : syscall) (w : unit) : option string * unit := (None, w).

Definition os_exists (p : string) : bool := String.eqb p "/Library/Caches".

Definition os_walk (p : string) : list (string * list string) :=
  if String.eqb p "/Library/Caches" then [("/Library/Caches/app", ["x.db"])] else [].

Definition os_stat (p : string) : option stat_result :=
  Some {| st_size := 20480; st_mtime_iso := Ok "2024-01-01T00:00:00"; st_isdir := false |}.

Definition answer (important : json) (tier : string) : json :=
  JObj {[ "important" := important; "importance" := JStr tier; "reason" := JStr "cache" ]}.

Definition oracle (i attempt : nat) : api_outcome := Loaded (answer (JBool false) "Low").

(** Every worker opens its log file and builds its client. *)
Definition ready (i : nat) : option exn := None.

(** No key is configured: building the client fails in every worker. *)
Definition no_key (i : nat) : option exn :=
  Some (OpenAIError "The api_key client option must be set").

(** An oracle that is rate limited once and then fails for good. *)
Definition flaky (attempt : nat) : api_outcome :=
  match attempt with
  | 0 => RateLimitError
  | _ => OtherException "timeout"
  end.

(** Oracles that answer at once with an unknown tier, and with [0] for
    [important]. *)
Definition unknown_tier (attempt : nat) : api_outcome :=
  Loaded (answer (JBool false) "Urgent").

Definition zero_important (attempt : nat) : api_outcome :=
  Loaded (answer (JInt 0) "Low").

Definition answers : list string := ["none"; "all"; "y"].

Definition start : @state unit := {| world := tt; stdin := answers; trace := [] |}.

Definition record (p : string) : metadata :=
  {| path := p; size_mb := size_in_mb 1048576; mtime := "2024-01-01T00:00:00";
     is_dir := false |}.

Definition stored (p : string) (tier : string) : classified :=
  {| file := record p; importance := JStr tier; reason := JStr "cache" |}.

End Sample.

(** ** Program attribution, in the words of the specification *)

(** [name] appears in [p] as a substring, letter case ignored. *)
Definition appears_in (name p : string) : Prop :=
  exists before after, Py.lower p = before +:+ Py.lower name +:+ after.

(** "The program whose identifier appears as a case-insensitive
    substring of the record's path, checked against the fixed
    known-program list in a defined priority order; if no match, the
    fallback bucket." *)
Definition attributed (program p : string) : Prop :=
  (program = "Android Studio" /\ appears_in "Android Studio" p) \/
  (program = "Transporter" /\ ~ appears_in "Android Studio" p /\ appears_in "Transporter" p) \/
  (program = "Others" /\ ~ appears_in "Android Studio" p /\ ~ appears_in "Transporter" p).

(** ** Three statements the code does not satisfy *)



(** "A record outside the home directory is sent outside the backup
    root": its relative path holds a [".."] and its destination does not
    resolve inside the backup root. *)
Definition outside_home_leaves_backup_root (cwd HOME file_path : string) : Prop :=
  resolves_inside (PosixPath.expanduser HOME "~") file_path = false ->
  forall rel,
    PosixPath.relpath cwd file_path (PosixPath.expanduser HOME "~") = Some rel ->
    In ".." (Py.split PosixPath.sep rel) /\
    resolves_inside (BACKUP_DIR HOME) (PosixPath.join (BACKUP_DIR HOME) rel) = false.

(** "In dry mode the relocation loop still creates the directory of
    every destination." *)
Definition dry_mode_creates_directories {World : Type}
  (perform : syscall -> World -> option string * World) (HOME cwd : string)
  (moving : list classified) (s : @state World) : Prop :=
  forall md rel,
    In md moving ->
    PosixPath.relpath cwd (path (file md)) (PosixPath.expanduser HOME "~") = Some rel ->
    exists err,
      In (Did (Makedirs (PosixPath.dirname (PosixPath.join (BACKUP_DIR HOME) rel))) err)
         (trace (snd (relocate perform true HOME cwd moving s))).

(** ** Vocabulary of the further properties *)

(** The list [files] a scan stands at, or left with. *)
Definition flow_files (f : scan_flow) : list metadata :=
  match f with
  | Scanning files _ => files
  | Stopped files => files
  | Failed files _ _ => files
  end.

(** The record [get_file_metadata] builds for [p] from what [os.stat]
    told and the formatted time [iso]. *)
Definition metadata_of (p : string) (st : stat_result) (iso : string) : metadata :=
  {| path := p;
     size_mb := size_in_mb (st_size st);
     mtime := iso;
     is_dir := st_isdir st |}.

(** A statement of the main thread that only writes log lines: from any
    state it returns a value that satisfies [Q] and leaves the
    filesystem and the operator input as they were. *)
Definition only_logs {World A : Type} (m : @M World A) (Q : A -> Prop) : Prop :=
  forall s, exists a evs, m s = (Ok a, wrote s evs) /\ Forall is_logged evs /\ Q a.

(** What a worker did; nothing when its call raised before the loop. *)
Definition worker_events {A : Type} (future : py_result (list worker_event * A))
  : list worker_event :=
  match future with
  | Ok (evs, _) => evs
  | Raise _ => []
  end.

(** The line makes a prompt read [word]: [line.strip().lower() == word]. *)
Definition answers_with (word : string) (line : string) : Prop :=
  Py.lower (Py.strip line) = word.

(** The paths whose relocation the log reports, as moved or as failed,
    in the order of the lines. *)
Definition reported (evs : list event) : list string :=
  omap (fun ev => match ev with
                  | Logged _ (Moved src _) => Some src
                  | Logged _ (FailedToMove src _) => Some src
                  | _ => None
                  end) evs.

(** The milliseconds a worker slept. *)
Fixpoint total_sleep (evs : list worker_event) : N :=
  match evs with
  | [] => 0
  | Sleep ms :: rest => N.of_nat ms + total_sleep rest
  | _ :: rest => total_sleep rest
  end.

(** The thread numbers on the log lines of a worker. *)
Definition thread_ids (evs : list worker_event) : list nat :=
  omap (fun ev => match ev with ThreadLog tid _ _ => Some tid | _ => None end) evs.

(** Further sample inputs: a filesystem that refuses every move, one
    that refuses every call, an oracle whose answer is a string holding
    the three key names, and an oracle that always fails. *)
Module SampleMore.

Definition no_moves (c : syscall) (w : unit) : option string * unit :=
  match c with
  | Move _ _ => (Some "Permission denied", w)
  | Makedirs _ => (None, w)
  end.

Definition read_only (c : syscall) (w : unit) : option string * unit :=
  (Some "Read-only file system", w).

Definition string_answer (attempt : nat) : api_outcome :=
  Loaded (JStr "important importance reason").


Definition declining : @state unit :=
  {| world := tt; stdin := ["none"; "all"; "n"]; trace := [] |}.

End SampleMore.

(** ** The oracle client *)

Lemma fail_safe_important why : fail_safe why !! "important" = Some (JBool true).
Proof. reflexivity. Qed.

Lemma fail_safe_importance why : fail_safe why !! "importance" = Some (JStr "High").
Proof. reflexivity. Qed.

Lemma fail_safe_reason why : fail_safe why !! "reason" = Some (JStr why).
Proof. reflexivity. Qed.

(** Rate-limited attempts at the head of the range each contribute their
    retry block and hand over to the rest of the loop. *)
Lemma attempts_skip_rate_limited oracle tid m k : forall a n,
  (forall j, a <= j < a + k -> oracle j = RateLimitError) ->
  k <= n ->
  attempts oracle tid m (seq a n) =
    (flat_map (retry_block tid m) (seq a k) ++ fst (attempts oracle tid m (seq (a + k) (n - k))),
     snd (attempts oracle tid m (seq (a + k) (n - k)))).
Proof.
  induction k as [|k IH]; intros a n Hrl Hk.
  - rewrite Nat.add_0_r, Nat.sub_0_r. simpl. now destruct (attempts _ _ _ _).
  - destruct n as [|n]; [lia|].
    cbn [seq attempts]. rewrite (Hrl a) by lia. cbn [attempt_body].
    rewrite (IH (S a) n) by (intros; try apply Hrl; lia).
    replace (S a + k) with (a + S k) by lia. cbn [Nat.sub flat_map retry_block].
    reflexivity.
Qed.

Lemma requests_app evs evs' : requests (evs ++ evs') = requests evs ++ requests evs'.
Proof. unfold requests. apply omap_app. Qed.

Lemma requests_retry_blocks tid m : forall k a,
  requests (flat_map (retry_block tid m) (seq a k)) = seq a k.
Proof.
  induction k as [|k IH]; intros a; [reflexivity|].
  cbn [seq flat_map]. rewrite requests_app, IH. reflexivity.
Qed.

Lemma attempt_body_requests tid m o : requests (fst (attempt_body tid m o)) = [].
Proof.
  destruct o as [| e | e | r]; try reflexivity.
  cbn [attempt_body]. destruct (validate r) as [[c [|]]|e]; reflexivity.
Qed.

(** Whatever the oracle does, the requests sent are the attempt numbers
    of a prefix of the range. *)
Lemma attempts_requests_prefix oracle tid m : forall range,
  exists n, n <= length range /\
    requests (fst (attempts oracle tid m range)) = take n range.
Proof.
  induction range as [|a rest [n [Hn IH]]].
  - exists 0. split; [lia | reflexivity].
  - cbn [attempts].
    pose proof (attempt_body_requests tid m (oracle a)) as Hb.
    destruct (attempt_body tid m (oracle a)) as [evs [c|]]; cbn [fst] in Hb.
    + exists 1. split; [simpl; lia|]. cbn [fst].
      change (Request a :: evs) with ([Request a] ++ evs).
      rewrite requests_app, Hb. reflexivity.
    + destruct (attempts oracle tid m rest) as [evs' c] eqn:E. cbn [fst] in IH |- *.
      exists (S n). split; [simpl; lia|].
      change (Request a :: evs ++ evs') with ([Request a] ++ evs ++ evs').
      rewrite !requests_app, Hb, IH. reflexivity.
Qed.

(** The invocation after [k < 3] rate-limited attempts: the retry blocks,
    then the deciding attempt. *)
Lemma classify_after_rate_limits oracle m tid k :
  k < 3 -> rate_limited_below oracle k ->
  oracle k <> RateLimitError ->
  exists evs c,
    attempt_body tid m (oracle k) = (evs, Some c) /\
    classify_file_with_openai None oracle m tid =
      Ok (flat_map (retry_block tid m) (seq 0 k) ++ Request k :: evs, (m, c)).
Proof.
  intros Hk Hrl Hne. unfold classify_file_with_openai.
  rewrite (attempts_skip_rate_limited oracle tid m k 0 3) by (intros; try apply Hrl; lia).
  cbn [Nat.add].
  destruct (3 - k) as [|n] eqn:E; [lia|]. cbn [seq attempts].
  destruct (attempt_body tid m (oracle k)) as [evs [c|]] eqn:Eb.
  - exists evs, c. split; reflexivity.
  - exfalso. destruct (oracle k) as [| e | e | r]; try discriminate; [congruence|].
    cbn [attempt_body] in Eb. destruct (validate r) as [[c [|]]|e]; discriminate.
Qed.

(** The invocation when all three attempts meet the rate limit. *)
Lemma classify_exhausted oracle m tid :
  rate_limited_below oracle 3 ->
  classify_file_with_openai None oracle m tid =
    Ok (flat_map (retry_block tid m) (seq 0 3)
          ++ [ThreadLog tid ERROR (FailedAfterRetries (path m))],
        (m, fail_safe "Failed after retries")).
Proof.
  intros Hrl. unfold classify_file_with_openai.
  rewrite (attempts_skip_rate_limited oracle tid m 3 0 3) by (intros; try apply Hrl; lia).
  reflexivity.
Qed.

(** A decoded object is accepted exactly when it has the three required
    keys; its tier is then replaced by Medium unless it is one of the
    three names. *)
Lemma validate_object_complete d tier :
  is_Some (d !! "important") -> d !! "importance" = Some tier -> is_Some (d !! "reason") ->
  validate (JObj d) =
    Ok (if json_in tier TIERS then d else <["importance" := JStr "Medium"]> d, true).
Proof.
  intros Hi Ht Hr. unfold validate, REQUIRED_KEYS. cbn [all_keys_in py_contains].
  rewrite !bool_decide_eq_true_2; [| assumption | rewrite Ht; eauto | assumption].
  rewrite Ht. now destruct (json_in tier TIERS).
Qed.

Lemma validate_object_incomplete d key :
  In key REQUIRED_KEYS -> d !! key = None ->
  validate (JObj d) = Ok (fail_safe "Invalid JSON structure", false).
Proof.
  intros Hin Hnone. unfold validate, REQUIRED_KEYS in *. cbn [all_keys_in py_contains].
  assert (Hf : forall k, d !! k = None -> bool_decide (is_Some (d !! k)) = false).
  { intros k Hk. apply bool_decide_eq_false_2. rewrite Hk. intros [? ?]; discriminate. }
  destruct Hin as [<- | [<- | [<- | []]]].
  - now rewrite (Hf _ Hnone).
  - destruct (bool_decide (is_Some (d !! "important"))); [|reflexivity].
    now rewrite (Hf _ Hnone).
  - destruct (bool_decide (is_Some (d !! "important"))); [|reflexivity].
    destruct (bool_decide (is_Some (d !! "importance"))); [|reflexivity].
    now rewrite (Hf _ Hnone).
Qed.

(** C2. A rate-limit failure is retried after the fixed cooldown and at
    most three requests are ever sent; any other failure of the request
    or of the decoding ends the invocation at once with the fail-safe
    classification (important true, importance High); three rate-limited
    attempts end it with the fail-safe classification too. Here [k] is
    the number of leading attempts that met the rate limit. *)
Theorem C2_retry_policy (setup : option exn) (oracle : nat -> api_outcome)
  (m : metadata) (tid k : nat)
  (evs : list worker_event) (m' : metadata) (c : gmap string json) :
  k <= 3 ->
  rate_limited_below oracle k ->
  classify_file_with_openai setup oracle m tid = Ok (evs, (m', c)) ->
  let retried := flat_map (retry_block tid m) (seq 0 k) in
  length (requests evs) <= 3 /\
  (k < 3 -> exists rest, evs = retried ++ Request k :: rest) /\
  (k = 3 ->
     evs = retried ++ [ThreadLog tid ERROR (FailedAfterRetries (path m))] /\
     requests evs = [0; 1; 2] /\
     c = fail_safe "Failed after retries") /\
  (k < 3 -> forall e, oracle k = OtherException e ->
     evs = retried ++ [Request k; ThreadLog tid ERROR (ApiError (path m) e)] /\
     c = fail_safe ("API error: " +:+ e)) /\
  (k < 3 -> forall e, oracle k = JSONDecodeError e ->
     evs = retried ++ [Request k; ThreadLog tid ERROR (ParseError (path m) e)] /\
     c = fail_safe ("JSON parse error: " +:+ e)) /\
  (k < 3 -> oracle k <> RateLimitError -> requests evs = seq 0 (S k)) /\
  (forall why, fail_safe why !! "important" = Some (JBool true) /\
               fail_safe why !! "importance" = Some (JStr "High")).
Proof.
  intros Hk Hrl Hc retried.
  destruct setup as [e|]; [discriminate|].
  assert (Hafter : k < 3 -> oracle k <> RateLimitError ->
            exists evs0 c0, attempt_body tid m (oracle k) = (evs0, Some c0) /\
              evs = retried ++ Request k :: evs0 /\ c = c0).
  { intros Hlt Hne.
    destruct (classify_after_rate_limits oracle m tid k Hlt Hrl Hne) as (evs0 & c0 & Hb & Heq).
    rewrite Heq in Hc. injection Hc as <- _ <-. eauto. }
  assert (Hex : k = 3 -> evs = retried ++ [ThreadLog tid ERROR (FailedAfterRetries (path m))]
                          /\ c = fail_safe "Failed after retries").
  { intros ->. rewrite (classify_exhausted oracle m tid Hrl) in Hc.
    injection Hc as <- _ <-. split; reflexivity. }
  split; [|split; [|split; [|split; [|split; [|split]]]]].
  - unfold classify_file_with_openai in Hc.
    destruct (attempts_requests_prefix oracle tid m (seq 0 3)) as (n & Hn & Hreq).
    destruct (attempts oracle tid m (seq 0 3)) as [evs1 c1]. injection Hc as <- _ _.
    cbn [fst] in Hreq. rewrite Hreq, length_take. simpl in *. lia.
  - intros Hlt. unfold classify_file_with_openai in Hc.
    rewrite (attempts_skip_rate_limited oracle tid m k 0 3) in Hc
      by (intros; try apply Hrl; lia).
    cbn [Nat.add] in Hc. destruct (3 - k) as [|n] eqn:E; [lia|].
    cbn [seq attempts] in Hc.
    destruct (attempt_body tid m (oracle k)) as [evs0 [c0|]].
    + injection Hc as <- _ _. eauto.
    + destruct (attempts oracle tid m (seq (S k) n)) as [evs1 c1].
      injection Hc as <- _ _. eauto.
  - intros E. destruct (Hex E) as [-> ->]. subst k. repeat split.
  - intros Hlt e Ho. destruct (Hafter Hlt) as (evs0 & c0 & Hb & -> & ->); [congruence|].
    rewrite Ho in Hb. cbn [attempt_body] in Hb. injection Hb as <- <-. split; reflexivity.
  - intros Hlt e Ho. destruct (Hafter Hlt) as (evs0 & c0 & Hb & -> & ->); [congruence|].
    rewrite Ho in Hb. cbn [attempt_body] in Hb. injection Hb as <- <-. split; reflexivity.
  - intros Hlt Hne. destruct (Hafter Hlt Hne) as (evs0 & c0 & Hb & -> & ->).
    change (Request k :: evs0) with ([Request k] ++ evs0).
    rewrite !requests_app. unfold retried. rewrite requests_retry_blocks.
    pose proof (attempt_body_requests tid m (oracle k)) as Hq. rewrite Hb in Hq.
    cbn [fst] in Hq. rewrite Hq, seq_S. reflexivity.
  - intros why. split; reflexivity.
Qed.

(** C3. When the oracle's answer decodes to an object holding the three
    required fields, an importance tier outside Low/Medium/High is
    replaced by Medium and the object is returned as it is otherwise;
    when the answer cannot be decoded, or the object lacks a required
    field, the result is the fail-safe classification (important true,
    importance High). [k] is the number of rate-limited attempts before
    the answer. *)
Theorem C3_response_validation (setup : option exn) (oracle : nat -> api_outcome)
  (m : metadata) (tid k : nat)
  (evs : list worker_event) (m' : metadata) (c : gmap string json) :
  k < 3 ->
  rate_limited_below oracle k ->
  classify_file_with_openai setup oracle m tid = Ok (evs, (m', c)) ->
  (forall d tier,
     oracle k = Loaded (JObj d) ->
     is_Some (d !! "important") -> d !! "importance" = Some tier -> is_Some (d !! "reason") ->
     (json_in tier TIERS = false ->
        c = <["importance" := JStr "Medium"]> d /\
        c !! "importance" = Some (JStr "Medium") /\
        forall key, key <> "importance" -> c !! key = d !! key) /\
     (json_in tier TIERS = true -> c = d)) /\
  (forall d key,
     oracle k = Loaded (JObj d) -> In key REQUIRED_KEYS -> d !! key = None ->
     c = fail_safe "Invalid JSON structure") /\
  (forall e, oracle k = JSONDecodeError e -> c = fail_safe ("JSON parse error: " +:+ e)) /\
  (forall why, fail_safe why !! "important" = Some (JBool true) /\
               fail_safe why !! "importance" = Some (JStr "High")).
Proof.
  intros Hk Hrl Hc.
  destruct setup as [e0|]; [discriminate|].
  assert (Hafter : oracle k <> RateLimitError ->
            attempt_body tid m (oracle k) = (drop (length (flat_map (retry_block tid m) (seq 0 k)) + 1) evs, Some c)).
  { intros Hne.
    destruct (classify_after_rate_limits oracle m tid k Hk Hrl Hne) as (evs0 & c0 & Hb & Heq).
    rewrite Heq in Hc. injection Hc as <- _ <-. rewrite Hb. f_equal.
    rewrite drop_app_add'; [reflexivity|]. reflexivity. }
  split; [|split; [|split]].
  - intros d tier Ho Hi Ht Hr.
    rewrite Ho in Hafter. specialize (Hafter ltac:(discriminate)).
    cbn [attempt_body] in Hafter.
    rewrite (validate_object_complete d tier Hi Ht Hr) in Hafter.
    split; intros Htier; rewrite Htier in Hafter; injection Hafter as _ <-.
    + split; [reflexivity|]. split; [apply lookup_insert_eq|].
      intros key Hkey. now apply lookup_insert_ne.
    + reflexivity.
  - intros d key Ho Hin Hnone.
    rewrite Ho in Hafter. specialize (Hafter ltac:(discriminate)).
    cbn [attempt_body] in Hafter.
    rewrite (validate_object_incomplete d key Hin Hnone) in Hafter.
    now injection Hafter as _ <-.
  - intros e Ho.
    rewrite Ho in Hafter. specialize (Hafter ltac:(discriminate)).
    cbn [attempt_body] in Hafter. now injection Hafter as _ <-.
  - intros why. split; reflexivity.
Qed.

(** ** What an invocation returns *)

Lemma attempt_body_classification tid m o :
  o <> RateLimitError ->
  snd (attempt_body tid m o) = Some (outcome_classification (Some o)).
Proof.
  intros Hne. destruct o as [| e | e | r]; try reflexivity; [congruence|].
  cbn [attempt_body outcome_classification].
  destruct (validate r) as [[c [|]]|e]; reflexivity.
Qed.

Lemma attempts_classification oracle tid m : forall range,
  snd (attempts oracle tid m range) = outcome_classification (deciding_outcome oracle range).
Proof.
  induction range as [|a rest IH]; [reflexivity|].
  cbn [attempts deciding_outcome].
  destruct (oracle a) as [| e | e | r] eqn:Eo.
  - cbn [attempt_body]. destruct (attempts oracle tid m rest). exact IH.
  - reflexivity.
  - reflexivity.
  - pose proof (attempt_body_classification tid m (Loaded r) ltac:(discriminate)) as Hb.
    destruct (attempt_body tid m (Loaded r)) as [evs [c|]]; cbn [snd] in Hb;
      [|discriminate].
    injection Hb as ->. reflexivity.
Qed.

(** The pair an invocation returns: the record it was given and the
    classification its deciding outcome determines, whatever the thread. *)
Lemma classify_returns setup oracle m tid :
  future_result (classify_file_with_openai setup oracle m tid) =
    match setup with
    | Some e => Raise e
    | None => Ok (m, classification_of oracle)
    end.
Proof.
  unfold classify_file_with_openai, classification_of.
  destruct setup as [e|]; [reflexivity|].
  rewrite <- (attempts_classification oracle tid m).
  now destruct (attempts oracle tid m (seq 0 3)).
Qed.

(** A call that returns got past its first two statements. *)
Lemma classify_ok setup oracle m tid evs res :
  classify_file_with_openai setup oracle m tid = Ok (evs, res) ->
  setup = None /\ res = (m, classification_of oracle).
Proof.
  intros Hc. pose proof (classify_returns setup oracle m tid) as Hr.
  rewrite Hc in Hr. cbn [future_result] in Hr.
  destruct setup as [e|]; [discriminate|]. injection Hr as ->. auto.
Qed.

Lemma fail_safe_well_keyed why : well_keyed (fail_safe why).
Proof. repeat split; eexists; reflexivity. Qed.

Lemma validate_well_keyed r c b : validate r = Ok (c, b) -> well_keyed c.
Proof.
  unfold validate, REQUIRED_KEYS.
  destruct (all_keys_in r _) as [[|]|] eqn:Ea; [| |discriminate].
  - destruct r as [| | | | | |d]; try discriminate.
    cbn [all_keys_in py_contains] in Ea.
    destruct (bool_decide (is_Some (d !! "important"))) eqn:E1; [|discriminate].
    destruct (bool_decide (is_Some (d !! "importance"))) eqn:E2; [|discriminate].
    destruct (bool_decide (is_Some (d !! "reason"))) eqn:E3; [|discriminate].
    apply bool_decide_eq_true_1 in E1, E2, E3.
    destruct (d !! "importance") as [tier|] eqn:Et; [|discriminate].
    destruct (negb (json_in tier TIERS)); intros [= <- <-].
    + repeat split.
      * now rewrite lookup_insert_ne.
      * rewrite lookup_insert_eq. eauto.
      * now rewrite lookup_insert_ne.
    + repeat split; try assumption. rewrite Et. eauto.
  - intros [= <- <-]. apply fail_safe_well_keyed.
Qed.

Lemma outcome_classification_well_keyed o : well_keyed (outcome_classification o).
Proof.
  destruct o as [[| e | e | r]|]; cbn [outcome_classification];
    try apply fail_safe_well_keyed.
  destruct (validate r) as [[c b]|e] eqn:Ev; [|apply fail_safe_well_keyed].
  exact (validate_well_keyed r c b Ev).
Qed.

(** A failed invocation ends with a fail-safe classification. *)
Lemma failed_invocation_fail_safe oracle :
  invocation_fails oracle = true -> exists why, classification_of oracle = fail_safe why.
Proof.
  unfold invocation_fails, classification_of.
  destruct (deciding_outcome oracle (seq 0 3)) as [[| e | e | r]|];
    cbn [outcome_classification accepted negb]; eauto.
  destruct (validate r) as [[c [|]]|e] eqn:Ev; cbn [negb]; try discriminate; eauto.
  intros _. unfold validate in Ev.
  destruct (all_keys_in r REQUIRED_KEYS) as [[|]|]; [| |discriminate].
  - destruct r as [| | | | | |d]; try discriminate.
    destruct (d !! "importance") as [tier|]; [|discriminate].
    destruct (negb (json_in tier TIERS)); discriminate.
  - injection Ev as <-. eauto.
Qed.

(** ** The aggregation loop *)

Lemma get_program_name_cases p :
  get_program_name p = "Android Studio" \/
  get_program_name p = "Transporter" \/
  get_program_name p = "Others".
Proof.
  unfold get_program_name, KNOWN_PROGRAMS. cbn [find].
  destruct (Py.contains _ _); [now left|].
  destruct (Py.contains _ _); [right; now left | right; now right].
Qed.

Lemma members_for_cons program res results :
  members_for program (res :: results) =
    (if retained res && String.eqb (get_program_name (path (fst res))) program
     then [attach res] else []) ++ members_for program results.
Proof. unfold members_for. cbn [List.filter]. now destruct (_ && _). Qed.

(** One step of the loop on a classification that holds the three keys. *)
Lemma collect_step st m c a t o :
  well_keyed c ->
  program_files st = three_groups a t o ->
  exists st',
    collect st (m, c) = Ok st' /\
    to_delete st' = to_delete st ++ (if retained (m, c) then [attach (m, c)] else []) /\
    program_files st' =
      three_groups (a ++ members_for "Android Studio" [(m, c)])
                   (t ++ members_for "Transporter" [(m, c)])
                   (o ++ members_for "Others" [(m, c)]) /\
    processed st' = S (processed st).
Proof.
  intros ([vi Hi] & [vt Ht] & [vr Hr]) Hg.
  unfold collect, getitem, retained, members_for. cbn [snd fst List.filter map].
  rewrite Hi. unfold retained. cbn [snd]. rewrite Hi.
  destruct (negb (py_truthy vi)); cbn [andb].
  - rewrite Ht, Hr, Hg. unfold attach. cbn [fst snd]. rewrite Ht, Hr. cbn [default].
    destruct (get_program_name_cases (path m)) as [-> | [-> | ->]]; cbn;
      eexists; (split; [reflexivity|]); cbn; rewrite ?app_nil_r, ?Ht, ?Hr; auto.
  - eexists. split; [reflexivity|]. cbn. rewrite Hg, !app_nil_r. auto.
Qed.

(** The whole loop: every pair is processed, and the retained ones are
    appended, in arrival order, to [to_delete] and to the group of their
    program. *)
Lemma collect_list_spec : forall results st a t o,
  Forall (fun res => well_keyed (snd res)) results ->
  program_files st = three_groups a t o ->
  exists st',
    collect_list results st = Ok st' /\
    to_delete st' = to_delete st ++ map attach (List.filter retained results) /\
    program_files st' =
      three_groups (a ++ members_for "Android Studio" results)
                   (t ++ members_for "Transporter" results)
                   (o ++ members_for "Others" results) /\
    processed st' = processed st + length results.
Proof.
  induction results as [|[m c] rest IH]; intros st a t o Hwk Hg.
  - exists st. cbn. rewrite !app_nil_r, Nat.add_0_r. auto.
  - inversion Hwk as [|? ? Hc Hrest]; subst. cbn [snd] in Hc.
    destruct (collect_step st m c a t o Hc Hg) as (st1 & E1 & Hd1 & Hg1 & Hp1).
    destruct (IH st1 _ _ _ Hrest Hg1) as (st' & E' & Hd' & Hg' & Hp').
    exists st'. cbn [collect_list]. rewrite E1. split; [exact E'|].
    split; [|split].
    + rewrite Hd', Hd1. cbn [List.filter]. destruct (retained (m, c)); cbn [map];
        now rewrite <- app_assoc.
    + rewrite Hg'. rewrite !(members_for_cons _ (m, c) rest).
      unfold members_for at 1 3 5. cbn [List.filter map].
      repeat match goal with |- context [if ?b then _ else _] => destruct b end;
        cbn [map]; now rewrite <- ?app_assoc.
    + rewrite Hp', Hp1. cbn [length]. lia.
Qed.

(** When [important] is a Boolean the test of the loop is
    [important == false]. *)
Lemma retained_boolean m c b :
  c !! "important" = Some (JBool b) -> (retained (m, c) = true <-> b = false).
Proof.
  intros Hi. unfold retained. cbn [snd]. rewrite Hi. cbn [py_truthy].
  destruct b; split; intros H; try reflexivity; discriminate.
Qed.

Lemma collect_boolean st m c b st' :
  c !! "important" = Some (JBool b) ->
  collect st (m, c) = Ok st' ->
  (b = false /\ to_delete st' = to_delete st ++ [attach (m, c)]) \/
  (b = true /\ to_delete st' = to_delete st /\ program_files st' = program_files st).
Proof.
  intros Hi Hc. unfold collect, getitem in Hc. rewrite Hi in Hc. destruct b; cbn in Hc.
  - right. injection Hc as <-. auto.
  - left. split; [reflexivity|]. unfold attach. cbn [fst snd].
    destruct (c !! "importance") as [tier|]; [|discriminate].
    destruct (c !! "reason") as [why|]; [|discriminate].
    destruct (group_append _ _ _) as [groups|e]; [|discriminate].
    injection Hc as <-. reflexivity.
Qed.

Lemma filter_Permutation_bool {A} (f : A -> bool) (l l' : list A) :
  Permutation l l' -> Permutation (List.filter f l) (List.filter f l').
Proof.
  induction 1 as [| x l l' _ IH | x y l | l l' l'' _ IH1 _ IH2]; cbn [List.filter].
  - constructor.
  - destruct (f x); [now constructor | assumption].
  - destruct (f x), (f y); try reflexivity. constructor.
  - now transitivity (List.filter f l').
Qed.

Lemma members_for_Permutation program results results' :
  Permutation results results' ->
  Permutation (members_for program results) (members_for program results').
Proof. intros H. unfold members_for. now apply Permutation_map, filter_Permutation_bool. Qed.

Lemma in_members_for program results x :
  In x (members_for program results) <->
  exists res, In res results /\ retained res = true /\
    get_program_name (path (fst res)) = program /\ x = attach res.
Proof.
  unfold members_for. rewrite in_map_iff. split.
  - intros (res & <- & Hin). apply filter_In in Hin as (Hin & Hb).
    apply andb_prop in Hb as (Hr & Hp). apply String.eqb_eq in Hp. eauto.
  - intros (res & Hin & Hr & Hp & ->). exists res. split; [reflexivity|].
    apply filter_In. split; [assumption|]. rewrite Hr. now apply String.eqb_eq.
Qed.

(** ** The worker pool *)

Lemma omap_lookup_seq {A} (l : list A) : forall pre,
  omap (fun i => (pre ++ l) !! i) (seq (length pre) (length l)) = l.
Proof.
  induction l as [|x l IH]; intros pre; [reflexivity|].
  change (length (x :: l)) with (S (length l)). cbn [seq].
  change (omap ?f (?i :: ?r)) with (match f i with Some y => y :: omap f r | None => omap f r end).
  cbv beta. rewrite list_lookup_middle by reflexivity.
  f_equal. specialize (IH (pre ++ [x])).
  rewrite length_app, Nat.add_1_r, <- app_assoc in IH. exact IH.
Qed.

(** Futures that finish in an order naming each submission once are all
    delivered, each once. *)
Lemma as_completed_Permutation {A} (order : list nat) (futures : list A) :
  Permutation order (seq 0 (length futures)) ->
  Permutation (as_completed order futures) futures.
Proof.
  intros Hp. unfold as_completed. rewrite Hp.
  pose proof (omap_lookup_seq futures []) as H. cbn [app length] in H. now rewrite H.
Qed.

Lemma in_as_completed {A} (order : list nat) (futures : list A) x :
  In x (as_completed order futures) -> exists i, futures !! i = Some x.
Proof.
  unfold as_completed. intros Hin. apply list_elem_of_In, list_elem_of_omap in Hin.
  destruct Hin as (i & _ & Hi). eauto.
Qed.

Lemma pool_results_unordered n setup oracle files :
  map future_result (submit_all n setup oracle files) = imap (result_of setup oracle) files.
Proof.
  unfold submit_all.
  change (map future_result ?l) with (future_result <$> l). rewrite fmap_imap. apply imap_ext.
  intros i m _. cbn. apply classify_returns.
Qed.

Lemma pool_results_lookups n setup oracle order files :
  pool_results n setup oracle order files =
    as_completed order (imap (result_of setup oracle) files).
Proof.
  unfold pool_results, as_completed. rewrite <- (pool_results_unordered n).
  change (map future_result ?l) with (future_result <$> l).
  rewrite list_fmap_omap. apply list_omap_ext, Forall_Forall2_diag, Forall_forall.
  intros i _. now rewrite list_lookup_fmap.
Qed.

Lemma in_delivered {A} (futures : list (py_result A)) x :
  In x (delivered futures) -> In (Ok x) futures.
Proof.
  induction futures as [|[a|e] rest IH]; cbn [delivered]; [intros [] | | intros []].
  intros [<- | Hin]; [now left | right; now apply IH].
Qed.

Lemma delivered_ok {A} (l : list A) : delivered (map Ok l) = l.
Proof. induction l as [|x l IH]; [reflexivity | cbn; now rewrite IH]. Qed.

Lemma first_failure_ok {A} (l : list A) : first_failure (map Ok l) = None.
Proof. induction l as [|x l IH]; [reflexivity | exact IH]. Qed.

(** The loop stops at the first exception or receives every pair. *)
Lemma delivered_or_failed {A} (futures : list (py_result A)) :
  (first_failure futures = None /\ futures = map Ok (delivered futures)) \/
  (exists e rest, first_failure futures = Some e /\
     futures = map Ok (delivered futures) ++ Raise e :: rest).
Proof.
  induction futures as [|[a|e] l IH]; cbn [first_failure delivered map].
  - left. auto.
  - destruct IH as [[Hn Heq] | (e & rest & He & Heq)].
    + left. split; [exact Hn | now rewrite <- Heq].
    + right. exists e, rest. split; [exact He | cbn; now rewrite <- Heq].
  - right. exists e, l. auto.
Qed.

(** Every answer of a future is that of an input record. *)
Lemma in_pool_futures n setup oracle order files r :
  In r (pool_results n setup oracle order files) ->
  exists i m, files !! i = Some m /\ r = result_of setup oracle i m.
Proof.
  rewrite pool_results_lookups. intros Hin.
  apply in_as_completed in Hin as (i & Hi).
  rewrite list_lookup_imap in Hi.
  destruct (files !! i) as [m|] eqn:Hm; [|discriminate].
  cbn in Hi. injection Hi as <-. eauto.
Qed.

(** Every pair the main thread receives is an input record with the
    classification of its own invocation. *)
Lemma in_pool_results n setup oracle order files res :
  In res (delivered (pool_results n setup oracle order files)) ->
  exists i m, files !! i = Some m /\ res = (m, classification_of (oracle i)).
Proof.
  intros Hin. apply in_delivered, in_pool_futures in Hin as (i & m & Hm & Hr).
  exists i, m. split; [exact Hm|]. unfold result_of in Hr.
  destruct (setup i); [discriminate | now injection Hr].
Qed.

Lemma pool_results_ready n setup oracle order files :
  all_ready setup files ->
  pool_results n setup oracle order files = map Ok (pool_pairs oracle order files).
Proof.
  intros Hready. rewrite pool_results_lookups. unfold pool_pairs, as_completed.
  change (map Ok ?l) with (Ok <$> l). rewrite list_fmap_omap.
  apply list_omap_ext, Forall_Forall2_diag, Forall_forall.
  intros i _. rewrite !list_lookup_imap.
  destruct (files !! i) as [m|] eqn:Hm; [|reflexivity]. cbn. unfold result_of.
  rewrite Hready; [reflexivity|]. now apply lookup_lt_Some in Hm.
Qed.

Lemma pool_pairs_Permutation oracle order files :
  Permutation order (seq 0 (length files)) ->
  Permutation (pool_pairs oracle order files)
              (imap (fun i m => (m, classification_of (oracle i))) files).
Proof.
  intros Hp. unfold pool_pairs. apply as_completed_Permutation. now rewrite length_imap.
Qed.

Lemma pool_results_Permutation n setup oracle order files :
  all_ready setup files ->
  Permutation order (seq 0 (length files)) ->
  Permutation (delivered (pool_results n setup oracle order files))
              (imap (fun i m => (m, classification_of (oracle i))) files).
Proof.
  intros Hready Hp. rewrite (pool_results_ready n) by assumption.
  rewrite delivered_ok. now apply pool_pairs_Permutation.
Qed.

Lemma pool_results_well_keyed n setup oracle order files :
  Forall (fun res => well_keyed (snd res))
         (delivered (pool_results n setup oracle order files)).
Proof.
  apply List.Forall_forall. intros res Hin.
  apply in_pool_results in Hin as (i & m & _ & ->). apply outcome_classification_well_keyed.
Qed.


(** ** The operator review *)

Lemma str_in_In x l : Py.str_in x l = true <-> In x l.
Proof.
  unfold Py.str_in. rewrite existsb_exists. split.
  - intros (y & Hin & Heq). apply String.eqb_eq in Heq. now subst.
  - intros Hin. exists x. split; [assumption | apply String.eqb_refl].
Qed.

Lemma str_in_not_In x l : Py.str_in x l = false <-> ~ In x l.
Proof.
  rewrite <- str_in_In. destruct (Py.str_in x l); split; intros H; congruence.
Qed.

Lemma in_files_at_levels levels files f :
  In f (files_at_levels levels files) <-> In f files /\ json_in (importance f) levels = true.
Proof. unfold files_at_levels. apply filter_In. Qed.

(** Every record selected comes from one of the groups. *)
Lemma select_files_from_groups keep : forall items stdin chosen moved stdin',
  select_files keep items stdin = (Ok (chosen, moved), stdin') ->
  forall f, In f moved -> exists p files, In (p, files) items /\ In f files.
Proof.
  induction items as [|[program files] rest IH]; intros stdin chosen moved stdin' Hsel f Hf.
  - cbn in Hsel. injection Hsel as _ <- _. destruct Hf.
  - cbn [select_files] in Hsel.
    assert (Hskip : select_files keep rest stdin = (Ok (chosen, moved), stdin') ->
              exists p fs, In (p, fs) ((program, files) :: rest) /\ In f fs).
    { intros Hrest. destruct (IH _ _ _ _ Hrest f Hf) as (p & fs & Hin & Hfs).
      exists p, fs. split; [now right | assumption]. }
    destruct files as [|f0 files0]; [auto|].
    destruct (Py.str_in program keep); [auto|]. clear Hskip.
    destruct (read_levels_to_delete stdin) as [[levels|e] stdin1]; [|discriminate].
    destruct (select_files keep rest stdin1) as [[[chosen' moved']|e] stdin2] eqn:Hrest;
      [|discriminate].
    injection Hsel as _ <- _.
    change (if json_in (importance f0) levels then _ else _)
      with (files_at_levels levels (f0 :: files0)) in Hf.
    apply in_app_iff in Hf as [Hf | Hf].
    + apply in_files_at_levels in Hf as [Hf _].
      exists program, (f0 :: files0). split; [now left | assumption].
    + destruct (IH _ _ _ _ Hrest f Hf) as (p & fs & Hin & Hfs).
      exists p, fs. split; [now right | assumption].
Qed.

Lemma display_and_filter_files_from_groups groups stdin moving stdin' :
  display_and_filter_files groups stdin = (Ok moving, stdin') ->
  forall f, In f moving -> exists p files, In (p, files) groups /\ In f files.
Proof.
  unfold display_and_filter_files, review_files. intros Hd f Hf.
  destruct groups as [|g groups]; [injection Hd as <- _; destruct Hf|].
  destruct (map fst (List.filter _ (g :: groups))) as [|v valid];
    [injection Hd as <- _; destruct Hf|].
  destruct (read_programs_to_keep (v :: valid) stdin) as [[keep|e] stdin1]; [|discriminate].
  destruct (select_files keep (g :: groups) stdin1) as [[[chosen moved]|e] stdin2] eqn:Hsel;
    [|discriminate].
  injection Hd as <- _. cbn [to_move] in Hf.
  exact (select_files_from_groups keep _ _ _ _ _ Hsel f Hf).
Qed.

Lemma review_files_nothing_to_review groups stdin :
  Forall (fun it => snd it = []) groups ->
  review_files groups stdin = (Ok empty_review, stdin).
Proof.
  intros Hall. unfold review_files. destruct groups as [|g groups]; [reflexivity|].
  assert (Hv : List.filter (fun it : string * list classified =>
                 match snd it with [] => false | _ => true end) (g :: groups) = []).
  { induction Hall as [|[p fs] l Hhd _ IH]; [reflexivity|].
    cbn [snd] in Hhd. subst fs. exact IH. }
  rewrite Hv. reflexivity.
Qed.

(** ** The prompts and the operator's answers *)

Lemma upper_L c : Py.upper_char c = "L"%char <-> Py.lower_char c = "l"%char.
Proof. destruct c as [[] [] [] [] [] [] [] []]; vm_compute; split; congruence. Qed.

Lemma upper_M c : Py.upper_char c = "M"%char <-> Py.lower_char c = "m"%char.
Proof. destruct c as [[] [] [] [] [] [] [] []]; vm_compute; split; congruence. Qed.

Lemma upper_H c : Py.upper_char c = "H"%char <-> Py.lower_char c = "h"%char.
Proof. destruct c as [[] [] [] [] [] [] [] []]; vm_compute; split; congruence. Qed.

(** [capitalize] gives the name of a tier exactly for its spellings in
    any letter case. *)
Lemma capitalize_tier w :
  (Py.capitalize w = "Low" <-> Py.lower w = "low") /\
  (Py.capitalize w = "Medium" <-> Py.lower w = "medium") /\
  (Py.capitalize w = "High" <-> Py.lower w = "high").
Proof.
  destruct w as [|c r]; [repeat split; discriminate|].
  cbn [Py.capitalize Py.lower].
  repeat split; intros [= Hc Hr]; f_equal; try exact Hr;
    first [ now apply upper_L | now apply upper_M | now apply upper_H ].
Qed.

(** The tiers the source keeps from the items of an answer are those the
    items name. *)
Lemma levels_named : forall words,
  List.filter (fun l => Py.str_in l TIERS) (map Py.capitalize words) = omap tier_named words.
Proof.
  induction words as [|w words IH]; [reflexivity|].
  cbn [map List.filter]. change (omap tier_named (w :: words))
    with (match tier_named w with Some t => t :: omap tier_named words
                                | None => omap tier_named words end).
  rewrite IH. destruct (capitalize_tier w) as (HL & HM & HH).
  unfold tier_named, Py.str_in, TIERS. cbn [existsb]. rewrite orb_false_r.
  destruct (String.eqb_spec (Py.lower w) "low") as [El|El].
  { apply HL in El. rewrite El. reflexivity. }
  destruct (String.eqb_spec (Py.capitalize w) "Low") as [Ec|_]; [apply HL in Ec; contradiction|].
  destruct (String.eqb_spec (Py.lower w) "medium") as [Em|Em].
  { apply HM in Em. rewrite Em. reflexivity. }
  destruct (String.eqb_spec (Py.capitalize w) "Medium") as [Ec|_];
    [apply HM in Ec; contradiction|].
  destruct (String.eqb_spec (Py.lower w) "high") as [Eh|Eh].
  { apply HH in Eh. rewrite Eh. reflexivity. }
  destruct (String.eqb_spec (Py.capitalize w) "High") as [Ec|_];
    [apply HH in Ec; contradiction|].
  reflexivity.
Qed.

(** The levels prompt returns the first answer among the lines, and
    raises [EOFError] when there is none. *)
Lemma read_levels_first_reply : forall lines,
  read_levels_to_delete lines =
    match first_reply tiers_reply lines with
    | Some (levels, rest) => (Ok levels, rest)
    | None => (Raise EOFError, [])
    end.
Proof.
  induction lines as [|line rest IH]; [reflexivity|].
  cbn [read_levels_to_delete first_reply]. unfold tiers_reply, items_of, said.
  destruct (String.eqb _ "none"); [reflexivity|].
  destruct (String.eqb _ "all"); [reflexivity|].
  rewrite <- levels_named, map_map.
  destruct (List.filter _ _); [exact IH | reflexivity].
Qed.

Lemma filter_ext_in_bool {A} (f g : A -> bool) (l : list A) :
  (forall x, In x l -> f x = g x) -> List.filter f l = List.filter g l.
Proof.
  induction l as [|x l IH]; intros H; [reflexivity|].
  cbn [List.filter]. rewrite (H x) by now left.
  rewrite IH; [reflexivity|]. intros y Hy. apply H. now right.
Qed.

Lemma filter_nil_iff {A} (f : A -> bool) (l : list A) :
  List.filter f l = [] <-> forall x, In x l -> f x = false.
Proof.
  induction l as [|x l IH]; cbn [List.filter]; [split; [intros _ ? [] | reflexivity]|].
  destruct (f x) eqn:E; split.
  - discriminate.
  - intros H. specialize (H x (or_introl eq_refl)). congruence.
  - intros Hn y [<- | Hy]; [exact E | now apply IH].
  - intros H. apply IH. intros y Hy. apply H. now right.
Qed.

(** The programs the source keeps for the items of an answer are the
    programs with records that the items name. *)
Lemma programs_named valid words :
  let named := List.filter (fun p => Py.str_in p (map Py.lower valid)) words in
  (named = [] <-> List.filter (fun vp => Py.str_in (Py.lower vp) words) valid = []) /\
  List.filter (fun vp => Py.str_in (Py.lower vp) named) valid =
    List.filter (fun vp => Py.str_in (Py.lower vp) words) valid.
Proof.
  intros named. split.
  - unfold named. rewrite !filter_nil_iff. split.
    + intros H vp Hvp. apply str_in_not_In. intros Hin.
      specialize (H _ Hin). apply str_in_not_In in H. apply H.
      apply in_map_iff. now exists vp.
    + intros H w Hw. apply str_in_not_In. intros Hin.
      apply in_map_iff in Hin as (vp & <- & Hvp).
      specialize (H _ Hvp). apply str_in_not_In in H. contradiction.
  - apply filter_ext_in_bool. intros vp Hvp.
    destruct (Py.str_in (Py.lower vp) words) eqn:E.
    + apply str_in_In. apply str_in_In in E. unfold named. apply filter_In.
      split; [exact E|]. apply str_in_In, in_map_iff. now exists vp.
    + apply str_in_not_In. apply str_in_not_In in E. intros Hin. apply E.
      unfold named in Hin. now apply filter_In in Hin as [Hin _].
Qed.

(** The keep prompt returns the first answer among the lines, and raises
    [EOFError] when there is none. *)
Lemma read_programs_first_reply valid : forall lines,
  read_programs_to_keep valid lines =
    match first_reply (keep_reply valid) lines with
    | Some (keep, rest) => (Ok keep, rest)
    | None => (Raise EOFError, [])
    end.
Proof.
  induction lines as [|line rest IH]; [reflexivity|].
  cbn [read_programs_to_keep first_reply]. unfold keep_reply, items_of, said.
  destruct (String.eqb _ "none"); [reflexivity|].
  destruct (String.eqb _ "all"); [reflexivity|].
  destruct (programs_named valid (map Py.strip (Py.split "," (Py.lower (Py.strip line)))))
    as [Hnil Heq].
  cbv zeta in Hnil, Heq.
  destruct (List.filter (fun p => Py.str_in p (map Py.lower valid)) _) as [|p0 ps] eqn:Ef.
  - rewrite (proj1 Hnil eq_refl). exact IH.
  - rewrite Heq.
    destruct (List.filter (fun vp => Py.str_in (Py.lower vp) _) valid) as [|v vs] eqn:Eg;
      [|reflexivity].
    discriminate (proj2 Hnil eq_refl).
Qed.

(** An answer to the levels prompt holds tiers only, and an answer to
    the keep prompt programs that have records only. *)
Lemma tier_named_tier w t : tier_named w = Some t -> In t TIERS.
Proof.
  unfold tier_named, TIERS.
  repeat (destruct (String.eqb _ _); [intros [= <-]; cbn; auto|]). discriminate.
Qed.

Lemma tiers_reply_tiers line levels :
  tiers_reply line = Some levels -> Forall (fun l => In l TIERS) levels.
Proof.
  unfold tiers_reply.
  destruct (String.eqb _ "none"); [intros [= <-]; constructor|].
  destruct (String.eqb _ "all");
    [intros [= <-]; apply List.Forall_forall; intros t Ht; exact Ht|].
  destruct (omap tier_named (items_of line)) as [|l ls] eqn:E; [discriminate|].
  intros [= <-]. rewrite <- E. apply List.Forall_forall. intros t Ht.
  apply list_elem_of_In, list_elem_of_omap in Ht as (w & _ & Hw).
  exact (tier_named_tier w t Hw).
Qed.

Lemma keep_reply_valid valid line keep :
  keep_reply valid line = Some keep -> forall p, In p keep -> In p valid.
Proof.
  unfold keep_reply.
  destruct (String.eqb _ "none"); [intros [= <-] p []|].
  destruct (String.eqb _ "all"); [now intros [= <-]|].
  destruct (List.filter _ valid) as [|v vs] eqn:E; [discriminate|].
  intros [= <-] p Hp. rewrite <- E in Hp. now apply filter_In in Hp as [Hp _].
Qed.

Lemma first_reply_consumes {A} (reply : string -> option A) : forall lines a rest,
  first_reply reply lines = Some (a, rest) ->
  exists skipped line,
    lines = skipped ++ line :: rest /\
    Forall (fun l => reply l = None) skipped /\ reply line = Some a.
Proof.
  induction lines as [|l lines IH]; intros a rest H; [discriminate|].
  cbn [first_reply] in H. destruct (reply l) as [a'|] eqn:E.
  - injection H as <- <-. exists [], l. split; [reflexivity|]. split; [constructor | exact E].
  - destruct (IH _ _ H) as (skipped & line & -> & Hs & Hl).
    exists (l :: skipped), line. split; [reflexivity|]. split; [now constructor | exact Hl].
Qed.

(** ** The planner of the specification and the selection loop *)

Lemma selection_set_cons it groups keep tiers :
  selection_set (it :: groups) keep tiers =
    (if Py.str_in (fst it) keep then []
     else List.filter (fun f => json_in (importance f) (tiers (fst it))) (snd it))
    ++ selection_set groups keep tiers.
Proof. reflexivity. Qed.

Lemma selection_set_ext groups keep tiers tiers' :
  (forall p, In p (map fst groups) -> tiers p = tiers' p) ->
  selection_set groups keep tiers = selection_set groups keep tiers'.
Proof.
  induction groups as [|it groups IH]; intros H; [reflexivity|].
  rewrite !selection_set_cons. rewrite (H (fst it)) by now left.
  rewrite IH; [reflexivity|]. intros p Hp. apply H. now right.
Qed.

Lemma in_selection_set groups keep tiers f :
  In f (selection_set groups keep tiers) <->
  exists program files, In (program, files) groups /\ In f files /\
    ~ In program keep /\ json_in (importance f) (tiers program) = true.
Proof.
  unfold selection_set. rewrite in_flat_map. split.
  - intros ([program files] & Hin & Hf). cbn [fst snd] in Hf.
    destruct (Py.str_in program keep) eqn:Hk; [destruct Hf|].
    apply filter_In in Hf as [Hf Ht]. apply str_in_not_In in Hk.
    exists program, files. auto.
  - intros (program & files & Hin & Hf & Hk & Ht).
    exists (program, files). split; [exact Hin|]. cbn [fst snd].
    apply str_in_not_In in Hk. rewrite Hk. apply filter_In. auto.
Qed.

Lemma selection_set_nothing groups keep tiers :
  Forall (fun it => snd it = []) groups -> selection_set groups keep tiers = [].
Proof.
  induction 1 as [|[p fs] groups Hp _ IH]; [reflexivity|].
  rewrite selection_set_cons, IH. cbn [fst snd] in *. subst fs.
  now destruct (Py.str_in p keep).
Qed.

Lemma selection_set_no_tiers groups keep :
  selection_set groups keep (fun _ => []) = [].
Proof.
  induction groups as [|[p fs] groups IH]; [reflexivity|].
  rewrite selection_set_cons, IH, app_nil_r. cbn [fst snd].
  destruct (Py.str_in p keep); [reflexivity|].
  apply filter_nil_iff. reflexivity.
Qed.

Lemma programs_with_files_cons p files groups :
  programs_with_files ((p, files) :: groups) =
    match files with
    | [] => programs_with_files groups
    | _ => p :: programs_with_files groups
    end.
Proof. unfold programs_with_files. cbn [List.filter snd]. now destruct files. Qed.

Lemma no_programs_no_files groups :
  programs_with_files groups = [] -> Forall (fun it => snd it = []) groups.
Proof.
  induction groups as [|[p fs] groups IH]; [constructor|].
  rewrite programs_with_files_cons. destruct fs; [|discriminate].
  intros H. constructor; [reflexivity | now apply IH].
Qed.

Lemma tiers_of_head p levels chosen : tiers_of ((p, levels) :: chosen) p = levels.
Proof. unfold tiers_of. cbn [find fst snd]. now rewrite String.eqb_refl. Qed.

Lemma tiers_of_other p q levels chosen :
  p <> q -> tiers_of ((p, levels) :: chosen) q = tiers_of chosen q.
Proof.
  intros Hne. unfold tiers_of. cbn [find fst].
  destruct (String.eqb_spec p q) as [E|_]; [contradiction | reflexivity].
Qed.

(** The selection loop asks, in turn, about every program that has
    records and is not kept, and selects what the planner of the
    specification selects for the tiers answered. *)
Lemma select_files_plan keep : forall items lines,
  NoDup (map fst items) ->
  select_files keep items lines =
    match tier_replies (asked items keep) lines with
    | Some (chosen, rest) =>
        (Ok (chosen, selection_set items keep (tiers_of chosen)), rest)
    | None => (Raise EOFError, [])
    end.
Proof.
  induction items as [|[p files] items IH]; intros lines Hnd; [reflexivity|].
  cbn [map fst] in Hnd. apply NoDup_cons in Hnd as [Hfresh Hnd].
  rewrite list_elem_of_In in Hfresh.
  unfold asked in *. rewrite programs_with_files_cons. cbn [select_files].
  destruct files as [|f0 files0].
  { rewrite (IH lines Hnd). destruct (tier_replies _ lines) as [[chosen rest]|];
      [|reflexivity].
    rewrite selection_set_cons. cbn [fst snd]. now destruct (Py.str_in p keep). }
  cbn [List.filter]. destruct (Py.str_in p keep) eqn:Hk; cbn [negb].
  { rewrite (IH lines Hnd). destruct (tier_replies _ lines) as [[chosen rest]|];
      [|reflexivity].
    rewrite selection_set_cons. cbn [fst snd]. now rewrite Hk. }
  cbn [tier_replies]. rewrite read_levels_first_reply.
  destruct (first_reply tiers_reply lines) as [[levels rest1]|]; [|reflexivity].
  rewrite (IH rest1 Hnd).
  destruct (tier_replies _ rest1) as [[chosen rest]|]; [|reflexivity].
  rewrite selection_set_cons. cbn [fst snd]. rewrite Hk, tiers_of_head.
  rewrite (selection_set_ext items keep (tiers_of ((p, levels) :: chosen)) (tiers_of chosen));
    [reflexivity|].
  intros q Hq. apply tiers_of_other. now intros <-.
Qed.

Lemma tier_replies_programs : forall programs lines chosen rest,
  tier_replies programs lines = Some (chosen, rest) ->
  map fst chosen = programs /\
  Forall (fun ch => Forall (fun l => In l TIERS) (snd ch)) chosen.
Proof.
  induction programs as [|p programs IH]; intros lines chosen rest H; cbn [tier_replies] in H.
  - injection H as <- _. split; [reflexivity | constructor].
  - destruct (first_reply tiers_reply lines) as [[levels rest1]|] eqn:E; [|discriminate].
    destruct (tier_replies programs rest1) as [[chosen' rest']|] eqn:E'; [|discriminate].
    injection H as <- _. destruct (IH _ _ _ E') as [Hm Hf].
    split; [cbn; now rewrite Hm|]. constructor; [|exact Hf]. cbn [snd].
    apply first_reply_consumes in E as (_ & line & _ & _ & Hl).
    exact (tiers_reply_tiers line levels Hl).
Qed.

(** The review selects what the planner of the specification selects
    from the operator's choices. *)
Lemma display_and_filter_files_plan groups lines :
  NoDup (map fst groups) ->
  display_and_filter_files groups lines =
    match operator_choices groups lines with
    | Some (keep, chosen, rest) =>
        (Ok (selection_set groups keep (tiers_of chosen)), rest)
    | None => (Raise EOFError, [])
    end.
Proof.
  intros Hnd. unfold display_and_filter_files, review_files, operator_choices.
  destruct groups as [|g groups]; [reflexivity|].
  fold (programs_with_files (g :: groups)).
  destruct (programs_with_files (g :: groups)) as [|v valid] eqn:Ev.
  { cbn [to_move]. now rewrite (selection_set_nothing _ _ _ (no_programs_no_files _ Ev)). }
  rewrite read_programs_first_reply.
  destruct (first_reply (keep_reply (v :: valid)) lines) as [[keep rest1]|]; [|reflexivity].
  rewrite (select_files_plan keep (g :: groups) rest1 Hnd).
  destruct (tier_replies _ rest1) as [[chosen rest]|]; reflexivity.
Qed.

(** C6. The review selects what the Selection Planner of the
    specification selects from the operator's choices: the keep set is
    the operator's first answer to the keep prompt, every program that
    has records and is not kept gets the set of tiers of the operator's
    answer to its prompt, and a record is selected exactly when the
    program it is grouped under is not in the keep set and its
    importance tier is in the set chosen for that program; a kept
    program contributes nothing; and with no program holding a record,
    or with no tier chosen for any program, the selection is empty and
    no error is raised. The groups are the items of a dict, so their
    names are distinct. *)
Theorem C6_selection_planner (groups : program_groups) (stdin : list string) :
  NoDup (map fst groups) ->
  display_and_filter_files groups stdin =
    match operator_choices groups stdin with
    | Some (keep, chosen, rest) =>
        (Ok (selection_set groups keep (tiers_of chosen)), rest)
    | None => (Raise EOFError, [])
    end /\
  (forall keep chosen rest,
     operator_choices groups stdin = Some (keep, chosen, rest) ->
     (forall p, In p keep -> In p (programs_with_files groups)) /\
     map fst chosen = asked groups keep /\
     (forall p, In p (map fst chosen) <-> In p (programs_with_files groups) /\ ~ In p keep) /\
     Forall (fun ch => Forall (fun l => In l TIERS) (snd ch)) chosen) /\
  (forall keep tiers f,
     In f (selection_set groups keep tiers) <->
     exists program files, In (program, files) groups /\ In f files /\
       ~ In program keep /\ json_in (importance f) (tiers program) = true) /\
  (forall keep tiers program files,
     In program keep -> selection_set [(program, files)] keep tiers = []) /\
  (Forall (fun it => snd it = []) groups ->
     display_and_filter_files groups stdin = (Ok [], stdin)) /\
  (forall keep, selection_set groups keep (fun _ => []) = []) /\
  (forall keep tiers, selection_set [] keep tiers = []).
Proof.
  intros Hnd.
  split; [now apply display_and_filter_files_plan|].
  split; [|split; [|split; [|split; [|split]]]].
  - intros keep chosen rest Hop. unfold operator_choices in Hop.
    destruct (programs_with_files groups) as [|v valid] eqn:Ev.
    { injection Hop as <- <- _. unfold asked. rewrite Ev.
      split; [intros p []|]. split; [reflexivity|]. split; [|constructor].
      intros p. split; [intros [] | intros [[] _]]. }
    destruct (first_reply (keep_reply (v :: valid)) stdin) as [[keep' rest1]|] eqn:Ek;
      [|discriminate].
    destruct (tier_replies (asked groups keep') rest1) as [[chosen' rest']|] eqn:Et;
      [|discriminate].
    injection Hop as <- <- _.
    apply first_reply_consumes in Ek as (_ & line & _ & _ & Hl).
    destruct (tier_replies_programs _ _ _ _ Et) as [Hm Hf].
    split; [exact (keep_reply_valid _ _ _ Hl)|]. split; [exact Hm|]. split; [|exact Hf].
    intros p. rewrite Hm. unfold asked. rewrite filter_In, Ev, negb_true_iff.
    now rewrite str_in_not_In.
  - intros keep tiers f. apply in_selection_set.
  - intros keep tiers program files Hk. unfold selection_set. cbn [flat_map fst].
    apply str_in_In in Hk. now rewrite Hk.
  - intros Hall. unfold display_and_filter_files.
    now rewrite (review_files_nothing_to_review groups stdin Hall).
  - intros keep. apply selection_set_no_tiers.
  - reflexivity.
Qed.

(** ** Reasoning about the main thread *)

Section Logic.

Context {World : Type}.
Variable R : @state World -> @state World -> Prop.
Hypothesis R_refl : forall s, R s s.
Hypothesis R_trans : forall s1 s2 s3, R s1 s2 -> R s2 s3 -> R s1 s3.
Hypothesis R_log : forall s lvl line, R s (wrote s [Logged lvl line]).
Hypothesis R_read : forall s rest, R s (read_to s rest).

Lemma post_ret {A} (a : A) (Q : A -> Prop) : Q a -> post (ret a) R Q.
Proof. intros HQ s r s' [= <- <-]. split; [apply R_refl | now intros ? [= <-]]. Qed.

Lemma post_raise {A} (e : exn) (Q : A -> Prop) : post (raise e) R Q.
Proof. intros s r s' [= <- <-]. split; [apply R_refl | discriminate]. Qed.

Lemma post_lift {A} (r0 : py_result A) (Q : A -> Prop) :
  (forall a, r0 = Ok a -> Q a) -> post (lift r0) R Q.
Proof. intros HQ s r s' [= <- <-]. split; [apply R_refl | exact HQ]. Qed.

Lemma post_bind {A B} (m : M A) (k : A -> M B) (Q : A -> Prop) (Q' : B -> Prop) :
  post m R Q -> (forall a, Q a -> post (k a) R Q') -> post (bind m k) R Q'.
Proof.
  intros Hm Hk s r s' Hrun. unfold bind in Hrun.
  destruct (m s) as [[a|e] s1] eqn:Em.
  - destruct (Hm _ _ _ Em) as [HR HQ]. destruct (Hk a (HQ a eq_refl) _ _ _ Hrun) as [HR' HQ'].
    split; [now apply R_trans with s1 | exact HQ'].
  - injection Hrun as <- <-. destruct (Hm _ _ _ Em) as [HR _]. split; [exact HR | discriminate].
Qed.

Lemma post_weaken {A} (m : M A) (Q Q' : A -> Prop) :
  post m R Q -> (forall a, Q a -> Q' a) -> post m R Q'.
Proof.
  intros Hm Hw s r s' Hrun. destruct (Hm _ _ _ Hrun) as [HR HQ]. split; [exact HR|].
  intros a Ha. apply Hw, HQ, Ha.
Qed.

Lemma post_log lvl line : post (log lvl line) R (fun _ => True).
Proof. intros s r s' [= <- <-]. split; [apply R_log | auto]. Qed.

Lemma post_input : post input R (fun _ => True).
Proof.
  intros s r s' Hrun. unfold input in Hrun. destruct (stdin s) as [|line rest].
  - injection Hrun as <- <-. split; [apply R_refl | auto].
  - injection Hrun as <- <-. split; [apply (R_read s rest) | auto].
Qed.

Lemma post_reading {A} (f : list string -> py_result A * list string) (Q : A -> Prop) :
  (forall lines a rest, f lines = (Ok a, rest) -> Q a) -> post (reading f) R Q.
Proof.
  intros Hf s r s' Hrun. unfold reading in Hrun.
  destruct (f (stdin s)) as [r0 rest] eqn:Ef. injection Hrun as <- <-.
  split; [apply (R_read s rest)|]. intros a ->. exact (Hf _ _ _ Ef).
Qed.

(** The aggregation loop with its progress lines computes what the bare
    loop computes on the pairs delivered, and returns only when no
    future raised. *)
Lemma collect_all_post total : forall results st,
  post (collect_all total results st) R
       (fun agg => collect_list (delivered results) st = Ok agg /\
                   first_failure results = None).
Proof.
  induction results as [|[res|e] rest IH]; intros st;
    cbn [collect_all collect_list delivered first_failure].
  - now apply post_ret.
  - apply post_bind with (Q := fun res' => res' = res); [now apply post_lift; intros ? [= <-]|].
    intros ? ->.
    apply post_bind with (Q := fun st' => collect st res = Ok st').
    + now apply post_lift.
    + intros st' ->. apply post_bind with (Q := fun _ => True); [|intros _ _; apply IH].
      destruct (Nat.eqb _ _); [apply post_log | now apply post_ret].
  - apply post_bind with (Q := fun _ => False); [|intros ? []].
    apply post_lift. discriminate.
Qed.

Lemma collect_all_total total : forall results st agg (s : @state World),
  collect_list (delivered results) st = Ok agg ->
  exists s',
    collect_all total results st s =
      (match first_failure results with Some e => Raise e | None => Ok agg end, s').
Proof.
  induction results as [|[res|e] rest IH]; intros st agg s Hc;
    cbn [collect_all collect_list delivered first_failure] in *.
  - injection Hc as <-. eexists. reflexivity.
  - destruct (collect st res) as [st'|e] eqn:E; [|discriminate].
    unfold bind at 1. unfold lift at 1. unfold bind at 1. unfold lift at 1. rewrite E.
    unfold bind at 1.
    destruct (Nat.eqb _ _); cbn; apply IH; exact Hc.
  - eexists. reflexivity.
Qed.

End Logic.

(** ** What the aggregation loop makes of the pool's results *)

Lemma retained_not_failed oracle m :
  retained (m, classification_of oracle) = true -> invocation_fails oracle = false.
Proof.
  intros Hr. destruct (invocation_fails oracle) eqn:Hf; [|reflexivity].
  destruct (failed_invocation_fail_safe oracle Hf) as [why Hw].
  rewrite Hw in Hr. discriminate.
Qed.

Lemma aggregate_of_pool n setup oracle order files :
  let results := delivered (pool_results n setup oracle order files) in
  exists agg,
    collect_list results initial_aggregate = Ok agg /\
    to_delete agg = map attach (List.filter retained results) /\
    program_files agg =
      three_groups (members_for "Android Studio" results)
                   (members_for "Transporter" results)
                   (members_for "Others" results) /\
    processed agg = length results.
Proof.
  intros results.
  destruct (collect_list_spec results initial_aggregate [] [] []
              (pool_results_well_keyed n setup oracle order files) eq_refl)
    as (agg & Hc & Hd & Hg & Hp).
  exists agg. auto.
Qed.

Lemma members_accepted n setup oracle order files program x :
  In x (members_for program (delivered (pool_results n setup oracle order files))) ->
  accepted_record oracle files x.
Proof.
  intros Hin. apply in_members_for in Hin as (res & Hres & Hr & _ & ->).
  apply in_pool_results in Hres as (i & m & Hi & ->).
  exists i, m. repeat split; try assumption. exact (retained_not_failed _ _ Hr).
Qed.

Lemma in_three_groups a t o p files :
  In (p, files) (three_groups a t o) -> files = a \/ files = t \/ files = o.
Proof. intros [[= _ <-] | [[= _ <-] | [[= _ <-] | []]]]; auto. Qed.

(** Whatever the operator answers, every record selected for relocation
    is an input record whose invocation did not fail. *)
Lemma selected_accepted n setup oracle order files agg stdin moving stdin' :
  collect_list (delivered (pool_results n setup oracle order files)) initial_aggregate
    = Ok agg ->
  display_and_filter_files (program_files agg) stdin = (Ok moving, stdin') ->
  Forall (accepted_record oracle files) moving.
Proof.
  intros Hagg Hd. apply List.Forall_forall. intros x Hx.
  destruct (display_and_filter_files_from_groups _ _ _ _ Hd x Hx) as (p & fs & Hin & Hfs).
  destruct (aggregate_of_pool n setup oracle order files) as (agg' & Hagg' & _ & Hg & _).
  cbv zeta in Hagg'. rewrite Hagg in Hagg'. injection Hagg' as <-.
  rewrite Hg in Hin. apply in_three_groups in Hin as [-> | [-> | ->]];
    eapply members_accepted; eassumption.
Qed.

Section LogicOfCleanup.

Context {World : Type}.
Variable perform : syscall -> World -> option string * World.
Variables (DRY_RUN : bool) (HOME cwd : string).
Variable R : @state World -> @state World -> Prop.
Hypothesis R_refl : forall s, R s s.
Hypothesis R_trans : forall s1 s2 s3, R s1 s2 -> R s2 s3 -> R s1 s3.
Hypothesis R_log : forall s lvl line, R s (wrote s [Logged lvl line]).
Hypothesis R_read : forall s rest, R s (read_to s rest).

(** [cleanup_files] keeps every relation that its log lines, its reading
    of the operator's answers and the relocation of accepted records
    keep. *)
Lemma cleanup_files_post setup oracle order files :
  (forall moving, Forall (accepted_record oracle files) moving ->
     post (relocate perform DRY_RUN HOME cwd moving) R (fun _ => True)) ->
  post (cleanup_files perform DRY_RUN HOME cwd setup oracle order files) R (fun _ => True).
Proof.
  intros Hrel. unfold cleanup_files.
  eapply post_bind; [assumption | apply post_log; assumption |]. intros _ _.
  eapply post_bind; [assumption | apply (collect_all_post R); assumption |].
  intros agg [Hagg _].
  eapply post_bind; [assumption | apply post_log; assumption |]. intros _ _.
  destruct (to_delete agg); [apply post_log; assumption|].
  apply post_bind with (Q := Forall (accepted_record oracle files)); [assumption | |].
  { apply post_reading; [assumption|].
    intros lines moving rest Hd. exact (selected_accepted _ _ _ _ _ _ _ _ _ Hagg Hd). }
  intros moving Hmoving. destruct moving as [|x moving]; [apply post_log; assumption|].
  eapply post_bind; [assumption | apply post_log; assumption |]. intros _ _.
  eapply post_bind; [assumption | apply post_input; assumption |]. intros confirm _.
  destruct (negb _); [apply post_log; assumption|].
  eapply post_bind; [assumption | apply Hrel; assumption |]. intros _ _.
  eapply post_bind; [assumption | apply post_log; assumption |]. intros _ _.
  destruct DRY_RUN; [apply post_log; assumption | now apply post_ret].
Qed.

End LogicOfCleanup.

(** ** Traces that only grow *)

Section Appends.

Context {World : Type}.
Variable P : event -> Prop.

Lemma appends_refl (s : @state World) : appends P s s.
Proof. exists []. split; [now rewrite app_nil_r | constructor]. Qed.

Lemma appends_trans (s1 s2 s3 : @state World) :
  appends P s1 s2 -> appends P s2 s3 -> appends P s1 s3.
Proof.
  intros (e1 & H1 & F1) (e2 & H2 & F2). exists (e1 ++ e2). split.
  - now rewrite H2, H1, app_assoc.
  - apply List.Forall_app. now split.
Qed.

Lemma appends_wrote (s : @state World) evs : Forall P evs -> appends P s (wrote s evs).
Proof. intros HP. exists evs. now split. Qed.

Lemma appends_read (s : @state World) rest : appends P s (read_to s rest).
Proof. exists []. split; [cbn; now rewrite app_nil_r | constructor]. Qed.

Lemma post_sys_appends (perform : syscall -> World -> option string * World) c :
  (forall err, P (Did c err)) ->
  post (sys perform c) (appends P) (fun _ => True).
Proof.
  intros HP s r s' Hrun. unfold sys in Hrun.
  destruct (perform c (world s)) as [err w]. injection Hrun as <- <-.
  split; [|auto]. exists [Did c err]. split; [reflexivity | repeat constructor; apply HP].
Qed.

End Appends.

Lemma only_logged_refl {World} (s : @state World) : only_logged s s.
Proof. split; [reflexivity | apply appends_refl]. Qed.

Lemma only_logged_trans {World} (s1 s2 s3 : @state World) :
  only_logged s1 s2 -> only_logged s2 s3 -> only_logged s1 s3.
Proof.
  intros [W1 A1] [W2 A2]. split; [congruence | eapply appends_trans; eassumption].
Qed.

Lemma only_logged_log {World} (s : @state World) lvl line :
  only_logged s (wrote s [Logged lvl line]).
Proof. split; [reflexivity | apply appends_wrote; repeat constructor]. Qed.

Lemma only_logged_read {World} (s : @state World) rest : only_logged s (read_to s rest).
Proof. split; [reflexivity | apply appends_read]. Qed.

(** ** Groups of a run *)

Lemma group_members results program :
  In program (KNOWN_PROGRAMS ++ ["Others"]) ->
  group program (three_groups (members_for "Android Studio" results)
                              (members_for "Transporter" results)
                              (members_for "Others" results))
  = members_for program results.
Proof. intros [<- | [<- | [<- | []]]]; reflexivity. Qed.

Lemma group_unknown a t o program :
  ~ In program (KNOWN_PROGRAMS ++ ["Others"]) -> group program (three_groups a t o) = [].
Proof.
  intros Hn. unfold group, three_groups. cbn [find fst].
  destruct (String.eqb_spec "Android Studio" program) as [<-|_]; [destruct Hn; cbn; auto|].
  destruct (String.eqb_spec "Transporter" program) as [<-|_]; [destruct Hn; cbn; auto|].
  destruct (String.eqb_spec "Others" program) as [<-|_]; [destruct Hn; cbn; auto|].
  reflexivity.
Qed.

Lemma members_for_unknown results program :
  ~ In program (KNOWN_PROGRAMS ++ ["Others"]) -> members_for program results = [].
Proof.
  intros Hn. unfold members_for.
  induction results as [|res rest IH]; [reflexivity|]. cbn [List.filter].
  destruct (String.eqb_spec (get_program_name (path (fst res))) program) as [Heq|_].
  - exfalso. apply Hn. rewrite <- Heq.
    destruct (get_program_name_cases (path (fst res))) as [-> | [-> | ->]]; cbn; auto.
  - rewrite andb_false_r. exact IH.
Qed.

(** The group of any name after a run over the pool's results. *)
Lemma group_of_pool n setup oracle order files agg program :
  collect_list (delivered (pool_results n setup oracle order files)) initial_aggregate
    = Ok agg ->
  group program (program_files agg) =
    members_for program (delivered (pool_results n setup oracle order files)).
Proof.
  intros Hagg.
  destruct (aggregate_of_pool n setup oracle order files) as (agg' & Hagg' & _ & Hg & _).
  cbv zeta in Hagg'. rewrite Hagg in Hagg'. injection Hagg' as <-. rewrite Hg.
  destruct (in_dec String.string_dec program (KNOWN_PROGRAMS ++ ["Others"])) as [Hin | Hn].
  - now apply group_members.
  - now rewrite group_unknown, members_for_unknown.
Qed.

(** ** The order in which the futures finish *)

Lemma finish_order_Permutation picks : forall running,
  Permutation (finish_order picks running) running.
Proof.
  induction picks as [|k picks IH]; intros running; cbn [finish_order]; [reflexivity|].
  destruct running as [|r0 rs]; [reflexivity|].
  destruct ((r0 :: rs) !! (k mod length (r0 :: rs))) as [i|] eqn:Hi; [|reflexivity].
  rewrite IH. symmetry. now apply delete_Permutation.
Qed.

(** Every future finishes, once. *)
Lemma completion_order_Permutation picks n : Permutation (completion_order picks n) (seq 0 n).
Proof. apply finish_order_Permutation. Qed.

(** Every order in which each future finishes once is the order of some
    schedule. *)
Lemma finish_order_any : forall order running,
  Permutation order running -> exists picks, finish_order picks running = order.
Proof.
  induction order as [|x rest IH]; intros running Hp.
  - apply Permutation_nil in Hp. subst running. now exists [].
  - assert (Hin : x ∈ running) by (rewrite <- Hp; left).
    apply list_elem_of_lookup in Hin as [j Hj].
    pose proof (lookup_lt_Some _ _ _ Hj) as Hlt.
    destruct (IH (delete j running)) as [picks Hpicks].
    { apply (Permutation_cons_inv (a := x)). rewrite Hp. now apply delete_Permutation. }
    exists (j :: picks). cbn [finish_order].
    destruct running as [|r0 rs]; [cbn in Hlt; lia|].
    rewrite Nat.mod_small by exact Hlt. now rewrite Hj, Hpicks.
Qed.

Lemma as_completed_lookup {A} (order : list nat) (futures : list A) i x :
  In i order -> futures !! i = Some x -> In x (as_completed order futures).
Proof.
  intros Hin Hx. unfold as_completed. apply list_elem_of_In, list_elem_of_omap.
  exists i. split; [now apply list_elem_of_In | exact Hx].
Qed.

(** When every future finishes once, a call that raises ends the loop
    of the main thread before all pairs are received. *)
Lemma pool_failure n setup oracle order files i m e :
  Permutation order (seq 0 (length files)) ->
  files !! i = Some m -> setup i = Some e ->
  let futures := pool_results n setup oracle order files in
  (exists e', first_failure futures = Some e') /\
  length (delivered futures) < length files.
Proof.
  intros Hp Hm He futures.
  assert (Hlen : length futures = length files).
  { unfold futures. rewrite pool_results_lookups.
    assert (Hperm : Permutation (as_completed order (imap (result_of setup oracle) files))
                                (imap (result_of setup oracle) files)).
    { apply as_completed_Permutation. now rewrite length_imap. }
    rewrite (Permutation_length Hperm). apply length_imap. }
  assert (Hin : In (Raise e) futures).
  { unfold futures. rewrite pool_results_lookups.
    apply (as_completed_lookup order _ i).
    - apply (Permutation_in _ (Permutation_sym Hp)), in_seq.
      apply lookup_lt_Some in Hm. lia.
    - rewrite list_lookup_imap, Hm. cbn. unfold result_of. now rewrite He. }
  destruct (delivered_or_failed futures) as [[_ Heq] | (e' & rest & Hf & Heq)].
  - exfalso. rewrite Heq in Hin. apply in_map_iff in Hin as (x & Hx & _). discriminate.
  - split; [eauto|]. rewrite <- Hlen. rewrite Heq at 2.
    rewrite length_app, length_map. cbn [length]. lia.
Qed.



(** ** Attribution by substring *)

Lemma startswith_inv : forall p s,
  Py.startswith s p = true -> exists rest, s = p +:+ rest.
Proof.
  induction p as [|a p IH]; intros s H; [now exists s|].
  destruct s as [|b s]; [discriminate|]. cbn [Py.startswith] in H.
  apply andb_prop in H as [Hab Hs]. apply Ascii.eqb_eq in Hab as ->.
  destruct (IH s Hs) as [rest ->]. now exists rest.
Qed.

Lemma startswith_prefix (pre : string) : forall rest,
  Py.startswith (pre +:+ rest) pre = true.
Proof.
  induction pre as [|c pre IH]; intros rest; [reflexivity|].
  change (String c pre +:+ rest) with (String c (pre +:+ rest)). cbn [Py.startswith].
  now rewrite Ascii.eqb_refl, IH.
Qed.

(** The substring test finds exactly the strings that occur. *)
Lemma contains_spec sub : forall s,
  Py.contains sub s = true <-> exists before after, s = before +:+ sub +:+ after.
Proof.
  induction s as [|c s IH].
  - cbn [Py.contains]. rewrite orb_false_r. split.
    + intros H. apply startswith_inv in H as [rest ->]. now exists "", rest.
    + intros (before & after & H). destruct before as [|b before]; [|discriminate].
      change ("" +:+ sub +:+ after) with (sub +:+ after) in H. rewrite H.
      apply startswith_prefix.
  - cbn [Py.contains]. rewrite orb_true_iff, IH. split.
    + intros [H | (before & after & ->)].
      * apply startswith_inv in H as [rest ->]. now exists "", rest.
      * now exists (String c before), after.
    + intros (before & after & H). destruct before as [|b before].
      * left. change ("" +:+ sub +:+ after) with (sub +:+ after) in H. rewrite H.
        apply startswith_prefix.
      * right. change (String b before +:+ sub +:+ after)
          with (String b (before +:+ sub +:+ after)) in H.
        injection H as _ ->. now exists before, after.
Qed.

(** [get_program_name] attributes as the specification words it. *)
Lemma get_program_name_attributed p program :
  get_program_name p = program <-> attributed program p.
Proof.
  unfold get_program_name, KNOWN_PROGRAMS, attributed, appears_in. cbn [find].
  rewrite <- !contains_spec.
  destruct (Py.contains (Py.lower "Android Studio") (Py.lower p)) eqn:Ea;
    [|destruct (Py.contains (Py.lower "Transporter") (Py.lower p)) eqn:Et].
  all: split;
    [ intros <-; intuition discriminate
    | intros [[-> H] | [(-> & H1 & H2) | (-> & H1 & H2)]];
      first [ reflexivity | discriminate | now destruct H1 | now destruct H2 ] ].
Qed.

(** C5. For every batch, every two pool sizes of at least one worker
    and every two orders in which the invocations finish, the groups the
    aggregation loop builds have the same members: the group of a
    program holds exactly the input records whose classification passed
    the test of the loop ([not classification["important"]], which for a
    Boolean [important] is [important == false]) and whose path holds
    the name of that program, letter case ignored, Android Studio
    before Transporter, Others when it holds neither. When a call raises
    before its first request, the loop ends with an exception in both
    runs and builds no groups in either. The pool size only decides the
    thread numbers, so the bounds on it are not used by the proof. *)
Theorem C5_order_independence (setup : nat -> option exn)
  (oracle : nat -> nat -> api_outcome)
  (files : list metadata) (n1 n2 : nat) (picks1 picks2 : list nat)
  (World : Type) (s1 s2 : @state World) :
  1 <= n1 -> 1 <= n2 ->
  let order1 := completion_order picks1 (length files) in
  let order2 := completion_order picks2 (length files) in
  let run1 := collect_all (length files) (pool_results n1 setup oracle order1 files)
                initial_aggregate s1 in
  let run2 := collect_all (length files) (pool_results n2 setup oracle order2 files)
                initial_aggregate s2 in
  (all_ready setup files ->
     exists agg1 agg2,
       fst run1 = Ok agg1 /\ fst run2 = Ok agg2 /\
       map fst (program_files agg1) = KNOWN_PROGRAMS ++ ["Others"] /\
       map fst (program_files agg2) = KNOWN_PROGRAMS ++ ["Others"] /\
       (forall program,
          Permutation (group program (program_files agg1))
                      (group program (program_files agg2))) /\
       (forall program x,
          In x (group program (program_files agg1)) <->
          exists i m, files !! i = Some m /\
            retained (m, classification_of (oracle i)) = true /\
            attributed program (path m) /\
            x = attach (m, classification_of (oracle i)))) /\
  (~ all_ready setup files ->
     (exists e1, fst run1 = Raise e1) /\ (exists e2, fst run2 = Raise e2)) /\
  (forall m c b, c !! "important" = Some (JBool b) ->
     (retained (m, c) = true <-> b = false)).
Proof.
  intros _ _ order1 order2 run1 run2.
  pose proof (completion_order_Permutation picks1 (length files)) as Hp1.
  pose proof (completion_order_Permutation picks2 (length files)) as Hp2.
  fold order1 in Hp1. fold order2 in Hp2.
  destruct (aggregate_of_pool n1 setup oracle order1 files) as (agg1 & Hagg1 & _ & Hg1 & _).
  destruct (aggregate_of_pool n2 setup oracle order2 files) as (agg2 & Hagg2 & _ & Hg2 & _).
  cbv zeta in Hagg1, Hagg2, Hg1, Hg2.
  destruct (collect_all_total (length files) _ _ _ s1 Hagg1) as [s1' Hs1].
  destruct (collect_all_total (length files) _ _ _ s2 Hagg2) as [s2' Hs2].
  fold run1 in Hs1. fold run2 in Hs2.
  split; [|split].
  - intros Hready.
    pose proof (pool_results_ready n1 setup oracle order1 files Hready) as Heq1.
    pose proof (pool_results_ready n2 setup oracle order2 files Hready) as Heq2.
    rewrite Heq1, first_failure_ok in Hs1. rewrite Heq2, first_failure_ok in Hs2.
    exists agg1, agg2.
    split; [now rewrite Hs1|]. split; [now rewrite Hs2|].
    split; [now rewrite Hg1|]. split; [now rewrite Hg2|].
    pose proof (pool_results_Permutation n1 setup oracle order1 files Hready Hp1) as Hperm1.
    pose proof (pool_results_Permutation n2 setup oracle order2 files Hready Hp2) as Hperm2.
    split.
    + intros program.
      rewrite (group_of_pool _ _ _ _ _ _ program Hagg1),
              (group_of_pool _ _ _ _ _ _ program Hagg2).
      apply members_for_Permutation. now rewrite Hperm1, Hperm2.
    + intros program x. rewrite (group_of_pool _ _ _ _ _ _ program Hagg1), in_members_for.
      split.
      * intros (res & Hin & Hr & Hprog & ->).
        apply in_pool_results in Hin as (i & m & Hi & ->). exists i, m.
        cbn [fst] in Hprog. apply get_program_name_attributed in Hprog. auto.
      * intros (i & m & Hi & Hr & Hprog & ->).
        exists (m, classification_of (oracle i)). cbn [fst].
        apply get_program_name_attributed in Hprog. repeat split; try assumption.
        apply (Permutation_in _ (Permutation_sym Hperm1)).
        apply list_elem_of_In, list_elem_of_lookup. exists i.
        rewrite list_lookup_imap, Hi. reflexivity.
  - intros Hnot.
    assert (Hex : exists i m e, files !! i = Some m /\ setup i = Some e).
    { clear -Hnot. unfold all_ready in Hnot.
      assert (Hdec : forall k, (forall i, i < k -> setup i = None) \/
                               exists i, i < k /\ setup i <> None).
      { induction k as [|k [IH | (i & Hi & Hs)]].
        - left. intros i Hi. lia.
        - destruct (setup k) as [e|] eqn:Ek.
          + right. exists k. split; [lia | congruence].
          + left. intros i Hi. destruct (Nat.eq_dec i k) as [-> | Hne]; [exact Ek|].
            apply IH. lia.
        - right. exists i. split; [lia | exact Hs]. }
      destruct (Hdec (length files)) as [Hall | (i & Hi & Hs)]; [contradiction|].
      destruct (lookup_lt_is_Some_2 files i Hi) as [m Hm].
      destruct (setup i) as [e|] eqn:Ee; [|contradiction]. eauto. }
    destruct Hex as (i & m & e & Hm & He).
    destruct (pool_failure n1 setup oracle order1 files i m e Hp1 Hm He) as [[e1 Hf1] _].
    destruct (pool_failure n2 setup oracle order2 files i m e Hp2 Hm He) as [[e2 Hf2] _].
    rewrite Hf1 in Hs1. rewrite Hf2 in Hs2.
    split; [exists e1; now rewrite Hs1 | exists e2; now rewrite Hs2].
  - intros m c b. apply retained_boolean.
Qed.

(** ** Failed invocations and the relocation loop *)

Lemma collect_important m c st :
  c !! "important" = Some (JBool true) ->
  exists st', collect st (m, c) = Ok st' /\
    to_delete st' = to_delete st /\ program_files st' = program_files st /\
    processed st' = S (processed st).
Proof.
  intros Hi. unfold collect, getitem. rewrite Hi. cbn. eexists. split; [reflexivity|]. auto.
Qed.

Section Relocation.

Context {World : Type}.
Variable perform : syscall -> World -> option string * World.
Variables (HOME cwd : string).

(** The mover touches no other source than the path it is given. *)
Lemma move_to_backup_post dry (allowed : string -> Prop) file_path :
  allowed file_path ->
  post (move_to_backup perform dry HOME cwd file_path)
       (appends (moves_from allowed)) (fun _ => True).
Proof.
  intros Hal. unfold move_to_backup.
  pose proof (@appends_refl World (moves_from allowed)) as Hrefl.
  pose proof (@appends_trans World (moves_from allowed)) as Htrans.
  assert (Hlog : forall (s : @state World) lvl line,
            appends (moves_from allowed) s (wrote s [Logged lvl line])).
  { intros. apply appends_wrote. repeat constructor. }
  destruct (PosixPath.relpath cwd file_path _) as [rel|]; [|now apply post_raise].
  eapply post_bind; [assumption | apply post_sys_appends; intros; exact I |].
  intros [e|] _.
  - eapply post_bind; [assumption | now apply post_log |]. intros _ _. now apply post_ret.
  - eapply post_bind with (Q := fun _ => True); [assumption | |].
    + destruct dry; [now apply post_ret | apply post_sys_appends; intros; exact Hal].
    + intros [e|] _; (eapply post_bind; [assumption | now apply post_log |]);
        intros _ _; now apply post_ret.
Qed.

Lemma relocate_post dry (allowed : string -> Prop) : forall moving,
  Forall (fun md => allowed (path (file md))) moving ->
  post (relocate perform dry HOME cwd moving) (appends (moves_from allowed)) (fun _ => True).
Proof.
  pose proof (@appends_refl World (moves_from allowed)) as Hrefl.
  pose proof (@appends_trans World (moves_from allowed)) as Htrans.
  induction moving as [|md rest IH]; intros Hall; cbn [relocate].
  - now apply post_ret.
  - inversion Hall as [|? ? Hmd Hrest]; subst.
    eapply post_bind with (Q := fun _ => True); [assumption | | intros _ _; now apply IH].
    destruct dry.
    + apply post_log. intros. apply appends_wrote. repeat constructor.
    + eapply post_bind; [assumption | now apply move_to_backup_post |].
      intros _ _. now apply post_ret.
Qed.

Lemma wrote_wrote (s : @state World) evs evs' :
  wrote (wrote s evs) evs' = wrote s (evs ++ evs').
Proof. unfold wrote. cbn. now rewrite app_assoc. Qed.

(** In dry mode the relocation loop writes one line for each record and
    does nothing else. *)
Lemma relocate_dry : forall moving (s : @state World),
  relocate perform true HOME cwd moving s =
    (Ok tt, wrote s (map (fun md => Logged INFO (WouldMove (path (file md)))) moving)).
Proof.
  induction moving as [|md rest IH]; intros s.
  - cbn. unfold ret, wrote. rewrite app_nil_r. now destruct s.
  - cbn [relocate map]. unfold bind at 1. unfold log at 1.
    fold (wrote s [Logged INFO (WouldMove (path (file md)))]).
    rewrite IH, wrote_wrote. reflexivity.
Qed.

Lemma relocate_dry_post : forall moving,
  post (relocate perform true HOME cwd moving) only_logged (fun _ => True).
Proof.
  intros moving s r s' Hrun. rewrite relocate_dry in Hrun. injection Hrun as <- <-.
  split; [|auto]. split; [reflexivity|]. apply appends_wrote.
  apply List.Forall_forall. intros ev Hin. apply in_map_iff in Hin as (md & <- & _). exact I.
Qed.

End Relocation.

Lemma accepted_record_path oracle files x :
  accepted_record oracle files x -> accepted_path oracle files (path (file x)).
Proof. intros (i & m & Hi & Hf & _ & ->). exists i, m. auto. Qed.

(** C4. An invocation that errors or exhausts its retries yields a
    classification whose [important] is true; the aggregation loop
    retains nothing for such a classification; hence every member of the
    groups, and the source of every move of a run of [cleanup_files], is
    an input record whose invocation did not fail. The aggregate is that
    of the pairs the main thread receives: all of them, or those before
    the exception of a call that could not start. *)
Theorem C4_failed_records_never_relocated (World : Type)
  (perform : syscall -> World -> option string * World)
  (DRY_RUN : bool) (HOME cwd : string)
  (setup : nat -> option exn)
  (oracle : nat -> nat -> api_outcome) (order : list nat) (files : list metadata)
  (s : @state World) (r : py_result unit) (s' : @state World) :
  cleanup_files perform DRY_RUN HOME cwd setup oracle order files s = (r, s') ->
  (forall i m tid, files !! i = Some m -> invocation_fails (oracle i) = true ->
     exists evs c,
       classify_file_with_openai None (oracle i) m tid = Ok (evs, (m, c)) /\
       c !! "important" = Some (JBool true)) /\
  (forall st m c, c !! "important" = Some (JBool true) ->
     exists st', collect st (m, c) = Ok st' /\
       to_delete st' = to_delete st /\ program_files st' = program_files st) /\
  (forall st m c b st', c !! "important" = Some (JBool b) -> collect st (m, c) = Ok st' ->
     (b = false /\ to_delete st' = to_delete st ++ [attach (m, c)]) \/
     (b = true /\ to_delete st' = to_delete st /\ program_files st' = program_files st)) /\
  (exists agg,
     collect_list (delivered (pool_results NUM_THREADS setup oracle order files))
       initial_aggregate = Ok agg /\
     (forall x, In x (to_delete agg) -> accepted_record oracle files x) /\
     (forall program x, In x (group program (program_files agg)) ->
        accepted_record oracle files x)) /\
  (exists evs, trace s' = trace s ++ evs /\
     forall src dst err, In (Did (Move src dst) err) evs -> accepted_path oracle files src).
Proof.
  intros Hrun. split; [|split; [|split; [|split]]].
  - intros i m tid _ Hf.
    pose proof (classify_returns None (oracle i) m tid) as Hr.
    destruct (classify_file_with_openai None (oracle i) m tid) as [[evs res]|e]; [|discriminate].
    cbn [future_result] in Hr. injection Hr as ->. exists evs, (classification_of (oracle i)).
    split; [reflexivity|]. destruct (failed_invocation_fail_safe _ Hf) as [why ->]. reflexivity.
  - intros st m c Hi. destruct (collect_important m c st Hi) as (st' & H1 & H2 & H3 & _).
    eauto.
  - intros st m c b st'. apply collect_boolean.
  - destruct (aggregate_of_pool NUM_THREADS setup oracle order files)
      as (agg & Hagg & Hd & Hg & _).
    exists agg. split; [exact Hagg|]. split.
    + intros x Hx. rewrite Hd in Hx. apply in_map_iff in Hx as (res & <- & Hin).
      apply filter_In in Hin as [Hin Hr].
      apply in_pool_results in Hin as (i & m & Hi & ->).
      exists i, m. repeat split; try assumption. exact (retained_not_failed _ _ Hr).
    + intros program x Hx. rewrite (group_of_pool _ _ _ _ _ _ program Hagg) in Hx.
      exact (members_accepted _ _ _ _ _ _ _ Hx).
  - set (allowed := accepted_path oracle files).
    assert (Hpost : post (cleanup_files perform DRY_RUN HOME cwd setup oracle order files)
                      (appends (moves_from allowed)) (fun _ => True)).
    { apply cleanup_files_post;
        try solve [ apply appends_refl | apply appends_trans | apply appends_read
                  | intros; apply appends_wrote; repeat constructor ].
      intros moving Hm. apply relocate_post.
      eapply List.Forall_impl; [|exact Hm]. intros x. apply accepted_record_path. }
    destruct (Hpost _ _ _ Hrun) as [(evs & Htr & Hall) _].
    exists evs. split; [exact Htr|]. intros src dst err Hin.
    rewrite List.Forall_forall in Hall. exact (Hall _ Hin).
Qed.

(** ** Strings and path components *)

Lemma app_string_cons (x : ascii) (a b : string) : String x a +:+ b = String x (a +:+ b).
Proof. reflexivity. Qed.

Lemma app_string_assoc (a b c : string) : (a +:+ b) +:+ c = a +:+ (b +:+ c).
Proof.
  induction a as [|x a IH]; [reflexivity|]. rewrite !app_string_cons. now rewrite IH.
Qed.

Lemma app_string_nil_r (a : string) : a +:+ "" = a.
Proof. induction a as [|x a IH]; [reflexivity|]. rewrite app_string_cons. now rewrite IH. Qed.

Lemma is_part_inv c : is_part c = true -> c <> "" /\ has_sep c = false.
Proof.
  unfold is_part. intros H. apply andb_prop in H as [H1 H2].
  apply negb_true_iff in H1, H2. apply String.eqb_neq in H1. auto.
Qed.

Lemma is_clean_inv c :
  is_clean c = true -> is_part c = true /\ c <> "." /\ c <> "..".
Proof.
  unfold is_clean. intros H. apply andb_prop in H as [H H3]. apply andb_prop in H as [H1 H2].
  apply negb_true_iff in H2, H3. apply String.eqb_neq in H2, H3. auto.
Qed.

Lemma clean_parts comps : forallb is_clean comps = true -> forallb is_part comps = true.
Proof.
  rewrite !forallb_forall. intros H c Hc. now destruct (is_clean_inv c (H c Hc)).
Qed.

Lemma split_part_then (c rest : string) :
  has_sep c = false ->
  Py.split PosixPath.sep (c +:+ String "/" rest) = c :: Py.split PosixPath.sep rest.
Proof.
  induction c as [|a c IH]; intros Hc; [reflexivity|].
  cbn [has_sep] in Hc. apply orb_false_elim in Hc as [Ha Hc].
  rewrite app_string_cons. cbn [Py.split]. unfold PosixPath.is_sep in Ha. rewrite Ha, (IH Hc). reflexivity.
Qed.

Lemma split_part (c : string) : has_sep c = false -> Py.split PosixPath.sep c = [c].
Proof.
  induction c as [|a c IH]; intros Hc; [reflexivity|].
  cbn [has_sep] in Hc. apply orb_false_elim in Hc as [Ha Hc].
  cbn [Py.split]. unfold PosixPath.is_sep in Ha. rewrite Ha, (IH Hc). reflexivity.
Qed.

(** Splitting the joined parts gives the parts back. *)
Lemma split_join comps :
  comps <> [] -> forallb is_part comps = true ->
  Py.split PosixPath.sep (Py.join "/" comps) = comps.
Proof.
  induction comps as [|x rest IH]; intros Hne Hall; [contradiction|].
  cbn [forallb] in Hall. apply andb_prop in Hall as [Hx Hrest].
  destruct (is_part_inv x Hx) as [_ Hsep].
  destruct rest as [|y rest]; [now apply split_part|].
  change (Py.join "/" (x :: y :: rest)) with (x +:+ String "/" (Py.join "/" (y :: rest))).
  rewrite (split_part_then x _ Hsep), IH; [reflexivity | discriminate | assumption].
Qed.

Lemma join_app (a b : list string) :
  a <> [] -> b <> [] ->
  Py.join "/" (a ++ b) = Py.join "/" a +:+ "/" +:+ Py.join "/" b.
Proof.
  induction a as [|x a IH]; intros Ha Hb; [contradiction|].
  destruct a as [|y a].
  - destruct b as [|z b]; [contradiction|]. reflexivity.
  - change (Py.join "/" ((x :: y :: a) ++ b))
      with (x +:+ "/" +:+ Py.join "/" ((y :: a) ++ b)).
    rewrite IH by (assumption || discriminate).
    change (Py.join "/" (x :: y :: a)) with (x +:+ "/" +:+ Py.join "/" (y :: a)).
    now rewrite !app_string_assoc.
Qed.

(** The joined parts start with a character that is no slash. *)
Lemma join_head comps :
  comps <> [] -> forallb is_part comps = true ->
  exists c r, Py.join "/" comps = String c r /\ PosixPath.is_sep c = false.
Proof.
  destruct comps as [|x rest]; intros Hne Hall; [contradiction|].
  cbn [forallb] in Hall. apply andb_prop in Hall as [Hx _].
  destruct (is_part_inv x Hx) as [Hnx Hsep].
  destruct x as [|c x]; [contradiction|].
  cbn [has_sep] in Hsep. apply orb_false_elim in Hsep as [Hc _].
  destruct rest; eexists c, _; (split; [reflexivity | exact Hc]).
Qed.

Lemma join_not_absolute comps :
  comps <> [] -> forallb is_part comps = true ->
  Py.startswith (Py.join "/" comps) "/" = false.
Proof.
  intros Hne Hall. destruct (join_head comps Hne Hall) as (c & r & -> & Hc).
  unfold PosixPath.is_sep, PosixPath.sep in Hc. cbn [Py.startswith].
  rewrite (Ascii.eqb_sym "/" c), Hc. reflexivity.
Qed.

Lemma endswith_char_app (a b : string) c :
  b <> "" -> Py.endswith_char (a +:+ b) c = Py.endswith_char b c.
Proof.
  intros Hb. induction a as [|x a IH]; [reflexivity|].
  rewrite app_string_cons. cbn [Py.endswith_char]. rewrite IH.
  destruct (a +:+ b) eqn:E; [|reflexivity].
  destruct a; [cbn in E; contradiction | discriminate].
Qed.

Lemma endswith_part c : has_sep c = false -> Py.endswith_char c PosixPath.sep = false.
Proof.
  induction c as [|a c IH]; intros Hc; [reflexivity|].
  cbn [has_sep] in Hc. apply orb_false_elim in Hc as [Ha Hc].
  cbn [Py.endswith_char]. destruct c; [exact Ha | now apply IH].
Qed.

Lemma endswith_join comps :
  comps <> [] -> forallb is_part comps = true ->
  Py.endswith_char (Py.join "/" comps) PosixPath.sep = false.
Proof.
  induction comps as [|x rest IH]; intros Hne Hall; [contradiction|].
  cbn [forallb] in Hall. apply andb_prop in Hall as [Hx Hrest].
  destruct (is_part_inv x Hx) as [_ Hsep].
  destruct rest as [|y rest]; [now apply endswith_part|].
  change (Py.join "/" (x :: y :: rest)) with (x +:+ "/" +:+ Py.join "/" (y :: rest)).
  destruct (join_head (y :: rest) ltac:(discriminate) Hrest) as (c & r & E & _).
  rewrite !endswith_char_app; [apply IH; [discriminate | assumption] | | ];
    rewrite E; discriminate.
Qed.

Lemma endswith_absolute comps :
  comps <> [] -> forallb is_part comps = true ->
  Py.endswith_char (absolute comps) PosixPath.sep = false.
Proof.
  intros Hne Hall. unfold absolute.
  destruct (join_head comps Hne Hall) as (c & r & E & _).
  rewrite endswith_char_app by (rewrite E; discriminate). now apply endswith_join.
Qed.

Lemma rstrip_no_trailing_sep s :
  Py.endswith_char s PosixPath.sep = false -> Py.rstrip_by PosixPath.is_sep s = s.
Proof.
  induction s as [|c r IH]; intros Hs; [reflexivity|].
  cbn [Py.rstrip_by]. destruct r as [|c' r'].
  - cbn in *. unfold PosixPath.is_sep. now rewrite Hs.
  - cbn [Py.endswith_char] in Hs. rewrite (IH Hs). reflexivity.
Qed.

(** ** [normpath], [relpath] and [expanduser] on component lists *)

Lemma norm_step_clean n acc c : is_clean c = true -> PosixPath.norm_step n acc c = acc ++ [c].
Proof.
  intros Hc. destruct (is_clean_inv c Hc) as (Hp & Hdot & Hdots).
  destruct (is_part_inv c Hp) as [Hne _].
  unfold PosixPath.norm_step.
  apply String.eqb_neq in Hne, Hdot, Hdots. rewrite Hne, Hdot, Hdots. reflexivity.
Qed.

Lemma fold_norm_clean n : forall comps acc,
  forallb is_clean comps = true ->
  fold_left (PosixPath.norm_step n) comps acc = acc ++ comps.
Proof.
  induction comps as [|c comps IH]; intros acc Hall; [now rewrite app_nil_r|].
  cbn [forallb] in Hall. apply andb_prop in Hall as [Hc Hall].
  cbn [fold_left]. rewrite (norm_step_clean n acc c Hc), (IH _ Hall), <- app_assoc.
  reflexivity.
Qed.

Lemma norm_step_up acc :
  forallb is_clean acc = true ->
  PosixPath.norm_step 1 acc ".." = removelast acc.
Proof.
  intros Hall. unfold PosixPath.norm_step. cbn [String.eqb Ascii.eqb orb negb Nat.eqb andb].
  change (String.eqb ".." "") with false. change (String.eqb ".." ".") with false.
  change (String.eqb ".." "..") with true. cbn [orb negb andb].
  destruct (last acc) as [l|] eqn:El; [|reflexivity].
  apply last_Some in El as [acc' ->].
  rewrite forallb_app in Hall. apply andb_prop in Hall as [_ Hl].
  cbn [forallb] in Hl. rewrite andb_true_r in Hl.
  destruct (is_clean_inv l Hl) as (_ & _ & Hdots).
  apply String.eqb_neq in Hdots. now rewrite Hdots.
Qed.

Lemma forallb_take {A} (f : A -> bool) n l :
  forallb f l = true -> forallb f (take n l) = true.
Proof.
  rewrite !forallb_forall. intros H x Hx. apply H.
  apply list_elem_of_In. apply list_elem_of_In in Hx.
  exact (subseteq_take n l x Hx).
Qed.

Lemma forallb_drop {A} (f : A -> bool) n l :
  forallb f l = true -> forallb f (drop n l) = true.
Proof.
  rewrite !forallb_forall. intros H x Hx. apply H.
  apply list_elem_of_In. apply list_elem_of_In in Hx.
  exact (subseteq_drop n l x Hx).
Qed.

(** Each [".."] pops the last component collected so far. *)
Lemma fold_norm_ups : forall k acc,
  forallb is_clean acc = true ->
  fold_left (PosixPath.norm_step 1) (repeat ".." k) acc = take (length acc - k) acc.
Proof.
  induction k as [|k IH]; intros acc Hall.
  - cbn. now rewrite Nat.sub_0_r, firstn_all.
  - cbn [repeat fold_left]. rewrite (norm_step_up acc Hall), removelast_firstn_len.
    rewrite IH by now apply forallb_take.
    rewrite length_take, take_take. f_equal. lia.
Qed.

(** The normal form of an absolute path written with parts, the first
    of which is a plain component. *)
Lemma normpath_absolute comps :
  comps <> [] -> forallb is_part comps = true ->
  PosixPath.normpath (absolute comps) =
    absolute (fold_left (PosixPath.norm_step 1) comps []).
Proof.
  intros Hne Hall. unfold PosixPath.normpath, absolute.
  change ("/" +:+ Py.join "/" comps) with (String "/" (Py.join "/" comps)).
  cbv iota beta.
  change (Py.startswith (String "/" (Py.join "/" comps)) "/") with true.
  change (Py.startswith (String "/" (Py.join "/" comps)) "//")
    with (Py.startswith (Py.join "/" comps) "/").
  rewrite (join_not_absolute comps Hne Hall). cbn [andb].
  change (Py.split PosixPath.sep (String "/" (Py.join "/" comps)))
    with ("" :: Py.split PosixPath.sep (Py.join "/" comps)).
  rewrite (split_join comps Hne Hall). cbn [fold_left].
  change (PosixPath.norm_step 1 [] "") with (@nil string).
  reflexivity.
Qed.

Lemma normpath_clean comps :
  comps <> [] -> forallb is_clean comps = true ->
  PosixPath.normpath (absolute comps) = absolute comps.
Proof.
  intros Hne Hall. rewrite normpath_absolute by auto using clean_parts.
  now rewrite fold_norm_clean.
Qed.

Lemma components_absolute comps :
  comps <> [] -> forallb is_part comps = true ->
  PosixPath.components (absolute comps) = comps.
Proof.
  intros Hne Hall. unfold PosixPath.components, absolute.
  change ("/" +:+ Py.join "/" comps) with (String "/" (Py.join "/" comps)).
  change (Py.lstrip_by PosixPath.is_sep (String "/" (Py.join "/" comps)))
    with (Py.lstrip_by PosixPath.is_sep (Py.join "/" comps)).
  destruct (join_head comps Hne Hall) as (c & r & E & Hc).
  rewrite E. cbn [Py.lstrip_by]. rewrite Hc, <- E. now apply split_join.
Qed.

Lemma abspath_clean cwd comps :
  comps <> [] -> forallb is_clean comps = true ->
  PosixPath.abspath cwd (absolute comps) = absolute comps.
Proof. intros Hne Hall. unfold PosixPath.abspath. cbn [PosixPath.isabs]. now apply normpath_clean. Qed.

Lemma commonprefix_is_prefix : forall a b,
  exists ra rb, a = PosixPath.commonprefix a b ++ ra /\ b = PosixPath.commonprefix a b ++ rb.
Proof.
  induction a as [|x a IH]; intros b; [exists [], b; auto|].
  destruct b as [|y b]; [exists (x :: a), []; auto|].
  cbn [PosixPath.commonprefix]. destruct (String.eqb_spec x y) as [<-|Hne].
  - destruct (IH b) as (ra & rb & Ha & Hb). exists ra, rb. cbn [app]. split; congruence.
  - exists (x :: a), (y :: b). auto.
Qed.

Lemma commonprefix_length_le a b : length (PosixPath.commonprefix a b) <= length a.
Proof.
  destruct (commonprefix_is_prefix a b) as (ra & _ & Ha & _).
  rewrite Ha at 2. rewrite length_app. lia.
Qed.

Lemma commonprefix_full : forall a b,
  length (PosixPath.commonprefix a b) = length a <-> exists rest, b = a ++ rest.
Proof.
  induction a as [|x a IH]; intros b.
  - split; [exists b; reflexivity | reflexivity].
  - destruct b as [|y b].
    + split; [discriminate | intros [rest H]; discriminate].
    + cbn [PosixPath.commonprefix]. destruct (String.eqb_spec x y) as [<-|Hne].
      * cbn [length]. split.
        -- intros H. injection H as H. apply IH in H as [rest ->]. now exists rest.
        -- intros [rest H]. injection H as ->. f_equal. apply IH. now exists rest.
      * split; [discriminate | intros [rest H]; injection H as <- _; contradiction].
Qed.

Lemma commonprefix_take a b :
  PosixPath.commonprefix a b = take (length (PosixPath.commonprefix a b)) a.
Proof.
  destruct (commonprefix_is_prefix a b) as (ra & _ & Ha & _).
  rewrite Ha at 3. now rewrite take_app_length.
Qed.

Lemma commonprefix_take_r a b :
  PosixPath.commonprefix a b = take (length (PosixPath.commonprefix a b)) b.
Proof.
  destruct (commonprefix_is_prefix a b) as (_ & rb & _ & Hb).
  rewrite Hb at 3. now rewrite take_app_length.
Qed.

Lemma expanduser_home hs :
  hs <> [] -> forallb is_clean hs = true ->
  PosixPath.expanduser (absolute hs) "~" = absolute hs.
Proof.
  intros Hne Hall. unfold PosixPath.expanduser. cbn [String.eqb orb].
  rewrite rstrip_no_trailing_sep by auto using endswith_absolute, clean_parts.
  now rewrite app_string_nil_r.
Qed.

Lemma backup_dir_absolute hs :
  hs <> [] -> forallb is_clean hs = true ->
  BACKUP_DIR (absolute hs) = absolute (hs ++ [BACKUP_NAME]).
Proof.
  intros Hne Hall. unfold BACKUP_DIR, PosixPath.expanduser.
  change (String.eqb "/SystemDataCleanupBackup" "") with false.
  change (Py.startswith "/SystemDataCleanupBackup" "/") with true. cbn [orb].
  rewrite rstrip_no_trailing_sep by auto using endswith_absolute, clean_parts.
  unfold absolute. rewrite join_app by (assumption || discriminate).
  rewrite app_string_assoc. reflexivity.
Qed.

Lemma posix_join_relative a b :
  a <> "" -> Py.endswith_char a PosixPath.sep = false -> Py.startswith b "/" = false ->
  PosixPath.join a b = a +:+ "/" +:+ b.
Proof.
  intros Ha He Hb. unfold PosixPath.join. rewrite Hb, He. now destruct a.
Qed.

(** [relpath] between two absolute paths given by their components. *)
Lemma relpath_absolute cwd hs ps :
  hs <> [] -> forallb is_clean hs = true ->
  ps <> [] -> forallb is_clean ps = true ->
  PosixPath.relpath cwd (absolute ps) (absolute hs) =
    Some (match PosixPath.rel_list hs ps with
          | [] => "."
          | rl => Py.join "/" rl
          end).
Proof.
  intros Hh Hhc Hp Hpc. unfold PosixPath.relpath.
  change (absolute ps) with (String "/" (Py.join "/" ps)) at 1. cbv iota beta.
  rewrite !abspath_clean by assumption.
  rewrite !components_absolute by auto using clean_parts.
  now destruct (PosixPath.rel_list hs ps).
Qed.

Lemma rel_list_under hs rs : PosixPath.rel_list hs (hs ++ rs) = rs.
Proof.
  unfold PosixPath.rel_list.
  assert (Hlen : length (PosixPath.commonprefix hs (hs ++ rs)) = length hs).
  { apply commonprefix_full. now exists rs. }
  rewrite Hlen, Nat.sub_diag, drop_app_length. reflexivity.
Qed.

(** Below the home directory the destination is the backup root
    followed by the path relative to home. *)
Lemma destination_under_home cwd hs rs :
  hs <> [] -> forallb is_clean hs = true ->
  rs <> [] -> forallb is_clean rs = true ->
  PosixPath.relpath cwd (absolute (hs ++ rs)) (PosixPath.expanduser (absolute hs) "~")
    = Some (Py.join "/" rs) /\
  PosixPath.join (BACKUP_DIR (absolute hs)) (Py.join "/" rs)
    = BACKUP_DIR (absolute hs) +:+ "/" +:+ Py.join "/" rs.
Proof.
  intros Hh Hhc Hr Hrc. split.
  - rewrite expanduser_home by assumption.
    rewrite relpath_absolute; try assumption.
    + rewrite rel_list_under. now destruct rs.
    + destruct hs; [contradiction | discriminate].
    + rewrite forallb_app, Hhc, Hrc. reflexivity.
  - apply posix_join_relative.
    + rewrite backup_dir_absolute by assumption. discriminate.
    + rewrite backup_dir_absolute by assumption. apply endswith_absolute.
      * destruct hs; discriminate.
      * rewrite forallb_app, (clean_parts hs Hhc). reflexivity.
    + apply join_not_absolute; auto using clean_parts.
Qed.

(** ** The directory of a destination *)

Lemma contains_sep s : Py.contains "/" s = has_sep s.
Proof.
  induction s as [|c r IH]; [reflexivity|].
  cbn [Py.contains has_sep Py.startswith]. rewrite IH, andb_true_r.
  unfold PosixPath.is_sep, PosixPath.sep. now rewrite Ascii.eqb_sym.
Qed.

Lemma upto_last_sep_part name : has_sep name = false -> PosixPath.upto_last_sep name = "".
Proof.
  intros H. destruct name as [|c r]; [reflexivity|].
  cbn [PosixPath.upto_last_sep]. now rewrite contains_sep, H.
Qed.

Lemma has_sep_app a b : has_sep (a +:+ b) = has_sep a || has_sep b.
Proof.
  induction a as [|c a IH]; [reflexivity|].
  rewrite app_string_cons. cbn [has_sep]. now rewrite IH, orb_assoc.
Qed.

(** Up to its last slash, [d/name] is [d/]. *)
Lemma upto_last_sep_join d name :
  has_sep name = false -> PosixPath.upto_last_sep (d +:+ "/" +:+ name) = d +:+ "/".
Proof.
  intros Hname. induction d as [|c d IH].
  - change ("" +:+ "/" +:+ name) with (String "/" name).
    cbn [PosixPath.upto_last_sep]. rewrite contains_sep. cbn [has_sep].
    change (PosixPath.is_sep "/") with true. cbn [orb].
    now rewrite upto_last_sep_part.
  - assert (Hs : has_sep (d +:+ "/" +:+ name) = true).
    { rewrite has_sep_app. change (has_sep ("/" +:+ name)) with (true || has_sep name).
      apply orb_true_r. }
    change (String c d +:+ "/" +:+ name) with (String c (d +:+ "/" +:+ name)).
    change (String c d +:+ "/") with (String c (d +:+ "/")).
    cbn [PosixPath.upto_last_sep]. rewrite contains_sep. cbn [has_sep].
    now rewrite Hs, orb_true_r, IH.
Qed.

Lemma rstrip_trailing_sep d :
  d <> "" -> Py.endswith_char d PosixPath.sep = false ->
  Py.rstrip_by PosixPath.is_sep (d +:+ "/") = d.
Proof.
  induction d as [|c r IH]; intros Hne He; [contradiction|].
  rewrite app_string_cons. cbn [Py.rstrip_by]. destruct r as [|c' r'].
  - change ("" +:+ "/") with "/". cbn [Py.rstrip_by].
    change (PosixPath.is_sep "/") with true. cbv iota.
    cbn [Py.endswith_char] in He. unfold PosixPath.is_sep. now rewrite He.
  - rewrite IH; [reflexivity | discriminate | exact He].
Qed.

(** [dirname] of [d/name] is [d], for a last component [name] and a
    directory [d] that does not end in a slash. *)
Lemma dirname_join d name :
  d <> "" -> Py.endswith_char d PosixPath.sep = false -> has_sep name = false ->
  PosixPath.dirname (d +:+ "/" +:+ name) = d.
Proof.
  intros Hne He Hname. unfold PosixPath.dirname.
  rewrite (upto_last_sep_join d name Hname), (rstrip_trailing_sep d Hne He).
  destruct d; [contradiction | reflexivity].
Qed.

Lemma move_to_backup_run {World} (perform : syscall -> World -> option string * World)
  dry HOME cwd file_path rel (s : @state World) :
  PosixPath.relpath cwd file_path (PosixPath.expanduser HOME "~") = Some rel ->
  move_to_backup perform dry HOME cwd file_path s =
    move_to_backup_outcome perform dry HOME file_path rel s.
Proof.
  intros Hrel. unfold move_to_backup, move_to_backup_outcome. rewrite Hrel.
  unfold bind at 1. unfold sys at 1.
  destruct (perform (Makedirs _) (world s)) as [[e|] w1].
  - unfold bind, log, ret. cbn. now rewrite <- app_assoc.
  - destruct dry.
    + unfold bind, log, ret. cbn. now rewrite <- app_assoc.
    + unfold bind at 1. unfold sys at 1. cbn [world stdin trace].
      destruct (perform (Move _ _) w1) as [[e|] w2];
        unfold bind, log, ret; cbn; now rewrite <- !app_assoc.
Qed.

(** Were the mover called in dry mode, it would create the directory of
    the destination, skip the move and report the record as moved. *)
Lemma move_to_backup_in_dry_mode {World} (perform : syscall -> World -> option string * World)
  HOME cwd file_path rel (s : @state World) w1 :
  PosixPath.relpath cwd file_path (PosixPath.expanduser HOME "~") = Some rel ->
  let backup_path := PosixPath.join (BACKUP_DIR HOME) rel in
  perform (Makedirs (PosixPath.dirname backup_path)) (world s) = (None, w1) ->
  move_to_backup perform true HOME cwd file_path s =
    (Ok (Some backup_path),
     {| world := w1; stdin := stdin s;
        trace := trace s ++ [Did (Makedirs (PosixPath.dirname backup_path)) None;
                             Logged INFO (Moved file_path backup_path)] |}).
Proof.
  intros Hrel backup_path Hmk.
  rewrite (move_to_backup_run perform true HOME cwd file_path rel s Hrel).
  unfold move_to_backup_outcome. fold backup_path. now rewrite Hmk.
Qed.

(** C7. Whenever the Backup Mover moves a record, the destination is
    the backup root joined with the record's path relative to the home
    directory, and the directory the destination lies in (the
    destination without its last component) was created, with the
    directories leading to it, just before the move; a record at
    ~/Library/Caches/app/x.db (and any record below the home directory)
    goes to <backup root>/Library/Caches/app/x.db, after
    <backup root>/Library/Caches/app was created. *)
Theorem C7_backup_destination (World : Type)
  (perform : syscall -> World -> option string * World)
  (HOME cwd file_path rel : string) (s : @state World) :
  PosixPath.relpath cwd file_path (PosixPath.expanduser HOME "~") = Some rel ->
  let backup_path := PosixPath.join (BACKUP_DIR HOME) rel in
  let backup_dir := PosixPath.dirname backup_path in
  (forall r s', move_to_backup perform false HOME cwd file_path s = (r, s') ->
     exists evs, trace s' = trace s ++ evs /\
       forall src dst err, In (Did (Move src dst) err) evs ->
         src = file_path /\ dst = backup_path /\
         exists rest,
           evs = Did (Makedirs backup_dir) None :: Did (Move file_path backup_path) err :: rest) /\
  (forall w1 w2,
     perform (Makedirs backup_dir) (world s) = (None, w1) ->
     perform (Move file_path backup_path) w1 = (None, w2) ->
     move_to_backup perform false HOME cwd file_path s =
       (Ok (Some backup_path),
        {| world := w2; stdin := stdin s;
           trace := trace s ++ [Did (Makedirs backup_dir) None;
                                Did (Move file_path backup_path) None;
                                Logged INFO (Moved file_path backup_path)] |})) /\
  (forall hs rs,
     hs <> [] -> forallb is_clean hs = true ->
     rs <> [] -> forallb is_clean rs = true ->
     HOME = absolute hs -> file_path = absolute (hs ++ rs) ->
     backup_path = BACKUP_DIR HOME +:+ "/" +:+ Py.join "/" rs) /\
  (forall hs,
     hs <> [] -> forallb is_clean hs = true ->
     HOME = absolute hs -> file_path = HOME +:+ "/Library/Caches/app/x.db" ->
     backup_path = BACKUP_DIR HOME +:+ "/Library/Caches/app/x.db" /\
     backup_dir = BACKUP_DIR HOME +:+ "/Library/Caches/app") /\
  (forall d name,
     d <> "" -> Py.endswith_char d PosixPath.sep = false -> has_sep name = false ->
     backup_path = d +:+ "/" +:+ name ->
     backup_dir = d) /\
  (forall hs ds name,
     hs <> [] -> forallb is_clean hs = true ->
     forallb is_clean (ds ++ [name]) = true ->
     HOME = absolute hs -> file_path = absolute (hs ++ ds ++ [name]) ->
     backup_dir = absolute (hs ++ BACKUP_NAME :: ds) /\
     backup_path = backup_dir +:+ "/" +:+ name).
Proof.
  intros Hrel backup_path backup_dir.
  assert (Hdir : forall d name,
            d <> "" -> Py.endswith_char d PosixPath.sep = false -> has_sep name = false ->
            backup_path = d +:+ "/" +:+ name -> backup_dir = d).
  { intros d name Hd He Hn Hp. unfold backup_dir. rewrite Hp. now apply dirname_join. }
  assert (Hlaw : forall hs rs,
            hs <> [] -> forallb is_clean hs = true ->
            rs <> [] -> forallb is_clean rs = true ->
            HOME = absolute hs -> file_path = absolute (hs ++ rs) ->
            backup_path = BACKUP_DIR HOME +:+ "/" +:+ Py.join "/" rs).
  { intros hs rs Hh Hhc Hr Hrc -> ->.
    destruct (destination_under_home cwd hs rs Hh Hhc Hr Hrc) as [Hrp Hj].
    rewrite Hrp in Hrel. injection Hrel as <-. exact Hj. }
  assert (Hparent : forall hs ds name,
            hs <> [] -> forallb is_clean hs = true ->
            forallb is_clean (ds ++ [name]) = true ->
            HOME = absolute hs -> file_path = absolute (hs ++ ds ++ [name]) ->
            backup_dir = absolute (hs ++ BACKUP_NAME :: ds) /\
            backup_path = backup_dir +:+ "/" +:+ name).
  { intros hs ds name Hh Hhc Hc HH Hf.
    pose proof (Hlaw hs (ds ++ [name]) Hh Hhc ltac:(now destruct ds) Hc HH Hf) as Hp.
    rewrite forallb_app in Hc. apply andb_prop in Hc as [Hdc Hnc].
    cbn [forallb] in Hnc. rewrite andb_true_r in Hnc.
    assert (Hname : has_sep name = false).
    { apply is_clean_inv in Hnc as [Hpart _]. now apply is_part_inv in Hpart as [_ Hs]. }
    assert (Hbc : forallb is_clean (hs ++ BACKUP_NAME :: ds) = true).
    { rewrite forallb_app, Hhc. cbn [forallb andb]. now rewrite Hdc. }
    assert (Hq : backup_path = absolute (hs ++ BACKUP_NAME :: ds) +:+ "/" +:+ name).
    { rewrite Hp, HH, backup_dir_absolute by assumption. unfold absolute.
      destruct ds as [|d0 ds'].
      - cbn [app Py.join]. now rewrite !app_string_assoc.
      - rewrite (join_app (d0 :: ds') [name]) by discriminate.
        change (hs ++ BACKUP_NAME :: d0 :: ds') with (hs ++ [BACKUP_NAME] ++ d0 :: ds').
        rewrite app_assoc.
        rewrite (join_app (hs ++ [BACKUP_NAME]) (d0 :: ds'))
          by (try discriminate; destruct hs; discriminate).
        cbn [Py.join]. now rewrite !app_string_assoc. }
    assert (Hd : backup_dir = absolute (hs ++ BACKUP_NAME :: ds)).
    { apply (Hdir _ name); [discriminate | | exact Hname | exact Hq].
      apply endswith_absolute; [destruct hs; discriminate | now apply clean_parts]. }
    split; [exact Hd | now rewrite Hd]. }
  split; [|split; [|split; [exact Hlaw|split; [|split; [exact Hdir | exact Hparent]]]]].
  - intros r s' Hrun. rewrite (move_to_backup_run perform false HOME cwd file_path rel s Hrel) in Hrun.
    unfold move_to_backup_outcome in Hrun. fold backup_path backup_dir in Hrun.
    destruct (perform (Makedirs backup_dir) (world s)) as [[e|] w1].
    + injection Hrun as <- <-. eexists. split; [reflexivity|].
      intros src dst err [H | [H | []]]; discriminate.
    + destruct (perform (Move file_path backup_path) w1) as [[e|] w2];
        injection Hrun as <- <-; (eexists; split; [reflexivity|]);
        intros src dst err [H | [H | [H | []]]]; try discriminate;
        injection H as <- <- <-; eauto.
  - intros w1 w2 H1 H2.
    rewrite (move_to_backup_run perform false HOME cwd file_path rel s Hrel).
    unfold move_to_backup_outcome. fold backup_path backup_dir. now rewrite H1, H2.
  - intros hs Hh Hhc HH Hf.
    assert (Hfile : file_path = absolute (hs ++ ["Library"; "Caches"; "app"; "x.db"])).
    { rewrite Hf, HH. unfold absolute. rewrite join_app by (assumption || discriminate).
      now rewrite !app_string_assoc. }
    split.
    + exact (Hlaw hs ["Library"; "Caches"; "app"; "x.db"] Hh Hhc ltac:(discriminate)
               eq_refl HH Hfile).
    + destruct (Hparent hs ["Library"; "Caches"; "app"] "x.db" Hh Hhc eq_refl HH Hfile)
        as [Hd _].
      rewrite Hd, HH, backup_dir_absolute by assumption. unfold absolute.
      change (hs ++ BACKUP_NAME :: ["Library"; "Caches"; "app"])
        with (hs ++ [BACKUP_NAME] ++ ["Library"; "Caches"; "app"]).
      rewrite app_assoc.
      rewrite (join_app (hs ++ [BACKUP_NAME]) ["Library"; "Caches"; "app"])
        by (try discriminate; destruct hs; discriminate).
      cbn [Py.join]. now rewrite !app_string_assoc.
Qed.

(** ** Records outside the home directory *)

Lemma repeat_up_parts k : forallb is_part (repeat ".." k) = true.
Proof. induction k as [|k IH]; [reflexivity | exact IH]. Qed.

Lemma is_prefix_app a : forall b c, is_prefix (a ++ b) (a ++ c) = is_prefix b c.
Proof.
  induction a as [|x a IH]; intros b c; [reflexivity|].
  cbn [app is_prefix]. now rewrite String.eqb_refl, IH.
Qed.

Lemma is_prefix_spec : forall a b, is_prefix a b = true <-> exists rest, b = a ++ rest.
Proof.
  induction a as [|x a IH]; intros b.
  - split; [exists b; reflexivity | reflexivity].
  - destruct b as [|y b]; cbn [is_prefix].
    + split; [discriminate | intros [rest H]; discriminate].
    + rewrite andb_true_iff, String.eqb_eq, IH. split.
      * intros [-> [rest ->]]. now exists rest.
      * intros [rest H]. injection H as -> ->. split; [reflexivity | now exists rest].
Qed.

(** Outside the home directory: the relative path climbs once for each
    home component below the common ancestor, and the destination
    normalises to the common ancestor, the next home component and the
    rest of the record's path. *)
Lemma destination_outside_home cwd hs ps :
  hs <> [] -> forallb is_clean hs = true ->
  ps <> [] -> forallb is_clean ps = true ->
  ~ (exists rest, ps = hs ++ rest) ->
  let i := length (PosixPath.commonprefix hs ps) in
  let k := length hs - i in
  let rel := Py.join "/" (repeat ".." k ++ drop i ps) in
  1 <= k /\
  PosixPath.relpath cwd (absolute ps) (PosixPath.expanduser (absolute hs) "~") = Some rel /\
  Py.split PosixPath.sep rel = repeat ".." k ++ drop i ps /\
  PosixPath.join (BACKUP_DIR (absolute hs)) rel = BACKUP_DIR (absolute hs) +:+ "/" +:+ rel /\
  PosixPath.normpath (PosixPath.join (BACKUP_DIR (absolute hs)) rel)
    = absolute (take (S i) hs ++ drop i ps).
Proof.
  intros Hh Hhc Hp Hpc Hout i k rel.
  assert (Hi : i < length hs).
  { pose proof (commonprefix_length_le hs ps) as Hle.
    destruct (Nat.eq_dec i (length hs)) as [E|E]; [|unfold i in *; lia].
    exfalso. apply Hout. now apply commonprefix_full. }
  assert (Hk : 1 <= k) by (unfold k; lia).
  assert (Hdots : repeat ".." k ++ drop i ps <> []).
  { destruct k; [lia | discriminate]. }
  assert (Hparts : forallb is_part (repeat ".." k ++ drop i ps) = true).
  { rewrite forallb_app, repeat_up_parts. cbn [andb].
    apply clean_parts. now apply forallb_drop. }
  assert (Hjoin : PosixPath.join (BACKUP_DIR (absolute hs)) rel
                  = BACKUP_DIR (absolute hs) +:+ "/" +:+ rel).
  { apply posix_join_relative.
    - rewrite backup_dir_absolute by assumption. discriminate.
    - rewrite backup_dir_absolute by assumption. apply endswith_absolute.
      + destruct hs; discriminate.
      + rewrite forallb_app, (clean_parts hs Hhc). reflexivity.
    - now apply join_not_absolute. }
  split; [exact Hk|]. split; [|split; [|split; [exact Hjoin|]]].
  - rewrite expanduser_home by assumption.
    rewrite relpath_absolute by assumption.
    change (PosixPath.rel_list hs ps) with (repeat ".." k ++ drop i ps).
    now destruct (repeat ".." k ++ drop i ps).
  - now apply split_join.
  - rewrite Hjoin, backup_dir_absolute by assumption.
    assert (Hb : hs ++ [BACKUP_NAME] <> []) by (destruct hs; discriminate).
    unfold rel, absolute. rewrite app_string_assoc.
    change ("/" +:+ Py.join "/" (hs ++ [BACKUP_NAME]) +:+ "/" +:+ Py.join "/" (repeat ".." k ++ drop i ps))
      with ("/" +:+ (Py.join "/" (hs ++ [BACKUP_NAME]) +:+ "/" +:+ Py.join "/" (repeat ".." k ++ drop i ps))).
    rewrite <- join_app by assumption.
    change ("/" +:+ Py.join "/" ((hs ++ [BACKUP_NAME]) ++ repeat ".." k ++ drop i ps))
      with (absolute ((hs ++ [BACKUP_NAME]) ++ repeat ".." k ++ drop i ps)).
    rewrite normpath_absolute.
    + rewrite fold_left_app, (fold_left_app _ (repeat ".." k)).
      rewrite (fold_norm_clean 1 (hs ++ [BACKUP_NAME]) [])
        by (rewrite forallb_app, Hhc; reflexivity).
      cbn [app]. rewrite fold_norm_ups by (rewrite forallb_app, Hhc; reflexivity).
      rewrite fold_norm_clean by now apply forallb_drop.
      rewrite length_app. cbn [length].
      replace (length hs + 1 - k) with (S i) by (unfold k; lia).
      rewrite take_app_le by lia. reflexivity.
    + destruct hs; discriminate.
    + rewrite forallb_app, Hparts, forallb_app, (clean_parts hs Hhc). reflexivity.
Qed.

Lemma resolves_inside_absolute root p :
  root <> [] -> forallb is_clean root = true ->
  p <> [] -> forallb is_clean p = true ->
  resolves_inside (absolute root) (absolute p) = is_prefix root p.
Proof.
  intros Hr Hrc Hp Hpc. unfold resolves_inside.
  rewrite !normpath_clean by assumption.
  now rewrite !components_absolute by auto using clean_parts.
Qed.

(** C9. For a record whose absolute path is not under the
    home directory, the relative path the Backup Mover computes starts
    with one [".."] for each home component below the deepest common
    ancestor, and the destination it creates and moves to normalises to
    that ancestor, the next home component and the rest of the record's
    path: outside the backup root unless that rest itself starts with
    the remaining home components followed by the name of the backup
    directory. The scanner's roots include /Library/Caches,
    /private/var/tmp and /private/var/log, and a record found there
    does reach the mover. *)
Theorem C9_records_outside_home (cwd : string) (hs ps : list string) :
  hs <> [] -> forallb is_clean hs = true ->
  ps <> [] -> forallb is_clean ps = true ->
  ~ (exists rest, ps = hs ++ rest) ->
  let HOME := absolute hs in
  let file_path := absolute ps in
  let i := length (PosixPath.commonprefix hs ps) in
  let k := length hs - i in
  (exists rel,
     PosixPath.relpath cwd file_path (PosixPath.expanduser HOME "~") = Some rel /\
     1 <= k /\
     Py.split PosixPath.sep rel = repeat ".." k ++ drop i ps /\
     In ".." (Py.split PosixPath.sep rel) /\
     let dst := PosixPath.join (BACKUP_DIR HOME) rel in
     PosixPath.normpath dst = absolute (take (S i) hs ++ drop i ps) /\
     resolves_inside (BACKUP_DIR HOME) dst
       = is_prefix (drop (S i) hs ++ [BACKUP_NAME]) (drop i ps) /\
     (forall (World : Type) (perform : syscall -> World -> option string * World)
             (s : @state World) w1 w2,
        perform (Makedirs (PosixPath.dirname dst)) (world s) = (None, w1) ->
        perform (Move file_path dst) w1 = (None, w2) ->
        move_to_backup perform false HOME cwd file_path s =
          (Ok (Some dst),
           {| world := w2; stdin := stdin s;
              trace := trace s ++ [Did (Makedirs (PosixPath.dirname dst)) None;
                                   Did (Move file_path dst) None;
                                   Logged INFO (Moved file_path dst)] |}))) /\
  (In "/Library/Caches" (SCAN_DIRS HOME) /\
   In "/private/var/tmp" (SCAN_DIRS HOME) /\
   In "/private/var/log" (SCAN_DIRS HOME)) /\
  In (Did (Move "/Library/Caches/app/x.db"
                "/Users/me/SystemDataCleanupBackup/../../Library/Caches/app/x.db") None)
     (trace (run Sample.quiet false Sample.HOME Sample.cwd
               Sample.os_exists Sample.os_walk Sample.os_stat Sample.ready Sample.oracle [0]
               Sample.start)).
Proof.
  intros Hh Hhc Hp Hpc Hout HOME file_path i k. subst HOME file_path.
  destruct (destination_outside_home cwd hs ps Hh Hhc Hp Hpc Hout)
    as (Hk & Hrel & Hsplit & Hjoin & Hnorm).
  fold i k in Hk, Hrel, Hsplit, Hjoin, Hnorm.
  assert (Hi : i < length hs) by (unfold k in Hk; lia).
  split; [|split].
  - eexists. split; [exact Hrel|]. split; [exact Hk|]. split; [exact Hsplit|].
    split; [|split; [exact Hnorm|split]].
    + rewrite Hsplit. apply in_app_iff. left. destruct k; [lia | now left].
    + assert (Hdst : take (S i) hs ++ drop i ps <> []).
      { destruct hs; [contradiction | discriminate]. }
      assert (Hclean : forallb is_clean (take (S i) hs ++ drop i ps) = true).
      { rewrite forallb_app, forallb_take, forallb_drop by assumption. reflexivity. }
      unfold resolves_inside. rewrite Hnorm.
      rewrite backup_dir_absolute by assumption.
      rewrite normpath_clean;
        [| destruct hs; discriminate | rewrite forallb_app, Hhc; reflexivity].
      rewrite !components_absolute; auto using clean_parts;
        [| destruct hs; discriminate
         | rewrite forallb_app, (clean_parts hs Hhc); reflexivity].
      rewrite <- (take_drop (S i) hs) at 1. rewrite <- app_assoc.
      apply is_prefix_app.
    + intros World perform s w1 w2 H1 H2.
      rewrite (move_to_backup_run perform false _ cwd _ _ s Hrel).
      unfold move_to_backup_outcome. now rewrite H1, H2.
  - unfold SCAN_DIRS. cbn [In]. auto 10.
  - vm_compute. repeat (first [left; reflexivity | right]).
Qed.

(** C9 without the exception: not every record outside the home
    directory leaves the backup root. With the home directory
    /private/var/tmp/me, the record
    /private/var/tmp/SystemDataCleanupBackup/x lies under a scanner root
    and outside the home directory, yet its destination resolves inside
    the backup root. *)
Lemma C9_outside_home_may_stay_inside :
  ~ outside_home_leaves_backup_root "/" "/private/var/tmp/me"
      "/private/var/tmp/SystemDataCleanupBackup/x".
Proof.
  intros H.
  destruct (H eq_refl "../SystemDataCleanupBackup/x" eq_refl) as [_ Hin].
  vm_compute in Hin. discriminate.
Qed.

(** ** Truthiness of [important] *)

Lemma collect_by_truthiness st m c v a t o :
  well_keyed c -> c !! "important" = Some v ->
  program_files st = three_groups a t o ->
  exists st',
    collect st (m, c) = Ok st' /\
    (py_truthy v = false ->
       to_delete st' = to_delete st ++ [attach (m, c)] /\
       In (attach (m, c)) (group (get_program_name (path m)) (program_files st'))) /\
    (py_truthy v = true ->
       to_delete st' = to_delete st /\ program_files st' = program_files st).
Proof.
  intros Hwk Hv Hg.
  destruct (collect_step st m c a t o Hwk Hg) as (st' & Hc & Hd & Hg' & _).
  exists st'. split; [exact Hc|].
  assert (Hret : retained (m, c) = negb (py_truthy v)).
  { unfold retained. cbn [snd]. now rewrite Hv. }
  rewrite Hret in Hd.
  split; intros Ht; rewrite Ht in Hd; cbn [negb] in Hd.
  - split; [exact Hd|]. rewrite Hg'.
    assert (Hmem : In (attach (m, c)) (members_for (get_program_name (path m)) [(m, c)])).
    { apply in_members_for. exists (m, c). cbn [fst]. rewrite Hret, Ht.
      repeat split. now left. }
    destruct (get_program_name_cases (path m)) as [E | [E | E]]; rewrite E in *;
      unfold group, three_groups; cbn [find fst snd];
      [ change (String.eqb "Android Studio" "Android Studio") with true
      | change (String.eqb "Android Studio" "Transporter") with false;
        change (String.eqb "Transporter" "Transporter") with true
      | change (String.eqb "Android Studio" "Others") with false;
        change (String.eqb "Transporter" "Others") with false;
        change (String.eqb "Others" "Others") with true ];
      cbv iota; cbn [snd]; apply in_app_iff; now right.
  - split; [now rewrite Hd, app_nil_r|]. rewrite Hg', Hg.
    unfold members_for. cbn [List.filter]. rewrite Hret, Ht. cbn [negb andb map].
    now rewrite !app_nil_r.
Qed.

(** C10. Whether a record is retained is decided by the truth value of
    the [important] field of the accepted answer, which is passed on
    without any check of its type: a falsy value (false, 0, the empty
    string, null) makes the loop retain the record in the group of its
    program, and any truthy value, the string "false" included, makes it
    discard the record. *)
Theorem C10_truthiness_decides (setup : option exn) (oracle : nat -> api_outcome)
  (m : metadata) (tid k : nat)
  (d : gmap string json) (v : json)
  (evs : list worker_event) (m' : metadata) (c : gmap string json)
  (st : aggregate) (a t o : list classified) :
  k < 3 ->
  rate_limited_below oracle k ->
  oracle k = Loaded (JObj d) ->
  d !! "important" = Some v ->
  is_Some (d !! "importance") -> is_Some (d !! "reason") ->
  classify_file_with_openai setup oracle m tid = Ok (evs, (m', c)) ->
  program_files st = three_groups a t o ->
  c !! "important" = Some v /\
  (exists st',
     collect st (m', c) = Ok st' /\
     (py_truthy v = false ->
        to_delete st' = to_delete st ++ [attach (m', c)] /\
        In (attach (m', c)) (group (get_program_name (path m')) (program_files st'))) /\
     (py_truthy v = true ->
        to_delete st' = to_delete st /\ program_files st' = program_files st)) /\
  py_truthy (JBool false) = false /\
  py_truthy (JInt 0) = false /\
  py_truthy (JStr "") = false /\
  py_truthy JNull = false /\
  py_truthy (JStr "false") = true.
Proof.
  intros Hk Hrl Ho Hv [tier Ht] Hr Hc Hg.
  destruct setup as [e0|]; [discriminate|].
  assert (Hcv : c !! "important" = Some v /\ well_keyed c).
  { pose proof (validate_object_complete d tier ltac:(rewrite Hv; eauto) Ht Hr) as Hval.
    pose proof (validate_well_keyed _ _ _ Hval) as Hwk.
    assert (Himp : (if json_in tier TIERS then d else <["importance" := JStr "Medium"]> d)
                     !! "important" = Some v).
    { destruct (json_in tier TIERS); [exact Hv | now rewrite lookup_insert_ne]. }
    destruct (classify_after_rate_limits oracle m tid k Hk Hrl) as (evs0 & c0 & Hb & Heq);
      [rewrite Ho; discriminate|].
    rewrite Ho in Hb. cbn [attempt_body] in Hb. rewrite Hval in Hb.
    injection Hb as _ Hc0. rewrite <- Hc0 in Heq. rewrite Heq in Hc.
    injection Hc as _ _ Hcc. rewrite <- Hcc. split; assumption. }
  destruct Hcv as [Hcv Hwk]. split; [exact Hcv|].
  split; [exact (collect_by_truthiness st m' c v a t o Hwk Hcv Hg)|].
  repeat split.
Qed.

(** ** Dry mode *)

(** C8 with directory creation: a dry-mode relocation of one selected
    record does not create the directory of its destination. *)
Lemma C8_dry_mode_creates_no_directory :
  ~ dry_mode_creates_directories Sample.quiet Sample.HOME Sample.cwd
      [Sample.stored "/Users/me/Library/Caches/app/x.db" "Low"] Sample.start.
Proof.
  intros H.
  destruct (H (Sample.stored "/Users/me/Library/Caches/app/x.db" "Low")
              "Library/Caches/app/x.db" (or_introl eq_refl) eq_refl) as [err Hin].
  vm_compute in Hin. destruct Hin as [Hin | []]. discriminate.
Qed.

(** C8. In dry mode a run performs neither the creation of
    directories nor the move: the relocation loop writes one "would
    move" line for each selected record and calls nothing, so the
    filesystem is left as it was, and everything a run of
    [cleanup_files] adds to the trace is a log line. *)
Theorem C8_dry_mode_touches_nothing (World : Type)
  (perform : syscall -> World -> option string * World) (HOME cwd : string)
  (setup : nat -> option exn)
  (oracle : nat -> nat -> api_outcome) (order : list nat) (files : list metadata)
  (s : @state World) (r : py_result unit) (s' : @state World) :
  cleanup_files perform true HOME cwd setup oracle order files s = (r, s') ->
  world s' = world s /\
  (exists evs, trace s' = trace s ++ evs /\ Forall is_logged evs) /\
  (forall moving (s0 : @state World),
     relocate perform true HOME cwd moving s0 =
       (Ok tt,
        {| world := world s0; stdin := stdin s0;
           trace := trace s0 ++
                    map (fun md => Logged INFO (WouldMove (path (file md)))) moving |})).
Proof.
  intros Hrun.
  assert (Hpost : post (cleanup_files perform true HOME cwd setup oracle order files)
                    only_logged (fun _ => True)).
  { apply cleanup_files_post;
      try solve [ apply only_logged_refl | apply only_logged_trans
                | apply only_logged_log | apply only_logged_read ].
    intros moving _. apply relocate_dry_post. }
  destruct (Hpost _ _ _ Hrun) as [[Hw Happ] _].
  split; [exact Hw|]. split; [exact Happ|].
  intros moving s0. apply relocate_dry.
Qed.

(** ** The statements at sample inputs *)


Lemma C2_retry_policy_witness :
  classify_file_with_openai None Sample.flaky (Sample.record "/tmp/a") 1
    = Ok ([Request 0; ThreadLog 1 WARNING (RateLimitHit "/tmp/a"); Sleep 5000; Sleep 100;
           Request 1; ThreadLog 1 ERROR (ApiError "/tmp/a" "timeout")],
          (Sample.record "/tmp/a", fail_safe "API error: timeout")).
Proof.
  assert (Hrl : rate_limited_below Sample.flaky 1).
  { intros [|j] Hj; [reflexivity | lia]. }
  destruct (C2_retry_policy None Sample.flaky (Sample.record "/tmp/a") 1 1 _ _ _
              ltac:(lia) Hrl eq_refl) as (_ & _ & _ & H & _).
  destruct (H ltac:(lia) "timeout" eq_refl) as [_ _]. reflexivity.
Defined.

Lemma C3_response_validation_witness :
  exists evs c,
    classify_file_with_openai None Sample.unknown_tier (Sample.record "/tmp/a") 1
      = Ok (evs, (Sample.record "/tmp/a", c)) /\
    c !! "importance" = Some (JStr "Medium").
Proof.
  assert (Hrl : rate_limited_below Sample.unknown_tier 0) by (intros j Hj; lia).
  eexists _, _. split; [reflexivity|].
  destruct (C3_response_validation None Sample.unknown_tier (Sample.record "/tmp/a") 1 0 _ _ _
              ltac:(lia) Hrl eq_refl) as (H & _).
  destruct (H _ (JStr "Urgent") eq_refl
              (ex_intro _ (JBool false) eq_refl) eq_refl
              (ex_intro _ (JStr "cache") eq_refl)) as [Hmedium _].
  exact (proj1 (proj2 (Hmedium eq_refl))).
Defined.

Lemma C4_failed_records_never_relocated_witness :
  exists evs,
    trace (snd (cleanup_files Sample.quiet false Sample.HOME Sample.cwd Sample.ready
                  Sample.oracle [0]
                  [Sample.record "/Library/Caches/app/x.db"] Sample.start))
      = trace Sample.start ++ evs /\
    forall src dst err, In (Did (Move src dst) err) evs ->
      accepted_path Sample.oracle [Sample.record "/Library/Caches/app/x.db"] src.
Proof.
  exact (proj2 (proj2 (proj2 (proj2
    (C4_failed_records_never_relocated unit Sample.quiet false Sample.HOME Sample.cwd
       Sample.ready Sample.oracle [0] [Sample.record "/Library/Caches/app/x.db"] Sample.start
       _ _ (surjective_pairing _)))))).
Defined.

Lemma C5_order_independence_witness :
  exists agg1 agg2,
    fst (collect_all 2 (pool_results 4 Sample.ready Sample.oracle (completion_order [] 2)
                          [Sample.record "/tmp/a"; Sample.record "/tmp/b"])
           initial_aggregate Sample.start) = Ok agg1 /\
    fst (collect_all 2 (pool_results 1 Sample.ready Sample.oracle (completion_order [1] 2)
                          [Sample.record "/tmp/a"; Sample.record "/tmp/b"])
           initial_aggregate Sample.start) = Ok agg2 /\
    forall program,
      Permutation (group program (program_files agg1)) (group program (program_files agg2)).
Proof.
  destruct (proj1 (C5_order_independence Sample.ready Sample.oracle
                     [Sample.record "/tmp/a"; Sample.record "/tmp/b"] 4 1 [] [1]
                     unit Sample.start Sample.start ltac:(lia) ltac:(lia))
              (fun i _ => eq_refl))
    as (agg1 & agg2 & H1 & H2 & _ & _ & Hperm & _).
  exists agg1, agg2. auto.
Defined.

Lemma C6_selection_planner_witness :
  display_and_filter_files
    (three_groups [Sample.stored "/tmp/a" "Low"; Sample.stored "/tmp/b" "High"] []
                  [Sample.stored "/tmp/c" "Medium"])
    ["keep them"; "none"; "low"; ""; "all"; "y"]
  = (Ok [Sample.stored "/tmp/a" "Low"; Sample.stored "/tmp/c" "Medium"], ["y"]).
Proof.
  assert (Hnd : NoDup (map fst
            (three_groups [Sample.stored "/tmp/a" "Low"; Sample.stored "/tmp/b" "High"] []
                          [Sample.stored "/tmp/c" "Medium"]))).
  { cbn. repeat (constructor; [rewrite list_elem_of_In; cbn; intuition discriminate|]).
    constructor. }
  exact (proj1 (C6_selection_planner _ ["keep them"; "none"; "low"; ""; "all"; "y"] Hnd)).
Defined.

Lemma C7_backup_destination_witness :
  PosixPath.join (BACKUP_DIR "/Users/me") "Library/Caches/app/x.db"
    = BACKUP_DIR "/Users/me" +:+ "/Library/Caches/app/x.db" /\
  PosixPath.dirname (PosixPath.join (BACKUP_DIR "/Users/me") "Library/Caches/app/x.db")
    = BACKUP_DIR "/Users/me" +:+ "/Library/Caches/app".
Proof.
  destruct (C7_backup_destination unit Sample.quiet "/Users/me" "/"
              "/Users/me/Library/Caches/app/x.db" "Library/Caches/app/x.db"
              Sample.start eq_refl) as (_ & _ & _ & H & _).
  exact (H ["Users"; "me"] ltac:(discriminate) eq_refl eq_refl eq_refl).
Defined.

Lemma C8_dry_mode_touches_nothing_witness :
  world (snd (cleanup_files Sample.quiet true Sample.HOME Sample.cwd Sample.ready
                Sample.oracle [0]
                [Sample.record "/Library/Caches/app/x.db"] Sample.start))
    = world Sample.start.
Proof.
  exact (proj1
    (C8_dry_mode_touches_nothing unit Sample.quiet Sample.HOME Sample.cwd
       Sample.ready Sample.oracle [0] [Sample.record "/Library/Caches/app/x.db"] Sample.start
       _ _ (surjective_pairing _))).
Defined.

Lemma C9_records_outside_home_witness :
  PosixPath.relpath "/" "/Library/Caches/app/x.db" (PosixPath.expanduser "/Users/me" "~")
    = Some "../../Library/Caches/app/x.db" /\
  PosixPath.normpath
    (PosixPath.join (BACKUP_DIR "/Users/me") "../../Library/Caches/app/x.db")
    = "/Users/Library/Caches/app/x.db".
Proof.
  assert (Hout : ~ (exists rest, ["Library"; "Caches"; "app"; "x.db"] = ["Users"; "me"] ++ rest)).
  { intros [rest H]. discriminate. }
  destruct (C9_records_outside_home "/" ["Users"; "me"] ["Library"; "Caches"; "app"; "x.db"]
              ltac:(discriminate) eq_refl ltac:(discriminate) eq_refl Hout)
    as ((rel & Hrel & _ & _ & _ & Hnorm & _) & _).
  assert (E : rel = "../../Library/Caches/app/x.db").
  { assert (Hc : PosixPath.relpath "/" (absolute ["Library"; "Caches"; "app"; "x.db"])
                   (PosixPath.expanduser (absolute ["Users"; "me"]) "~")
                 = Some "../../Library/Caches/app/x.db") by reflexivity.
    congruence. }
  subst rel. split; [exact Hrel | exact Hnorm].
Defined.

Lemma C10_truthiness_decides_witness :
  exists st',
    collect initial_aggregate
      (Sample.record "/tmp/a", classification_of Sample.zero_important) = Ok st' /\
    to_delete st' =
      [attach (Sample.record "/tmp/a", classification_of Sample.zero_important)].
Proof.
  assert (Hrl : rate_limited_below Sample.zero_important 0) by (intros j Hj; lia).
  destruct (C10_truthiness_decides None Sample.zero_important (Sample.record "/tmp/a") 1 0
              _ (JInt 0) _ _ _ initial_aggregate [] [] []
              ltac:(lia) Hrl eq_refl eq_refl
              (ex_intro _ (JStr "Low") eq_refl) (ex_intro _ (JStr "cache") eq_refl)
              eq_refl eq_refl)
    as (_ & (st' & Hc & Hfalsy & _) & _).
  exists st'. split; [exact Hc | exact (proj1 (Hfalsy eq_refl))].
Defined.

(** * Further properties of the code *)

(** ** The scanner *)

Lemma size_threshold_bytes (n : N) :
  Qle_bool MIN_FILE_SIZE_KB (inject_Z (Z.of_N n) / 1024)%Q = true <-> (10240 <= n)%N.
Proof.
  rewrite Qle_bool_iff. unfold MIN_FILE_SIZE_KB, Qle, Qdiv, Qmult, Qinv, inject_Z.
  cbn [Qnum Qden]. lia.
Qed.

Lemma get_file_metadata_some (os_stat : string -> option stat_result)
  (file_path : string) (md : metadata) :
  get_file_metadata os_stat file_path = Ok (Some md) <->
  is_protected_path file_path = false /\
  exists st iso, os_stat file_path = Some st /\ (10240 <= st_size st)%N /\
                 st_mtime_iso st = Ok iso /\ md = metadata_of file_path st iso.
Proof.
  unfold get_file_metadata. split.
  - destruct (is_protected_path file_path); [discriminate|].
    destruct (os_stat file_path) as [st|]; [|discriminate].
    destruct (Qle_bool _ _) eqn:Hq; cbn [negb]; [|discriminate].
    destruct (st_mtime_iso st) as [iso|e] eqn:Hiso;
      [|destruct (is_OSError e); discriminate].
    intros [= <-]. split; [reflexivity|]. exists st, iso.
    split; [reflexivity|]. split; [now apply size_threshold_bytes|]. auto.
  - intros (Hp & st & iso & Hst & Hsz & Hiso & ->). rewrite Hp, Hst.
    apply size_threshold_bytes in Hsz. rewrite Hsz, Hiso. reflexivity.
Qed.

Lemma get_file_metadata_raises (os_stat : string -> option stat_result)
  (file_path : string) (e : exn) :
  get_file_metadata os_stat file_path = Raise e <->
  is_protected_path file_path = false /\
  exists st, os_stat file_path = Some st /\ (10240 <= st_size st)%N /\
             st_mtime_iso st = Raise e /\ is_OSError e = false.
Proof.
  unfold get_file_metadata. split.
  - destruct (is_protected_path file_path); [discriminate|].
    destruct (os_stat file_path) as [st|]; [|discriminate].
    destruct (Qle_bool _ _) eqn:Hq; cbn [negb]; [|discriminate].
    destruct (st_mtime_iso st) as [iso|e'] eqn:Hiso; [discriminate|].
    destruct (is_OSError e') eqn:Hos; [discriminate|].
    intros [= <-]. split; [reflexivity|]. exists st.
    split; [reflexivity|]. split; [now apply size_threshold_bytes|]. auto.
  - intros (Hp & st & Hst & Hsz & Hiso & Hos). rewrite Hp, Hst.
    apply size_threshold_bytes in Hsz. rewrite Hsz, Hiso, Hos. reflexivity.
Qed.

(** X1. [get_file_metadata] returns a record exactly for a path that is
    not protected, that [os.stat] can read, whose size is at least 10240
    bytes (10 KB, the bound included) and whose modification time can be
    formatted; the record then carries the path it was asked about, the
    size in megabytes as a float, and the time and directory flag of the
    stat. It raises exactly when the time of such a path cannot be
    formatted and the exception is no [OSError] (the [except] clause
    names only that class); in every other case it returns [None]. *)
Theorem X1_metadata_threshold (os_stat : string -> option stat_result)
  (file_path : string) :
  (forall md,
     get_file_metadata os_stat file_path = Ok (Some md) <->
     is_protected_path file_path = false /\
     exists st iso, os_stat file_path = Some st /\ (10240 <= st_size st)%N /\
                    st_mtime_iso st = Ok iso /\ md = metadata_of file_path st iso) /\
  (forall e,
     get_file_metadata os_stat file_path = Raise e <->
     is_protected_path file_path = false /\
     exists st, os_stat file_path = Some st /\ (10240 <= st_size st)%N /\
                st_mtime_iso st = Raise e /\ is_OSError e = false) /\
  (get_file_metadata os_stat file_path = Ok None <->
     is_protected_path file_path = true \/
     os_stat file_path = None \/
     exists st, os_stat file_path = Some st /\
       ((st_size st < 10240)%N \/ exists e, st_mtime_iso st = Raise e /\ is_OSError e = true)).
Proof.
  split; [intros md; apply get_file_metadata_some|].
  split; [intros e; apply get_file_metadata_raises|].
  unfold get_file_metadata.
  destruct (is_protected_path file_path); [split; auto|].
  destruct (os_stat file_path) as [st|]; [|split; auto].
  pose proof (size_threshold_bytes (st_size st)) as Hsz.
  destruct (Qle_bool _ _); cbn [negb].
  - assert (Hbig : (10240 <= st_size st)%N) by now apply Hsz.
    destruct (st_mtime_iso st) as [iso|e] eqn:Hiso.
    + split; [discriminate|].
      intros [H | [H | (st' & [= <-] & [H | (e & H & _)])]]; try discriminate; [lia|].
      rewrite Hiso in H. discriminate.
    + destruct (is_OSError e) eqn:Hos.
      * split; [|reflexivity]. intros _. right. right. exists st. split; [reflexivity|].
        right. exists e. now rewrite Hiso.
      * split; [discriminate|].
        intros [H | [H | (st' & [= <-] & [H | (e' & H & Hos')])]]; try discriminate; [lia|].
        rewrite Hiso in H. injection H as <-. congruence.
  - split; [|reflexivity]. intros _. right. right. exists st. split; [reflexivity|].
    left. destruct (N.lt_ge_cases (st_size st) 10240) as [Hlt | Hge]; [exact Hlt|].
    apply Hsz in Hge. discriminate.
Qed.

(** ** Statements that only write log lines *)

Section OnlyLogs.

Context {World : Type}.

Lemma wrote_nil (s : @state World) : wrote s [] = s.
Proof. destruct s. unfold wrote. cbn. now rewrite app_nil_r. Qed.

Lemma only_logs_ret {A} (a : A) (Q : A -> Prop) : Q a -> only_logs (@ret World A a) Q.
Proof.
  intros HQ s. exists a, []. split; [unfold ret; now rewrite wrote_nil|].
  split; [constructor | exact HQ].
Qed.

Lemma only_logs_log lvl line : only_logs (@log World lvl line) (fun _ => True).
Proof. intros s. exists tt, [Logged lvl line]. repeat split. repeat constructor. Qed.

Lemma only_logs_bind {A B} (m : @M World A) (k : A -> M B) (Q : A -> Prop) (Q' : B -> Prop) :
  only_logs m Q -> (forall a, Q a -> only_logs (k a) Q') -> only_logs (bind m k) Q'.
Proof.
  intros Hm Hk s. destruct (Hm s) as (a & evs & Em & Fm & HQ).
  destruct (Hk a HQ (wrote s evs)) as (b & evs' & Ek & Fk & HQ').
  exists b, (evs ++ evs'). unfold bind. rewrite Em, Ek, wrote_wrote.
  split; [reflexivity|]. split; [now apply List.Forall_app | exact HQ'].
Qed.

End OnlyLogs.

Section ScanInvariants.

Context {World : Type}.
Variable os_exists : string -> bool.
Variable os_walk : string -> list (string * list string).
Variable os_stat : string -> option stat_result.

(** A property of the list [files] that holds at the start and is kept
    whenever a record is appended below the limit is kept by the three
    loops of the scan, which only write log lines and never raise. *)
Variable I : list metadata -> Prop.

Lemma scan_names_keeps root : forall names files total,
  I files ->
  (forall fs name md, In name names -> I fs -> (N.of_nat (length fs) < MAX_FILES)%N ->
     get_file_metadata os_stat (PosixPath.join root name) = Ok (Some md) -> I (fs ++ [md])) ->
  only_logs (@scan_names World os_stat root names files total)
            (fun flow => I (flow_files flow)).
Proof.
  induction names as [|name rest IH]; intros files total Hfiles Hnew;
    [now apply only_logs_ret|].
  cbn [scan_names]. apply only_logs_bind with (Q := fun _ => True).
  { destruct (Nat.eqb _ _); [apply only_logs_log | now apply only_logs_ret]. }
  intros _ _. destruct (N.leb_spec MAX_FILES (N.of_nat (length files))) as [Hfull|Hroom].
  { apply only_logs_bind with (Q := fun _ => True); [apply only_logs_log|].
    intros _ _. now apply only_logs_ret. }
  destruct (get_file_metadata os_stat (PosixPath.join root name)) as [[md|]|e] eqn:E.
  - apply IH.
    + apply (Hnew files name md); auto. now left.
    + intros fs n m Hin. apply Hnew. now right.
  - apply IH; [exact Hfiles|]. intros fs n m Hin. apply Hnew. now right.
  - now apply only_logs_ret.
Qed.

Lemma scan_walk_keeps : forall visited files total,
  I files ->
  (forall fs root names name md, In (root, names) visited -> In name names ->
     I fs -> (N.of_nat (length fs) < MAX_FILES)%N ->
     get_file_metadata os_stat (PosixPath.join root name) = Ok (Some md) -> I (fs ++ [md])) ->
  only_logs (@scan_walk World os_stat visited files total)
            (fun flow => I (flow_files flow)).
Proof.
  induction visited as [|[root names] rest IH]; intros files total Hfiles Hnew;
    [now apply only_logs_ret|].
  cbn [scan_walk]. apply only_logs_bind with (Q := fun flow => I (flow_files flow)).
  { apply scan_names_keeps; [exact Hfiles|].
    intros fs name md Hin. apply (Hnew fs root names name md); [now left | exact Hin]. }
  intros [fs n|fs|fs n e] Hflow; cbn [flow_files] in Hflow.
  - apply IH; [exact Hflow|]. intros fs' r ns name md Hin. apply Hnew. now right.
  - now apply only_logs_ret.
  - now apply only_logs_ret.
Qed.

Lemma scan_dirs_keeps : forall dirs files total,
  I files ->
  (forall fs dir root names name md, In dir dirs -> os_exists dir = true ->
     In (root, names) (os_walk dir) -> In name names ->
     I fs -> (N.of_nat (length fs) < MAX_FILES)%N ->
     get_file_metadata os_stat (PosixPath.join root name) = Ok (Some md) -> I (fs ++ [md])) ->
  only_logs (@scan_dirs World os_exists os_walk os_stat dirs files total)
            (fun flow => I (flow_files flow)).
Proof.
  induction dirs as [|dir rest IH]; intros files total Hfiles Hnew;
    [now apply only_logs_ret|].
  assert (Hrest : forall fs n, I fs ->
            only_logs (@scan_dirs World os_exists os_walk os_stat rest fs n)
                      (fun flow => I (flow_files flow))).
  { intros fs n Hfs. apply IH; [exact Hfs|].
    intros fs' d r ns name md Hin. apply Hnew. now right. }
  cbn [scan_dirs]. destruct (os_exists dir) eqn:Hex; cbn [negb].
  - apply only_logs_bind with (Q := fun flow => I (flow_files flow)).
    { apply scan_walk_keeps; [exact Hfiles|].
      intros fs root names name md Hin. apply (Hnew fs dir root names name md); auto.
      now left. }
    intros [fs n|fs|fs n e] Hflow; cbn [flow_files] in Hflow.
    + now apply Hrest.
    + now apply only_logs_ret.
    + apply only_logs_bind with (Q := fun _ => True); [apply only_logs_log|].
      intros _ _. now apply Hrest.
  - apply only_logs_bind with (Q := fun _ => True); [apply only_logs_log|].
    intros _ _. now apply Hrest.
Qed.

Lemma scan_system_data_keeps HOME :
  I [] ->
  (forall fs dir root names name md, In dir (SCAN_DIRS HOME) -> os_exists dir = true ->
     In (root, names) (os_walk dir) -> In name names ->
     I fs -> (N.of_nat (length fs) < MAX_FILES)%N ->
     get_file_metadata os_stat (PosixPath.join root name) = Ok (Some md) -> I (fs ++ [md])) ->
  only_logs (@scan_system_data World HOME os_exists os_walk os_stat) I.
Proof.
  intros Hnil Hnew. unfold scan_system_data.
  apply only_logs_bind with (Q := fun flow => I (flow_files flow)).
  { now apply scan_dirs_keeps. }
  intros [fs n|fs|fs n e] Hflow; cbn [flow_files] in Hflow.
  - apply only_logs_bind with (Q := fun _ => True); [apply only_logs_log|].
    intros _ _. now apply only_logs_ret.
  - now apply only_logs_ret.
  - apply only_logs_bind with (Q := fun _ => True); [apply only_logs_log|].
    intros _ _. now apply only_logs_ret.
Qed.

End ScanInvariants.

(** X2. The scanner never raises and only writes log lines, and every
    record it returns passed the filters: its path is not protected, its
    size is at least 10240 bytes, it is the record [os.stat] gives for
    its path, and that path is [root/name] for a file name [os.walk]
    listed under one of the scan directories that exist. *)
Theorem X2_scanned_records_pass_filters (World : Type) (HOME : string)
  (os_exists : string -> bool) (os_walk : string -> list (string * list string))
  (os_stat : string -> option stat_result) (s : @state World) :
  exists files evs,
    scan_system_data HOME os_exists os_walk os_stat s = (Ok files, wrote s evs) /\
    Forall is_logged evs /\
    forall md, In md files ->
      is_protected_path (path md) = false /\
      (exists st iso, os_stat (path md) = Some st /\ (10240 <= st_size st)%N /\
                      st_mtime_iso st = Ok iso /\ md = metadata_of (path md) st iso) /\
      (exists dir root names name,
         In dir (SCAN_DIRS HOME) /\ os_exists dir = true /\
         In (root, names) (os_walk dir) /\ In name names /\
         path md = PosixPath.join root name).
Proof.
  set (P := fun md =>
    is_protected_path (path md) = false /\
    (exists st iso, os_stat (path md) = Some st /\ (10240 <= st_size st)%N /\
                    st_mtime_iso st = Ok iso /\ md = metadata_of (path md) st iso) /\
    (exists dir root names name,
       In dir (SCAN_DIRS HOME) /\ os_exists dir = true /\
       In (root, names) (os_walk dir) /\ In name names /\
       path md = PosixPath.join root name)).
  assert (Hscan : only_logs (@scan_system_data World HOME os_exists os_walk os_stat)
                    (Forall P)).
  { apply scan_system_data_keeps; [constructor|].
    intros fs dir root names name md Hdir Hex Hwalk Hname Hfs _ Hmd.
    apply List.Forall_app. split; [exact Hfs|]. constructor; [|constructor].
    apply get_file_metadata_some in Hmd as (Hp & st & iso & Hst & Hsz & Hiso & ->).
    unfold P. cbn [path metadata_of]. split; [exact Hp|]. split.
    - exists st, iso. auto.
    - exists dir, root, names, name. auto. }
  destruct (Hscan s) as (files & evs & Hrun & Hlog & Hall).
  exists files, evs. split; [exact Hrun|]. split; [exact Hlog|].
  intros md Hin. rewrite List.Forall_forall in Hall. exact (Hall md Hin).
Qed.

(** X3. The scanner never returns more than [MAX_FILES] (10000) records,
    whatever the directories hold. *)
Theorem X3_scan_is_bounded (World : Type) (HOME : string)
  (os_exists : string -> bool) (os_walk : string -> list (string * list string))
  (os_stat : string -> option stat_result) (s : @state World) :
  exists files s',
    scan_system_data HOME os_exists os_walk os_stat s = (Ok files, s') /\
    (N.of_nat (length files) <= MAX_FILES)%N.
Proof.
  assert (Hscan : only_logs (@scan_system_data World HOME os_exists os_walk os_stat)
                    (fun fs => (N.of_nat (length fs) <= MAX_FILES)%N)).
  { apply scan_system_data_keeps.
    - cbn [length]. unfold MAX_FILES. lia.
    - intros fs dir root names name md _ _ _ _ _ Hroom _.
      rewrite length_app. cbn [length]. lia. }
  destruct (Hscan s) as (files & evs & Hrun & _ & Hb).
  exists files, (wrote s evs). auto.
Qed.

(** ** Protected paths and program names *)

Lemma startswith_app (pre : string) : forall s rest,
  Py.startswith s pre = true -> Py.startswith (s +:+ rest) pre = true.
Proof.
  induction pre as [|a pre IH]; intros s rest H; [reflexivity|].
  destruct s as [|b s]; [discriminate|].
  rewrite app_string_cons. cbn [Py.startswith] in *.
  apply andb_prop in H as [Hab Hs]. now rewrite Hab, (IH _ _ Hs).
Qed.

(** X4. Protection is by prefix: whatever lies below a protected path is
    protected too, so [get_file_metadata] gives no record for it. *)
Theorem X4_protection_extends_below (os_stat : string -> option stat_result)
  (p rest : string) :
  is_protected_path p = true ->
  is_protected_path (p +:+ rest) = true /\
  get_file_metadata os_stat (p +:+ rest) = Ok None.
Proof.
  intros Hp.
  assert (H : is_protected_path (p +:+ rest) = true).
  { unfold is_protected_path in *. apply existsb_exists in Hp as (pre & Hin & Hpre).
    apply existsb_exists. exists pre. split; [exact Hin | now apply startswith_app]. }
  split; [exact H|]. unfold get_file_metadata. now rewrite H.
Qed.

Lemma lower_char_idem c : Py.lower_char (Py.lower_char c) = Py.lower_char c.
Proof. destruct c as [[] [] [] [] [] [] [] []]; reflexivity. Qed.

Lemma lower_idem s : Py.lower (Py.lower s) = Py.lower s.
Proof.
  induction s as [|c s IH]; [reflexivity|]. cbn [Py.lower]. now rewrite lower_char_idem, IH.
Qed.

Lemma lower_app a b : Py.lower (a +:+ b) = Py.lower a +:+ Py.lower b.
Proof.
  induction a as [|c a IH]; [reflexivity|].
  rewrite app_string_cons. cbn [Py.lower]. now rewrite IH, app_string_cons.
Qed.

Lemma contains_app_l sub : forall a s,
  Py.contains sub s = true -> Py.contains sub (a +:+ s) = true.
Proof.
  induction a as [|c a IH]; intros s H; [exact H|].
  rewrite app_string_cons. cbn [Py.contains]. rewrite (IH _ H). apply orb_true_r.
Qed.

Lemma contains_middle sub a b : Py.contains sub (a +:+ sub +:+ b) = true.
Proof.
  apply contains_app_l. destruct (sub +:+ b) eqn:E; cbn [Py.contains];
    rewrite <- E, startswith_prefix; reflexivity.
Qed.

(** X5. A path is attributed by substring, whatever the letter case: a
    path holding "android studio" anywhere goes to Android Studio (also
    when it holds "transporter"), one holding "transporter" but not
    "android studio" goes to Transporter, any other to Others; and the
    lower-cased path is attributed like the path itself. *)
Theorem X5_program_by_substring (pre mid post : string) :
  (Py.lower mid = "android studio" ->
     get_program_name (pre +:+ mid +:+ post) = "Android Studio") /\
  (Py.lower mid = "transporter" ->
     Py.contains "android studio" (Py.lower (pre +:+ mid +:+ post)) = false ->
     get_program_name (pre +:+ mid +:+ post) = "Transporter") /\
  (forall p,
     Py.contains "android studio" (Py.lower p) = false ->
     Py.contains "transporter" (Py.lower p) = false ->
     get_program_name p = "Others") /\
  (forall p, get_program_name (Py.lower p) = get_program_name p).
Proof.
  split; [|split; [|split]].
  - intros Hmid. unfold get_program_name, KNOWN_PROGRAMS. cbn [find].
    change (Py.lower "Android Studio") with "android studio".
    rewrite !lower_app, Hmid, contains_middle. reflexivity.
  - intros Hmid Hno. unfold get_program_name, KNOWN_PROGRAMS. cbn [find].
    change (Py.lower "Android Studio") with "android studio".
    change (Py.lower "Transporter") with "transporter".
    rewrite Hno. rewrite !lower_app, Hmid, contains_middle. reflexivity.
  - intros p H1 H2. unfold get_program_name, KNOWN_PROGRAMS. cbn [find].
    change (Py.lower "Android Studio") with "android studio".
    change (Py.lower "Transporter") with "transporter".
    now rewrite H1, H2.
  - intros p. unfold get_program_name. now rewrite lower_idem.
Qed.

(** ** The operator's answers *)

Lemma read_levels_spec : forall typed r rest,
  read_levels_to_delete typed = (r, rest) ->
  (exists used, typed = used ++ rest) /\
  (forall e, r = Raise e -> e = EOFError /\ rest = []) /\
  (forall levels, r = Ok levels ->
     typed <> rest /\ forall l, In l levels -> In l TIERS).
Proof.
  induction typed as [|line lines IH]; intros r rest Hread; cbn [read_levels_to_delete] in Hread.
  - injection Hread as <- <-. split; [now exists []|]. split; [intros e [= <-]; auto | discriminate].
  - assert (Hneq : line :: lines <> lines).
    { intros Heq. apply (f_equal (@length string)) in Heq. cbn in Heq. lia. }
    assert (Hsuffix : forall used, lines = used ++ rest -> line :: lines <> rest).
    { intros used Hu Heq. apply (f_equal (@length string)) in Heq.
      rewrite Hu in Heq. cbn [length] in Heq. rewrite length_app in Heq. lia. }
    destruct (String.eqb _ "none").
    { injection Hread as <- <-. split; [now exists [line]|].
      split; [discriminate|]. intros levels [= <-]. split; [exact Hneq | intros l []]. }
    destruct (String.eqb _ "all").
    { injection Hread as <- <-. split; [now exists [line]|].
      split; [discriminate|]. intros levels [= <-]. split; [exact Hneq | auto]. }
    destruct (List.filter _ _) as [|l0 ls] eqn:Ef.
    + destruct (IH _ _ Hread) as ([used Hu] & He & Hok).
      split; [exists (line :: used); now rewrite Hu|]. split; [exact He|].
      intros levels Hl. split; [exact (Hsuffix used Hu)|]. exact (proj2 (Hok levels Hl)).
    + injection Hread as <- <-. split; [now exists [line]|].
      split; [discriminate|]. intros levels [= <-]. split; [exact Hneq|].
      intros l Hin. rewrite <- Ef in Hin. apply filter_In in Hin as [_ Hin].
      now apply str_in_In.
Qed.

Lemma read_programs_spec valid : forall typed r rest,
  read_programs_to_keep valid typed = (r, rest) ->
  (exists used, typed = used ++ rest) /\
  (forall e, r = Raise e -> e = EOFError /\ rest = []) /\
  (forall keep, r = Ok keep ->
     typed <> rest /\ forall p, In p keep -> In p valid).
Proof.
  induction typed as [|line lines IH]; intros r rest Hread;
    cbn [read_programs_to_keep] in Hread.
  - injection Hread as <- <-. split; [now exists []|]. split; [intros e [= <-]; auto | discriminate].
  - assert (Hneq : line :: lines <> lines).
    { intros Heq. apply (f_equal (@length string)) in Heq. cbn in Heq. lia. }
    assert (Hsuffix : forall used, lines = used ++ rest -> line :: lines <> rest).
    { intros used Hu Heq. apply (f_equal (@length string)) in Heq.
      rewrite Hu in Heq. cbn [length] in Heq. rewrite length_app in Heq. lia. }
    destruct (String.eqb _ "none").
    { injection Hread as <- <-. split; [now exists [line]|].
      split; [discriminate|]. intros keep [= <-]. split; [exact Hneq | intros p []]. }
    destruct (String.eqb _ "all").
    { injection Hread as <- <-. split; [now exists [line]|].
      split; [discriminate|]. intros keep [= <-]. split; [exact Hneq | auto]. }
    destruct (List.filter _ (map Py.strip _)) as [|p0 ps] eqn:Ef.
    + destruct (IH _ _ Hread) as ([used Hu] & He & Hok).
      split; [exists (line :: used); now rewrite Hu|]. split; [exact He|].
      intros keep Hk. split; [exact (Hsuffix used Hu)|]. exact (proj2 (Hok keep Hk)).
    + injection Hread as <- <-. split; [now exists [line]|].
      split; [discriminate|]. intros keep [= <-]. split; [exact Hneq|].
      intros p Hin. now apply filter_In in Hin as [Hin _].
Qed.

Lemma tier_named_spec w t :
  tier_named w = Some t <-> In t TIERS /\ Py.lower w = Py.lower t.
Proof.
  unfold tier_named, TIERS. cbn [In]. split.
  - destruct (String.eqb_spec (Py.lower w) "low") as [E|_];
      [intros [= <-]; rewrite E; auto|].
    destruct (String.eqb_spec (Py.lower w) "medium") as [E|_];
      [intros [= <-]; rewrite E; auto|].
    destruct (String.eqb_spec (Py.lower w) "high") as [E|_];
      [intros [= <-]; rewrite E; auto 6|].
    discriminate.
  - intros [[<- | [<- | [<- | []]]] E];
      change (Py.lower "Low") with "low" in E;
      change (Py.lower "Medium") with "medium" in E;
      change (Py.lower "High") with "high" in E; now rewrite E.
Qed.

(** X6. The levels prompt is repeated until a line is an answer: a line
    that is neither none nor all and names no tier is passed over, the
    first line that is an answer decides, and the end of the input is
    the only error. An answer holds tiers only: none of them for none,
    the three for all, and otherwise the tiers its comma-separated items
    spell, blanks around them and letter case ignored. *)
Theorem X6_levels_are_tiers (stdin : list string) :
  read_levels_to_delete stdin =
    match first_reply tiers_reply stdin with
    | Some (levels, rest) => (Ok levels, rest)
    | None => (Raise EOFError, [])
    end /\
  (forall line rest, tiers_reply line = None ->
     read_levels_to_delete (line :: rest) = read_levels_to_delete rest) /\
  (forall line rest levels, tiers_reply line = Some levels ->
     read_levels_to_delete (line :: rest) = (Ok levels, rest) /\
     Forall (fun l => In l TIERS) levels) /\
  (forall line levels, said line <> "none" -> said line <> "all" ->
     tiers_reply line = Some levels ->
     forall t, In t levels <->
       In t TIERS /\ exists w, In w (items_of line) /\ Py.lower w = Py.lower t) /\
  (forall line, said line = "none" -> tiers_reply line = Some []) /\
  (forall line, said line = "all" -> tiers_reply line = Some TIERS).
Proof.
  split; [apply read_levels_first_reply|].
  split; [|split; [|split; [|split]]].
  - intros line rest Hn. rewrite !read_levels_first_reply. cbn [first_reply]. now rewrite Hn.
  - intros line rest levels Hl. rewrite read_levels_first_reply. cbn [first_reply].
    rewrite Hl. split; [reflexivity | exact (tiers_reply_tiers line levels Hl)].
  - intros line levels Hnone Hall. unfold tiers_reply.
    apply String.eqb_neq in Hnone, Hall. rewrite Hnone, Hall.
    destruct (omap tier_named (items_of line)) as [|l ls] eqn:E; [discriminate|].
    intros [= <-] t. rewrite <- E. rewrite <- list_elem_of_In, list_elem_of_omap. split.
    + intros (w & Hw & Ht). apply tier_named_spec in Ht as [Ht Hlow].
      split; [exact Ht|]. exists w. split; [now apply list_elem_of_In | exact Hlow].
    + intros (Ht & w & Hw & Hlow). exists w.
      split; [now apply list_elem_of_In | now apply tier_named_spec].
  - intros line Hs. unfold tiers_reply. now rewrite Hs.
  - intros line Hs. unfold tiers_reply. now rewrite Hs.
Qed.

(** X7. The keep prompt is repeated until a line is an answer: a line
    that is neither none nor all and names no program that has records
    is passed over, the first line that is an answer decides, and the
    end of the input is the only error. An answer holds programs that
    have records only, in their own order: none of them for none, all of
    them for all, and otherwise those whose lower-cased name is one of
    the comma-separated items of the line, blanks around them and letter
    case ignored. *)
Theorem X7_kept_programs_are_valid (valid_programs stdin : list string) :
  read_programs_to_keep valid_programs stdin =
    match first_reply (keep_reply valid_programs) stdin with
    | Some (keep, rest) => (Ok keep, rest)
    | None => (Raise EOFError, [])
    end /\
  (forall line rest, keep_reply valid_programs line = None ->
     read_programs_to_keep valid_programs (line :: rest)
       = read_programs_to_keep valid_programs rest) /\
  (forall line rest keep, keep_reply valid_programs line = Some keep ->
     read_programs_to_keep valid_programs (line :: rest) = (Ok keep, rest) /\
     forall p, In p keep -> In p valid_programs) /\
  (forall line keep, said line <> "none" -> said line <> "all" ->
     keep_reply valid_programs line = Some keep ->
     keep = List.filter (fun p => Py.str_in (Py.lower p) (items_of line)) valid_programs /\
     forall p, In p keep <-> In p valid_programs /\ In (Py.lower p) (items_of line)) /\
  (forall line, said line = "none" -> keep_reply valid_programs line = Some []) /\
  (forall line, said line = "all" -> keep_reply valid_programs line = Some valid_programs).
Proof.
  split; [apply read_programs_first_reply|].
  split; [|split; [|split; [|split]]].
  - intros line rest Hn. rewrite !read_programs_first_reply. cbn [first_reply].
    now rewrite Hn.
  - intros line rest keep Hl. rewrite read_programs_first_reply. cbn [first_reply].
    rewrite Hl. split; [reflexivity | exact (keep_reply_valid _ line keep Hl)].
  - intros line keep Hnone Hall. unfold keep_reply.
    apply String.eqb_neq in Hnone, Hall. rewrite Hnone, Hall.
    destruct (List.filter _ valid_programs) as [|v vs] eqn:E; [discriminate|].
    intros [= <-]. split; [reflexivity|]. intros p. rewrite <- E.
    rewrite filter_In. now rewrite str_in_In.
  - intros line Hs. unfold keep_reply. now rewrite Hs.
  - intros line Hs. unfold keep_reply. rewrite Hs. reflexivity.
Qed.

Lemma select_files_consumes keep : forall items typed r rest,
  select_files keep items typed = (r, rest) -> exists used, typed = used ++ rest.
Proof.
  induction items as [|[program files] items IH]; intros typed r rest Hsel;
    cbn [select_files] in Hsel.
  - injection Hsel as _ <-. now exists [].
  - destruct files as [|f0 files0]; [eauto|].
    destruct (Py.str_in program keep); [eauto|].
    destruct (read_levels_to_delete typed) as [[levels|e] typed1] eqn:Er.
    + destruct (proj1 (read_levels_spec _ _ _ Er)) as [u1 ->].
      destruct (select_files keep items typed1) as [[[chosen moved]|e] typed2] eqn:Es;
        injection Hsel as _ <-; destruct (IH _ _ _ Es) as [u2 ->];
        exists (u1 ++ u2); now rewrite app_assoc.
    + injection Hsel as _ <-. exact (proj1 (read_levels_spec _ _ _ Er)).
Qed.

(** The review reads the operator's lines in order and leaves a tail of
    them. *)
Lemma display_and_filter_files_consumes groups typed r rest :
  display_and_filter_files groups typed = (r, rest) -> exists used, typed = used ++ rest.
Proof.
  unfold display_and_filter_files, review_files. intros Hd.
  destruct groups as [|g groups]; [injection Hd as _ <-; now exists []|].
  destruct (map fst (List.filter _ (g :: groups))) as [|v valid];
    [injection Hd as _ <-; now exists []|].
  destruct (read_programs_to_keep (v :: valid) typed) as [[keep|e] typed1] eqn:Er.
  - destruct (proj1 (read_programs_spec _ _ _ _ Er)) as [u1 ->].
    destruct (select_files keep (g :: groups) typed1) as [[[chosen moved]|e] typed2] eqn:Es;
      injection Hd as _ <-; destruct (select_files_consumes _ _ _ _ _ Es) as [u2 ->];
      exists (u1 ++ u2); now rewrite app_assoc.
  - injection Hd as _ <-. exact (proj1 (read_programs_spec _ _ _ _ Er)).
Qed.

Lemma select_files_all_kept keep : forall items typed,
  (forall p, In p (programs_with_files items) -> In p keep) ->
  select_files keep items typed = (Ok ([], []), typed).
Proof.
  induction items as [|[program files] items IH]; intros typed Hkept; [reflexivity|].
  cbn [select_files]. destruct files as [|f0 files0].
  - apply IH. exact Hkept.
  - assert (Hin : Py.str_in program keep = true).
    { apply str_in_In, Hkept. unfold programs_with_files. cbn. now left. }
    rewrite Hin. apply IH. intros p Hp. apply Hkept.
    unfold programs_with_files in *. cbn. now right.
Qed.

(** X8. When the operator answers "all" (in any case, with any blanks
    around) to the keep prompt, every program is kept: nothing is
    selected, no level is asked about, and only that one line is read. *)
Theorem X8_keeping_all_selects_nothing (groups : program_groups) (line : string)
  (rest : list string) :
  answers_with "all" line ->
  programs_with_files groups <> [] ->
  review_files groups (line :: rest) =
    (Ok {| programs_to_keep := programs_with_files groups;
           levels_chosen := []; to_move := [] |}, rest) /\
  display_and_filter_files groups (line :: rest) = (Ok [], rest).
Proof.
  intros Hall Hvalid.
  assert (Hrev : review_files groups (line :: rest) =
            (Ok {| programs_to_keep := programs_with_files groups;
                   levels_chosen := []; to_move := [] |}, rest)).
  { unfold review_files. destruct groups as [|g groups]; [now destruct Hvalid|].
    fold (programs_with_files (g :: groups)).
    destruct (programs_with_files (g :: groups)) as [|v valid] eqn:Ev; [contradiction|].
    cbn [read_programs_to_keep]. unfold answers_with in Hall. rewrite Hall.
    change (String.eqb "all" "none") with false. change (String.eqb "all" "all") with true.
    cbv iota. rewrite select_files_all_kept; [reflexivity|].
    intros p Hp. now rewrite <- Ev. }
  split; [exact Hrev|]. unfold display_and_filter_files. now rewrite Hrev.
Qed.

Lemma files_at_all_levels files :
  Forall (fun f => json_in (importance f) TIERS = true) files ->
  files_at_levels TIERS files = files.
Proof.
  induction 1 as [|f files Hf _ IH]; [reflexivity|].
  unfold files_at_levels in *. cbn [List.filter]. now rewrite Hf, IH.
Qed.

Lemma select_files_everything : forall items alls rest,
  length alls = length (programs_with_files items) ->
  Forall (answers_with "all") alls ->
  Forall (fun f => json_in (importance f) TIERS = true) (concat (map snd items)) ->
  select_files [] items (alls ++ rest) =
    (Ok (map (fun p => (p, TIERS)) (programs_with_files items), concat (map snd items)), rest).
Proof.
  induction items as [|[program files] items IH]; intros alls rest Hlen Halls Htiers.
  - destruct alls; [reflexivity | discriminate].
  - cbn [select_files map concat snd] in *. apply List.Forall_app in Htiers as [Hf Hrest].
    destruct files as [|f0 files0].
    + apply IH; assumption.
    + cbn [Py.str_in existsb].
      destruct alls as [|line alls]; [discriminate|].
      inversion Halls as [|? ? Hline Halls']; subst.
      unfold programs_with_files in Hlen. cbn in Hlen. injection Hlen as Hlen.
      cbn [app read_levels_to_delete]. unfold answers_with in Hline. rewrite Hline.
      change (String.eqb "all" "none") with false. change (String.eqb "all" "all") with true.
      cbv iota. rewrite (IH alls rest Hlen Halls' Hrest).
      rewrite (files_at_all_levels _ Hf). reflexivity.
Qed.

(** X9. When the operator keeps no program ("none") and answers "all"
    at the levels prompt of every program that has records, every
    record of every group is selected, in the order of the groups,
    provided the tiers of the records are among Low, Medium and High. *)
Theorem X9_deleting_all_selects_everything (groups : program_groups) (line : string)
  (alls rest : list string) :
  answers_with "none" line ->
  programs_with_files groups <> [] ->
  length alls = length (programs_with_files groups) ->
  Forall (answers_with "all") alls ->
  Forall (fun f => json_in (importance f) TIERS = true) (concat (map snd groups)) ->
  display_and_filter_files groups (line :: alls ++ rest)
    = (Ok (concat (map snd groups)), rest).
Proof.
  intros Hnone Hvalid Hlen Halls Htiers.
  unfold display_and_filter_files, review_files.
  destruct groups as [|g groups]; [now destruct Hvalid|].
  fold (programs_with_files (g :: groups)).
  destruct (programs_with_files (g :: groups)) as [|v valid] eqn:Ev; [contradiction|].
  cbn [read_programs_to_keep]. unfold answers_with in Hnone. rewrite Hnone.
  change (String.eqb "none" "none") with true. cbv iota.
  rewrite (select_files_everything (g :: groups) alls rest); [reflexivity | | assumption..].
  now rewrite Ev.
Qed.

(** ** Tiers *)

Lemma tier_medium : json_in (JStr "Medium") TIERS = true.
Proof. reflexivity. Qed.

Lemma validate_tier r c b :
  validate r = Ok (c, b) ->
  exists tier, c !! "importance" = Some tier /\ json_in tier TIERS = true.
Proof.
  unfold validate. destruct (all_keys_in r REQUIRED_KEYS) as [[|]|]; [| |discriminate].
  - destruct r as [| | | | | |d]; try discriminate.
    destruct (d !! "importance") as [tier|] eqn:Et; [|discriminate].
    destruct (json_in tier TIERS) eqn:Hin; cbn [negb]; intros [= <- <-].
    + exists tier. auto.
    + exists (JStr "Medium"). split; [apply lookup_insert_eq | reflexivity].
  - intros [= <- <-]. exists (JStr "High"). split; reflexivity.
Qed.

Lemma classification_tier oracle :
  exists tier, classification_of oracle !! "importance" = Some tier /\
               json_in tier TIERS = true.
Proof.
  unfold classification_of.
  destruct (deciding_outcome oracle (seq 0 3)) as [[| e | e | r]|];
    cbn [outcome_classification]; try (exists (JStr "High"); split; reflexivity).
  destruct (validate r) as [[c b]|e] eqn:Ev;
    [exact (validate_tier r c b Ev) | exists (JStr "High"); split; reflexivity].
Qed.

Lemma collect_all_result {World} total results st (s : @state World) agg s' :
  collect_all total results st s = (Ok agg, s') ->
  collect_list (delivered results) st = Ok agg /\ first_failure results = None.
Proof.
  intros Hrun.
  assert (Hpost : post (@collect_all World total results st) (fun _ _ => True)
                    (fun agg => collect_list (delivered results) st = Ok agg /\
                                first_failure results = None)).
  { apply collect_all_post; auto. }
  destruct (Hpost _ _ _ Hrun) as [_ HQ]. now apply HQ.
Qed.

(** X10. The tier an invocation returns is always Low, Medium or High,
    whatever the oracle answered, and so is the tier of every record the
    aggregation loop stores in [to_delete] and in the groups. *)
Theorem X10_tiers_are_valid (num_threads : nat) (setup : nat -> option exn)
  (oracle : nat -> nat -> api_outcome)
  (order : list nat) (files : list metadata)
  (World : Type) (s : @state World) (agg : aggregate) (s' : @state World) :
  collect_all (length files) (pool_results num_threads setup oracle order files)
    initial_aggregate s = (Ok agg, s') ->
  (forall i m tid,
     exists evs c tier,
       classify_file_with_openai None (oracle i) m tid = Ok (evs, (m, c)) /\
       c !! "importance" = Some tier /\
       json_in tier TIERS = true) /\
  Forall (fun x => json_in (importance x) TIERS = true) (to_delete agg) /\
  Forall (fun x => json_in (importance x) TIERS = true)
         (concat (map snd (program_files agg))).
Proof.
  intros Hrun. pose proof (collect_all_result _ _ _ _ _ _ Hrun) as [Hagg _].
  assert (Hacc : forall x, accepted_record oracle files x ->
                   json_in (importance x) TIERS = true).
  { intros x (i & m & _ & _ & _ & ->). unfold attach. cbn [importance snd].
    destruct (classification_tier (oracle i)) as (tier & -> & Ht). exact Ht. }
  destruct (aggregate_of_pool num_threads setup oracle order files)
    as (agg' & Hagg' & Hd & Hg & _).
  cbv zeta in Hagg', Hd, Hg. rewrite Hagg in Hagg'. injection Hagg' as <-.
  split; [|split].
  - intros i m tid.
    pose proof (classify_returns None (oracle i) m tid) as Hr.
    destruct (classify_file_with_openai None (oracle i) m tid) as [[evs res]|e];
      [|discriminate].
    cbn [future_result] in Hr. injection Hr as ->.
    destruct (classification_tier (oracle i)) as (tier & Ht & Hin).
    exists evs, (classification_of (oracle i)), tier. auto.
  - apply List.Forall_forall. intros x Hx. apply Hacc.
    rewrite Hd in Hx. apply in_map_iff in Hx as (res & <- & Hin).
    apply filter_In in Hin as [Hin Hr]. apply in_pool_results in Hin as (i & m & Hi & ->).
    exists i, m. repeat split; try assumption. exact (retained_not_failed _ _ Hr).
  - rewrite Hg. unfold three_groups. cbn [map snd concat]. rewrite app_nil_r.
    rewrite !List.Forall_app. repeat split; apply List.Forall_forall; intros x Hx;
      apply Hacc; eapply members_accepted; exact Hx.
Qed.

(** ** Runs of [cleanup_files] that touch nothing *)

Section QuietSteps.

Context {World : Type}.

Lemma bind_inv {A B} (m : @M World A) (k : A -> M B) s r s' :
  bind m k s = (r, s') ->
  (exists a s1, m s = (Ok a, s1) /\ k a s1 = (r, s')) \/
  (exists e, m s = (Raise e, s') /\ r = Raise e).
Proof.
  unfold bind. destruct (m s) as [[a|e] s1]; intros H.
  - left. eauto.
  - right. injection H as <- <-. eauto.
Qed.

Lemma log_quiet lvl line (s : @state World) r s' :
  log lvl line s = (r, s') -> only_logged s s' /\ stdin s' = stdin s.
Proof. intros [= <- <-]. split; [apply only_logged_log | reflexivity]. Qed.

Lemma collect_all_quiet total results st (s : @state World) r s' :
  collect_all total results st s = (r, s') -> only_logged s s' /\ stdin s' = stdin s.
Proof.
  intros Hrun.
  assert (Hpost : post (@collect_all World total results st)
                    (fun s s' => only_logged s s' /\ stdin s' = stdin s) (fun _ => True)).
  { eapply post_weaken; [apply collect_all_post | auto].
    - intros s0. split; [apply only_logged_refl | reflexivity].
    - intros s1 s2 s3 [H12 E12] [H23 E23].
      split; [eapply only_logged_trans; eassumption | congruence].
    - intros s0 lvl line. split; [apply only_logged_log | reflexivity]. }
  exact (proj1 (Hpost _ _ _ Hrun)).
Qed.

Lemma reading_quiet {A} (f : list string -> py_result A * list string)
  (s : @state World) r s' :
  reading f s = (r, s') -> only_logged s s' /\ f (stdin s) = (r, stdin s').
Proof.
  unfold reading. destruct (f (stdin s)) as [r0 rest]. intros [= <- <-].
  split; [apply only_logged_read | reflexivity].
Qed.

Lemma input_quiet (s : @state World) r s' :
  input s = (r, s') ->
  only_logged s s' /\
  ((r = Raise EOFError /\ stdin s = []) \/
   (exists line, r = Ok line /\ stdin s = line :: stdin s')).
Proof.
  unfold input. destruct (stdin s) as [|line rest] eqn:E; intros [= <- <-].
  - split; [apply only_logged_refl | left; auto].
  - split; [apply (only_logged_read s rest) | right; exists line; auto].
Qed.

End QuietSteps.

(** X11. Without a line of the operator that reads "y" (in either
    case), a run of [cleanup_files] makes no filesystem call: whether
    the operator declines, answers something else or the input ends,
    the filesystem is left as it was and only log lines are written. *)
Theorem X11_nothing_moves_without_yes (World : Type)
  (perform : syscall -> World -> option string * World)
  (DRY_RUN : bool) (HOME cwd : string)
  (setup : nat -> option exn)
  (oracle : nat -> nat -> api_outcome) (order : list nat) (files : list metadata)
  (s : @state World) (r : py_result unit) (s' : @state World) :
  Forall (fun line => Py.lower line <> "y") (stdin s) ->
  cleanup_files perform DRY_RUN HOME cwd setup oracle order files s = (r, s') ->
  world s' = world s /\
  exists evs, trace s' = trace s ++ evs /\ Forall is_logged evs.
Proof.
  intros Hno Hrun. change (only_logged s s'). unfold cleanup_files in Hrun.
  apply bind_inv in Hrun as [(a1 & s1 & H1 & Hrun) | (e & H1 & _)];
    [|exact (proj1 (log_quiet _ _ _ _ _ H1))].
  apply log_quiet in H1 as [L1 E1].
  apply bind_inv in Hrun as [(agg & s2 & H2 & Hrun) | (e & H2 & _)];
    [|apply collect_all_quiet in H2 as [L2 _]; eapply only_logged_trans; eassumption].
  apply collect_all_quiet in H2 as [L2 E2].
  pose proof (only_logged_trans _ _ _ L1 L2) as L12.
  apply bind_inv in Hrun as [(a3 & s3 & H3 & Hrun) | (e & H3 & _)];
    [|apply log_quiet in H3 as [L3 _]; eapply only_logged_trans; eassumption].
  apply log_quiet in H3 as [L3 E3].
  pose proof (only_logged_trans _ _ _ L12 L3) as L13.
  destruct (to_delete agg).
  { apply log_quiet in Hrun as [L4 _]. eapply only_logged_trans; eassumption. }
  apply bind_inv in Hrun as [(moving & s4 & H4 & Hrun) | (e & H4 & _)];
    [|apply reading_quiet in H4 as [L4 _]; eapply only_logged_trans; eassumption].
  apply reading_quiet in H4 as [L4 E4].
  pose proof (only_logged_trans _ _ _ L13 L4) as L14.
  destruct moving as [|x moving].
  { apply log_quiet in Hrun as [L5 _]. eapply only_logged_trans; eassumption. }
  apply bind_inv in Hrun as [(a5 & s5 & H5 & Hrun) | (e & H5 & _)];
    [|apply log_quiet in H5 as [L5 _]; eapply only_logged_trans; eassumption].
  apply log_quiet in H5 as [L5 E5].
  pose proof (only_logged_trans _ _ _ L14 L5) as L15.
  apply bind_inv in Hrun as [(confirm & s6 & H6 & Hrun) | (e & H6 & _)];
    [|apply input_quiet in H6 as [L6 _]; eapply only_logged_trans; eassumption].
  apply input_quiet in H6 as [L6 [[Hr _] | (line & Hr & Hline)]]; [discriminate|].
  injection Hr as ->.
  pose proof (only_logged_trans _ _ _ L15 L6) as L16.
  assert (Hconfirm : Py.lower line <> "y").
  { destruct (display_and_filter_files_consumes _ _ _ _ E4) as [used Hused].
    rewrite List.Forall_forall in Hno. apply Hno.
    rewrite <- E1, <- E2, <- E3, Hused, <- E5, Hline.
    apply in_app_iff. right. now left. }
  apply String.eqb_neq in Hconfirm. rewrite Hconfirm in Hrun. cbn [negb] in Hrun.
  apply log_quiet in Hrun as [L7 _]. eapply only_logged_trans; eassumption.
Qed.

Lemma bind_ok {World A B} (m : @M World A) (k : A -> M B) s a s1 :
  m s = (Ok a, s1) -> bind m k s = k a s1.
Proof. intros H. unfold bind. now rewrite H. Qed.



(** ** Partial failure of the relocation *)

Lemma relpath_of_nonempty cwd p start :
  p <> "" -> exists rel, PosixPath.relpath cwd p start = Some rel.
Proof.
  intros Hp. unfold PosixPath.relpath. destruct p; [contradiction|].
  destruct (PosixPath.rel_list _ _); eauto.
Qed.

Lemma reported_app evs evs' : reported (evs ++ evs') = reported evs ++ reported evs'.
Proof. unfold reported. apply omap_app. Qed.

Lemma move_to_backup_reports {World} (perform : syscall -> World -> option string * World)
  HOME cwd p (s : @state World) :
  p <> "" ->
  exists r s' evs,
    move_to_backup perform false HOME cwd p s = (Ok r, s') /\
    trace s' = trace s ++ evs /\ stdin s' = stdin s /\
    reported evs = [p] /\
    (forall src dst, In (Logged INFO (Moved src dst)) evs -> In (Did (Move src dst) None) evs).
Proof.
  intros Hp. destruct (relpath_of_nonempty cwd p (PosixPath.expanduser HOME "~") Hp) as [rel Hrel].
  rewrite (move_to_backup_run perform false HOME cwd p rel s Hrel).
  unfold move_to_backup_outcome.
  destruct (perform (Makedirs _) (world s)) as [[e|] w1].
  - eexists _, _, _. split; [reflexivity|]. split; [reflexivity|]. split; [reflexivity|].
    split; [reflexivity|]. intros src dst [H | [H | []]]; discriminate.
  - destruct (perform (Move _ _) w1) as [[e|] w2];
      (eexists _, _, _; split; [reflexivity|]; split; [reflexivity|]; split; [reflexivity|];
       split; [reflexivity|]).
    + intros src dst [H | [H | [H | []]]]; discriminate.
    + intros src dst [H | [H | [H | []]]]; try discriminate.
      injection H as <- <-. right. now left.
Qed.

(** X13. A failure to create a directory or to move one record does not
    stop the relocation: for records with a path, the loop never raises,
    reads no input and reports every record once, in order, as moved or
    as failed; and it reports as moved only what a successful
    [shutil.move] moved. *)
Theorem X13_relocation_goes_on (World : Type)
  (perform : syscall -> World -> option string * World) (HOME cwd : string)
  (moving : list classified) (s : @state World) :
  Forall (fun md => path (file md) <> "") moving ->
  exists s' evs,
    relocate perform false HOME cwd moving s = (Ok tt, s') /\
    trace s' = trace s ++ evs /\ stdin s' = stdin s /\
    reported evs = map (fun md => path (file md)) moving /\
    (forall src dst, In (Logged INFO (Moved src dst)) evs -> In (Did (Move src dst) None) evs).
Proof.
  intros Hall. revert s. induction Hall as [|md rest Hmd _ IH]; intros s.
  - exists s, []. cbn. rewrite app_nil_r. repeat split. intros ? ? [].
  - destruct (move_to_backup_reports perform HOME cwd _ s Hmd)
      as (r1 & s1 & evs1 & Hrun1 & T1 & E1 & R1 & M1).
    destruct (IH s1) as (s' & evs2 & Hrun2 & T2 & E2 & R2 & M2).
    exists s', (evs1 ++ evs2). split; [|split; [|split; [|split]]].
    + cbn [relocate]. unfold bind at 1. unfold bind at 1. rewrite Hrun1.
      unfold ret. exact Hrun2.
    + now rewrite T2, T1, app_assoc.
    + congruence.
    + rewrite reported_app, R1, R2. reflexivity.
    + intros src dst Hin. apply in_app_iff. apply in_app_iff in Hin as [Hin | Hin];
        [left; now apply M1 | right; now apply M2].
Qed.

(** ** Answers that are no object *)

Lemma validate_non_object r :
  (forall d, r <> JObj d) ->
  (exists e, validate r = Raise e) \/
  validate r = Ok (fail_safe "Invalid JSON structure", false).
Proof.
  intros Hno. unfold validate.
  destruct (all_keys_in r REQUIRED_KEYS) as [[|]|]; [|now right|left; eauto].
  destruct r as [| | | | | |d]; try (left; eauto). now destruct (Hno d).
Qed.

(** X14. An answer that decodes to something other than an object (a
    number, null, a list, or a string, even one that holds the three
    key names) never passes the validation: the invocation ends with a
    fail-safe classification and the record is not retained. *)
Theorem X14_non_object_is_fail_safe (oracle : nat -> api_outcome) (m : metadata)
  (tid k : nat) (r : json) :
  k < 3 ->
  rate_limited_below oracle k ->
  oracle k = Loaded r ->
  (forall d, r <> JObj d) ->
  exists evs why,
    classify_file_with_openai None oracle m tid = Ok (evs, (m, fail_safe why)) /\
    retained (m, fail_safe why) = false.
Proof.
  intros Hk Hrl Ho Hno.
  destruct (classify_after_rate_limits oracle m tid k Hk Hrl) as (evs & c & Hb & Heq);
    [rewrite Ho; discriminate|].
  rewrite Heq. rewrite Ho in Hb. cbn [attempt_body] in Hb.
  assert (Hc : exists why, c = fail_safe why).
  { destruct (validate_non_object r Hno) as [[e He] | He]; rewrite He in Hb;
      injection Hb as _ <-; eauto. }
  destruct Hc as [why ->]. eexists _, why. split; reflexivity.
Qed.

(** ** [to_delete] and the groups *)

Lemma retained_split results :
  Permutation (map attach (List.filter retained results))
    (members_for "Android Studio" results ++ members_for "Transporter" results
       ++ members_for "Others" results).
Proof.
  induction results as [|res rest IH]; [constructor|].
  rewrite !(members_for_cons _ res rest). cbn [List.filter].
  destruct (retained res); cbn [andb map]; [|exact IH].
  destruct (get_program_name_cases (path (fst res))) as [E | [E | E]]; rewrite E.
  - cbn. now constructor.
  - cbn. now apply Permutation_cons_app.
  - cbn. rewrite app_assoc. apply Permutation_cons_app. now rewrite <- app_assoc.
Qed.

(** X15. After the aggregation loop [to_delete] and the groups hold the
    same records: every retained record lies in exactly one group, so
    the sizes of the groups add up to the size of [to_delete]. *)
Theorem X15_groups_partition_to_delete (num_threads : nat) (setup : nat -> option exn)
  (oracle : nat -> nat -> api_outcome) (order : list nat) (files : list metadata)
  (World : Type) (s : @state World) (agg : aggregate) (s' : @state World) :
  collect_all (length files) (pool_results num_threads setup oracle order files)
    initial_aggregate s = (Ok agg, s') ->
  Permutation (to_delete agg) (concat (map snd (program_files agg))) /\
  length (to_delete agg) = list_sum (map (fun it => length (snd it)) (program_files agg)).
Proof.
  intros Hrun. pose proof (collect_all_result _ _ _ _ _ _ Hrun) as [Hagg _].
  destruct (aggregate_of_pool num_threads setup oracle order files)
    as (agg' & Hagg' & Hd & Hg & _).
  cbv zeta in Hagg', Hd, Hg. rewrite Hagg in Hagg'. injection Hagg' as <-.
  assert (Hperm : Permutation (to_delete agg) (concat (map snd (program_files agg)))).
  { rewrite Hd, Hg. unfold three_groups. cbn [map snd concat]. rewrite app_nil_r.
    apply retained_split. }
  split; [exact Hperm|].
  rewrite (Permutation_length Hperm), Hg. unfold three_groups.
  cbn [map snd concat list_sum fold_right]. rewrite !length_app. cbn [length]. lia.
Qed.

(** ** Sleeping and thread numbers *)

Lemma total_sleep_app evs evs' :
  (total_sleep (evs ++ evs') = total_sleep evs + total_sleep evs')%N.
Proof.
  induction evs as [|ev evs IH]; [reflexivity|].
  cbn [app total_sleep]. destruct ev; rewrite IH; lia.
Qed.

Lemma retry_sleep tid p :
  total_sleep [ThreadLog tid WARNING (RateLimitHit p); Sleep 5000; Sleep 100] = 5100%N.
Proof. vm_compute. reflexivity. Qed.

Lemma attempt_body_sleep tid m o :
  total_sleep (fst (attempt_body tid m o)) =
    match o with RateLimitError => 5100%N | _ => 0%N end.
Proof.
  destruct o as [| e | e | r]; [apply retry_sleep | reflexivity | reflexivity |].
  cbn [attempt_body]. destruct (validate r) as [[c [|]]|e]; reflexivity.
Qed.

Lemma attempts_sleep oracle tid m : forall range,
  (total_sleep (fst (attempts oracle tid m range)) <= 5100 * N.of_nat (length range))%N.
Proof.
  induction range as [|a rest IH]; [cbn [attempts fst total_sleep length]; lia|].
  cbn [attempts]. pose proof (attempt_body_sleep tid m (oracle a)) as Hb.
  change (length (a :: rest)) with (S (length rest)). rewrite Nat2N.inj_succ.
  destruct (attempt_body tid m (oracle a)) as [evs [c|]]; cbn [fst] in Hb |- *.
  - change (Request a :: evs) with ([Request a] ++ evs). rewrite total_sleep_app, Hb.
    change (total_sleep [Request a]) with 0%N. destruct (oracle a); lia.
  - destruct (attempts oracle tid m rest) as [evs' c]. cbn [fst] in IH |- *.
    change (Request a :: evs ++ evs') with ([Request a] ++ evs ++ evs').
    rewrite !total_sleep_app, Hb.
    change (total_sleep [Request a]) with 0%N. destruct (oracle a); lia.
Qed.

(** X16. An invocation sleeps at most 15.3 seconds in all (three
    cooldowns of five seconds and three pauses of a tenth), and not at
    all when its first attempt does not meet the rate limit. *)
Theorem X16_sleep_is_bounded (setup : option exn) (oracle : nat -> api_outcome)
  (m : metadata) (tid : nat) :
  (total_sleep (worker_events (classify_file_with_openai setup oracle m tid)) <= 15300)%N /\
  (oracle 0 <> RateLimitError ->
   total_sleep (worker_events (classify_file_with_openai setup oracle m tid)) = 0%N).
Proof.
  destruct setup as [e|]; [split; [cbn; lia | reflexivity]|].
  split.
  - unfold classify_file_with_openai.
    pose proof (attempts_sleep oracle tid m (seq 0 3)) as H.
    destruct (attempts oracle tid m (seq 0 3)) as [evs c]. cbn [fst worker_events] in *.
    change (N.of_nat (length (seq 0 3))) with 3%N in H. lia.
  - intros Hne.
    destruct (classify_after_rate_limits oracle m tid 0 ltac:(lia)
                ltac:(intros j Hj; lia) Hne) as (evs & c & Hb & ->).
    cbn [worker_events seq flat_map app]. change (Request 0 :: evs) with ([Request 0] ++ evs).
    rewrite total_sleep_app. pose proof (attempt_body_sleep tid m (oracle 0)) as Hs.
    rewrite Hb in Hs. cbn [fst] in Hs. rewrite Hs.
    change (total_sleep [Request 0]) with 0%N. now destruct (oracle 0).
Qed.

Lemma thread_ids_app evs evs' : thread_ids (evs ++ evs') = thread_ids evs ++ thread_ids evs'.
Proof. unfold thread_ids. apply omap_app. Qed.

Lemma attempt_body_thread tid m o :
  Forall (fun t => t = tid) (thread_ids (fst (attempt_body tid m o))).
Proof.
  destruct o as [| e | e | r]; try (repeat constructor).
  cbn [attempt_body]. destruct (validate r) as [[c [|]]|e]; repeat constructor.
Qed.

Lemma attempts_thread oracle tid m : forall range,
  Forall (fun t => t = tid) (thread_ids (fst (attempts oracle tid m range))).
Proof.
  induction range as [|a rest IH]; [repeat constructor|].
  cbn [attempts]. pose proof (attempt_body_thread tid m (oracle a)) as Hb.
  destruct (attempt_body tid m (oracle a)) as [evs [c|]]; cbn [fst] in Hb |- *.
  - exact Hb.
  - destruct (attempts oracle tid m rest) as [evs' c]. cbn [fst] in IH |- *.
    change (Request a :: evs ++ evs') with ([Request a] ++ evs ++ evs').
    rewrite !thread_ids_app. apply List.Forall_app. split; [constructor|].
    apply List.Forall_app. now split.
Qed.

(** X17. Records are dealt to the threads in turn: record number [i] of
    the batch is classified under thread number [i mod n + 1], a number
    from 1 to the size [n] of the pool, and every log line of its
    invocation carries that number. *)
Theorem X17_threads_in_turn (n : nat) (setup : nat -> option exn)
  (oracle : nat -> nat -> api_outcome)
  (files : list metadata) (i : nat) (evs : list worker_event)
  (res : metadata * gmap string json) :
  1 <= n ->
  submit_all n setup oracle files !! i = Some (Ok (evs, res)) ->
  Forall (fun t => t = i mod n + 1 /\ 1 <= t <= n) (thread_ids evs) /\
  files !! i = Some (fst res).
Proof.
  intros Hn Hi. unfold submit_all in Hi. rewrite list_lookup_imap in Hi.
  destruct (files !! i) as [m|] eqn:Hm; [|discriminate].
  cbn in Hi. injection Hi as Hi.
  destruct (classify_ok _ _ _ _ _ _ Hi) as [Hs ->]. cbn [fst]. split; [|reflexivity].
  rewrite Hs in Hi. unfold classify_file_with_openai in Hi.
  pose proof (attempts_thread (oracle i) (i mod n + 1) m (seq 0 3)) as Ht.
  destruct (attempts (oracle i) (i mod n + 1) m (seq 0 3)) as [evs0 c0].
  injection Hi as <- _. cbn [fst] in Ht.
  eapply List.Forall_impl; [|exact Ht]. intros t ->. split; [reflexivity|].
  pose proof (Nat.mod_upper_bound i n ltac:(lia)). lia.
Qed.

(** ** Directory structure below the backup root *)

(** X18. Below the home directory the move preserves the directory
    structure: the destination lies as deep below the backup root as the
    record lies below home (its path relative to the backup root is the
    record's path relative to home), and two different records below
    home never get the same destination. *)
Theorem X18_structure_is_preserved (cwd : string) (hs rs rs' : list string) :
  hs <> [] -> forallb is_clean hs = true ->
  rs <> [] -> forallb is_clean rs = true ->
  rs' <> [] -> forallb is_clean rs' = true ->
  let HOME := absolute hs in
  let home := PosixPath.expanduser HOME "~" in
  exists rel rel',
    PosixPath.relpath cwd (absolute (hs ++ rs)) home = Some rel /\
    PosixPath.relpath cwd (absolute (hs ++ rs')) home = Some rel' /\
    PosixPath.relpath cwd (PosixPath.join (BACKUP_DIR HOME) rel) (BACKUP_DIR HOME)
      = Some rel /\
    (PosixPath.join (BACKUP_DIR HOME) rel = PosixPath.join (BACKUP_DIR HOME) rel' ->
     absolute (hs ++ rs) = absolute (hs ++ rs')).
Proof.
  intros Hh Hhc Hr Hrc Hr' Hrc' HOME home. subst HOME home.
  destruct (destination_under_home cwd hs rs Hh Hhc Hr Hrc) as [Hrel Hdst].
  destruct (destination_under_home cwd hs rs' Hh Hhc Hr' Hrc') as [Hrel' Hdst'].
  exists (Py.join "/" rs), (Py.join "/" rs').
  split; [exact Hrel|]. split; [exact Hrel'|]. split.
  - rewrite Hdst, backup_dir_absolute by assumption.
    assert (Hb : hs ++ [BACKUP_NAME] <> []) by (destruct hs; discriminate).
    assert (Hbc : forallb is_clean (hs ++ [BACKUP_NAME]) = true).
    { rewrite forallb_app, Hhc. reflexivity. }
    unfold absolute at 1. rewrite app_string_assoc.
    change ("/" +:+ Py.join "/" (hs ++ [BACKUP_NAME]) +:+ "/" +:+ Py.join "/" rs)
      with ("/" +:+ (Py.join "/" (hs ++ [BACKUP_NAME]) +:+ "/" +:+ Py.join "/" rs)).
    rewrite <- join_app by assumption.
    change ("/" +:+ Py.join "/" ((hs ++ [BACKUP_NAME]) ++ rs))
      with (absolute ((hs ++ [BACKUP_NAME]) ++ rs)).
    rewrite relpath_absolute; try assumption.
    + rewrite rel_list_under. now destruct rs.
    + destruct hs; discriminate.
    + rewrite forallb_app, Hbc, Hrc. reflexivity.
  - rewrite Hdst, Hdst'. intros Heq.
    apply String.app_inj in Heq. apply String.app_inj in Heq.
    unfold absolute. rewrite !join_app by assumption. now rewrite Heq.
Qed.

(** ** The start of a run *)

Section Startup.

Context {World : Type}.
Variable perform : syscall -> World -> option string * World.
Variables (DRY_RUN : bool) (HOME cwd : string).
Variable os_exists : string -> bool.
Variable os_walk : string -> list (string * list string).
Variable os_stat : string -> option stat_result.

(** Scan directories that do not exist are passed over with a warning
    each. *)
Lemma scan_dirs_missing : forall dirs files total (s : @state World),
  (forall dir, In dir dirs -> os_exists dir = false) ->
  scan_dirs os_exists os_walk os_stat dirs files total s =
    (Ok (Scanning files total),
     wrote s (map (fun dir => Logged WARNING (DirectoryMissing dir)) dirs)).
Proof.
  induction dirs as [|dir rest IH]; intros files total s Hnone.
  - cbn [scan_dirs map]. unfold ret. now rewrite wrote_nil.
  - cbn [scan_dirs map]. rewrite (Hnone dir) by now left. cbn [negb].
    unfold bind at 1. unfold log at 1.
    fold (wrote s [Logged WARNING (DirectoryMissing dir)]).
    rewrite IH by (intros d Hd; apply Hnone; now right).
    now rewrite wrote_wrote.
Qed.

End Startup.

(** X19. When the backup directory cannot be created the run ends at
    once: the error is logged twice (by [setup_backup_dir] and as the
    unexpected error of the script), nothing is scanned or classified,
    no operator input is read and no other filesystem call is made. *)
Theorem X19_backup_root_failure_is_fatal (World : Type)
  (perform : syscall -> World -> option string * World)
  (DRY_RUN : bool) (HOME cwd : string)
  (os_exists : string -> bool) (os_walk : string -> list (string * list string))
  (os_stat : string -> option stat_result)
  (setup : nat -> option exn)
  (oracle : nat -> nat -> api_outcome) (order : list nat)
  (s : @state World) (e : string) (w : World) :
  perform (Makedirs (BACKUP_DIR HOME)) (world s) = (Some e, w) ->
  fst (main perform DRY_RUN HOME cwd os_exists os_walk os_stat setup oracle order s)
    = Raise (OSError e) /\
  run perform DRY_RUN HOME cwd os_exists os_walk os_stat setup oracle order s =
    {| world := w; stdin := stdin s;
       trace := trace s ++ [Logged INFO StartingCleanup;
                            Logged INFO (DryRunState DRY_RUN);
                            Did (Makedirs (BACKUP_DIR HOME)) (Some e);
                            Logged ERROR (BackupDirFailed e);
                            Logged ERROR (UnexpectedError e)] |}.
Proof.
  intros Hmk.
  assert (Hmain : main perform DRY_RUN HOME cwd os_exists os_walk os_stat setup oracle order s =
            (Raise (OSError e),
             {| world := w; stdin := stdin s;
                trace := trace s ++ [Logged INFO StartingCleanup;
                                     Logged INFO (DryRunState DRY_RUN);
                                     Did (Makedirs (BACKUP_DIR HOME)) (Some e);
                                     Logged ERROR (BackupDirFailed e)] |})).
  { unfold main, setup_backup_dir, bind, log, sys, raise. cbn [world stdin trace].
    rewrite Hmk. cbn [world stdin trace]. now rewrite <- !app_assoc. }
  split; [now rewrite Hmain|].
  unfold run. rewrite Hmain. cbn [world stdin trace exn_text]. now rewrite <- app_assoc.
Qed.

(** X20. When none of the scan directories exists the scanner warns
    about each of them, reports that it found no file and returns
    nothing; the run creates the backup directory, reports that no file
    was found and stops: nothing is classified and no operator input is
    read. *)
Theorem X20_nothing_to_scan (World : Type)
  (perform : syscall -> World -> option string * World)
  (DRY_RUN : bool) (HOME cwd : string)
  (os_exists : string -> bool) (os_walk : string -> list (string * list string))
  (os_stat : string -> option stat_result)
  (setup : nat -> option exn)
  (oracle : nat -> nat -> api_outcome) (order : list nat)
  (s : @state World) (w : World) :
  (forall dir, In dir (SCAN_DIRS HOME) -> os_exists dir = false) ->
  perform (Makedirs (BACKUP_DIR HOME)) (world s) = (None, w) ->
  let warnings := map (fun dir => Logged WARNING (DirectoryMissing dir)) (SCAN_DIRS HOME) in
  (forall s0 : @state World,
     scan_system_data HOME os_exists os_walk os_stat s0 =
       (Ok [], wrote s0 (warnings ++ [Logged INFO (FoundFiles 0 0)]))) /\
  run perform DRY_RUN HOME cwd os_exists os_walk os_stat setup oracle order s =
    {| world := w; stdin := stdin s;
       trace := trace s ++ [Logged INFO StartingCleanup;
                            Logged INFO (DryRunState DRY_RUN);
                            Did (Makedirs (BACKUP_DIR HOME)) None;
                            Logged INFO (BackupDirCreated (BACKUP_DIR HOME))]
                        ++ warnings
                        ++ [Logged INFO (FoundFiles 0 0); Logged INFO NoFilesFound] |}.
Proof.
  intros Hnone Hmk warnings.
  assert (Hscan : forall s0 : @state World,
            scan_system_data HOME os_exists os_walk os_stat s0 =
              (Ok [], wrote s0 (warnings ++ [Logged INFO (FoundFiles 0 0)]))).
  { intros s0. unfold scan_system_data. unfold bind at 1.
    rewrite (scan_dirs_missing os_exists os_walk os_stat _ _ _ s0 Hnone).
    fold warnings. unfold bind, log, ret. cbn [length wrote world stdin trace].
    now rewrite <- app_assoc. }
  split; [exact Hscan|].
  unfold run, main.
  set (s3 := {| world := w; stdin := stdin s;
                trace := trace s ++ [Logged INFO StartingCleanup;
                                     Logged INFO (DryRunState DRY_RUN);
                                     Did (Makedirs (BACKUP_DIR HOME)) None;
                                     Logged INFO (BackupDirCreated (BACKUP_DIR HOME))] |}).
  assert (Hstart : forall k : unit -> M unit,
            bind (log INFO StartingCleanup)
              (fun _ => bind (log INFO (DryRunState DRY_RUN))
                 (fun _ => bind (setup_backup_dir perform HOME) k)) s = k tt s3).
  { intros k. unfold setup_backup_dir, bind, log, sys. cbn [world stdin trace].
    rewrite Hmk. cbn [world stdin trace]. unfold s3. now rewrite <- !app_assoc. }
  rewrite Hstart. unfold bind at 1. rewrite Hscan.
  unfold log, wrote, s3. cbn [world stdin trace]. now rewrite <- !app_assoc.
Qed.

(** ** A worker that cannot start *)

Lemma first_failure_in {A} (futures : list (py_result A)) e :
  first_failure futures = Some e -> In (Raise e) futures.
Proof.
  induction futures as [|[a|e'] rest IH]; cbn [first_failure]; [discriminate | |].
  - intros H. right. now apply IH.
  - intros [= <-]. now left.
Qed.

(** X21. A call that cannot open its log file or build its client ends
    the run of [cleanup_files]: whatever the order in which the futures
    finish, the function raises the exception of such a call (of the
    first one the main thread comes to), the operator is asked nothing,
    no filesystem call is made and only log lines are written. *)
Theorem X21_failed_start_is_fatal (World : Type)
  (perform : syscall -> World -> option string * World)
  (DRY_RUN : bool) (HOME cwd : string)
  (setup : nat -> option exn) (oracle : nat -> nat -> api_outcome)
  (picks : list nat) (files : list metadata) (s : @state World)
  (i : nat) (m : metadata) (e : exn) :
  files !! i = Some m -> setup i = Some e ->
  exists e' s' evs,
    cleanup_files perform DRY_RUN HOME cwd setup oracle
      (completion_order picks (length files)) files s = (Raise e', s') /\
    (exists j m', files !! j = Some m' /\ setup j = Some e') /\
    world s' = world s /\ stdin s' = stdin s /\
    trace s' = trace s ++ evs /\ Forall is_logged evs.
Proof.
  intros Hm He. set (order := completion_order picks (length files)).
  destruct (pool_failure NUM_THREADS setup oracle order files i m e
              (completion_order_Permutation picks (length files)) Hm He) as [[e' Hf] _].
  destruct (aggregate_of_pool NUM_THREADS setup oracle order files) as (agg & Hagg & _).
  cbv zeta in Hagg.
  set (s1 := wrote s [Logged INFO (StartingClassification NUM_THREADS)]).
  destruct (collect_all_total (length files) _ _ _ s1 Hagg) as [s2 Hs2].
  rewrite Hf in Hs2.
  destruct (collect_all_quiet _ _ _ _ _ _ Hs2) as [[W2 (evs2 & T2 & F2)] E2].
  exists e', s2, (Logged INFO (StartingClassification NUM_THREADS) :: evs2).
  split; [|split; [|split; [|split; [|split]]]].
  - unfold cleanup_files.
    rewrite (bind_ok _ _ s tt s1) by reflexivity.
    unfold bind at 1. now rewrite Hs2.
  - apply first_failure_in, in_pool_futures in Hf as (j & m' & Hj & Hr).
    exists j, m'. split; [exact Hj|]. unfold result_of in Hr.
    destruct (setup j); [now injection Hr as -> | discriminate].
  - exact W2.
  - exact E2.
  - rewrite T2. cbn [s1 wrote trace]. now rewrite <- app_assoc.
  - constructor; [exact I | exact F2].
Qed.

(** ** The further properties at sample inputs *)

Lemma X4_protection_extends_below_witness :
  get_file_metadata Sample.os_stat "/private/var/db/receipts/a.plist" = Ok None.
Proof.
  exact (proj2 (X4_protection_extends_below Sample.os_stat "/private/var/db/"
                  "receipts/a.plist" eq_refl)).
Defined.

Lemma X5_program_by_substring_witness :
  get_program_name "/Users/me/Library/Caches/ANDROID Studio/transporter.log"
    = "Android Studio".
Proof.
  exact (proj1 (X5_program_by_substring "/Users/me/Library/Caches/" "ANDROID Studio"
                  "/transporter.log") eq_refl).
Defined.

Lemma X6_levels_are_tiers_witness :
  read_levels_to_delete ["bogus"; " Low, HIGH "; "y"] = (Ok ["Low"; "High"], ["y"]).
Proof.
  exact (proj1 (X6_levels_are_tiers ["bogus"; " Low, HIGH "; "y"])).
Defined.

Lemma X7_kept_programs_are_valid_witness :
  read_programs_to_keep ["Android Studio"; "Others"] [" others, build "; "y"]
    = (Ok ["Others"], ["y"]).
Proof.
  exact (proj1 (X7_kept_programs_are_valid ["Android Studio"; "Others"]
                  [" others, build "; "y"])).
Defined.

Lemma X8_keeping_all_selects_nothing_witness :
  display_and_filter_files (three_groups [Sample.stored "/tmp/a" "Low"] [] [])
    [" ALL "; "y"] = (Ok [], ["y"]).
Proof.
  exact (proj2 (X8_keeping_all_selects_nothing
                  (three_groups [Sample.stored "/tmp/a" "Low"] [] []) " ALL " ["y"]
                  eq_refl ltac:(discriminate))).
Defined.

Lemma X9_deleting_all_selects_everything_witness :
  display_and_filter_files
    (three_groups [Sample.stored "/tmp/a" "Low"] [] [Sample.stored "/tmp/c" "Medium"])
    ["none"; "all"; "ALL"; "y"]
  = (Ok [Sample.stored "/tmp/a" "Low"; Sample.stored "/tmp/c" "Medium"], ["y"]).
Proof.
  exact (X9_deleting_all_selects_everything
           (three_groups [Sample.stored "/tmp/a" "Low"] [] [Sample.stored "/tmp/c" "Medium"])
           "none" ["all"; "ALL"] ["y"] eq_refl ltac:(discriminate) eq_refl
           ltac:(repeat constructor) ltac:(repeat constructor)).
Defined.

Lemma X10_tiers_are_valid_witness :
  exists evs c tier,
    classify_file_with_openai None Sample.unknown_tier (Sample.record "/tmp/a") 1
      = Ok (evs, (Sample.record "/tmp/a", c)) /\
    c !! "importance" = Some tier /\
    json_in tier TIERS = true.
Proof.
  exact (proj1 (X10_tiers_are_valid 4 Sample.ready (fun _ => Sample.unknown_tier) [0]
                  [Sample.record "/tmp/a"] unit Sample.start _ _ eq_refl)
           0 (Sample.record "/tmp/a") 1).
Defined.

Lemma X11_nothing_moves_without_yes_witness :
  world (snd (cleanup_files Sample.quiet false Sample.HOME Sample.cwd Sample.ready
                Sample.oracle [0]
                [Sample.record "/Library/Caches/app/x.db"] SampleMore.declining))
    = world SampleMore.declining.
Proof.
  assert (Hno : Forall (fun line => Py.lower line <> "y") (stdin SampleMore.declining)).
  { repeat constructor; discriminate. }
  exact (proj1 (X11_nothing_moves_without_yes unit Sample.quiet false Sample.HOME Sample.cwd
                  Sample.ready Sample.oracle [0] [Sample.record "/Library/Caches/app/x.db"]
                  SampleMore.declining _ _ Hno (surjective_pairing _))).
Defined.


Lemma X13_relocation_goes_on_witness :
  exists s' evs,
    relocate SampleMore.no_moves false Sample.HOME Sample.cwd
      [Sample.stored "/Users/me/Library/Caches/a" "Low";
       Sample.stored "/Users/me/Library/Caches/b" "Low"] Sample.start = (Ok tt, s') /\
    trace s' = trace Sample.start ++ evs /\ stdin s' = stdin Sample.start /\
    reported evs = ["/Users/me/Library/Caches/a"; "/Users/me/Library/Caches/b"] /\
    (forall src dst, In (Logged INFO (Moved src dst)) evs -> In (Did (Move src dst) None) evs).
Proof.
  apply (X13_relocation_goes_on unit SampleMore.no_moves Sample.HOME Sample.cwd
           [Sample.stored "/Users/me/Library/Caches/a" "Low";
            Sample.stored "/Users/me/Library/Caches/b" "Low"] Sample.start).
  repeat constructor; discriminate.
Defined.

Lemma X14_non_object_is_fail_safe_witness :
  exists evs why,
    classify_file_with_openai None SampleMore.string_answer (Sample.record "/tmp/a") 1
      = Ok (evs, (Sample.record "/tmp/a", fail_safe why)) /\
    retained (Sample.record "/tmp/a", fail_safe why) = false.
Proof.
  assert (Hrl : rate_limited_below SampleMore.string_answer 0) by (intros j Hj; lia).
  exact (X14_non_object_is_fail_safe SampleMore.string_answer (Sample.record "/tmp/a")
           1 0 (JStr "important importance reason") ltac:(lia) Hrl eq_refl
           ltac:(discriminate)).
Defined.

Lemma X15_groups_partition_to_delete_witness :
  exists agg s',
    collect_all 1 (pool_results 4 Sample.ready Sample.oracle [0] [Sample.record "/tmp/a"])
      initial_aggregate Sample.start = (Ok agg, s') /\
    Permutation (to_delete agg) (concat (map snd (program_files agg))).
Proof.
  eexists _, _. split; [reflexivity|].
  exact (proj1 (X15_groups_partition_to_delete 4 Sample.ready Sample.oracle [0]
                  [Sample.record "/tmp/a"] unit Sample.start _ _ eq_refl)).
Defined.

Lemma X17_threads_in_turn_witness :
  exists evs res,
    submit_all 4 Sample.ready Sample.oracle
      [Sample.record "/tmp/a"; Sample.record "/tmp/b"; Sample.record "/tmp/c";
       Sample.record "/tmp/d"; Sample.record "/tmp/e"] !! 4 = Some (Ok (evs, res)) /\
    Forall (fun t => t = 1 /\ 1 <= t <= 4) (thread_ids evs).
Proof.
  eexists _, _. split; [reflexivity|].
  exact (proj1 (X17_threads_in_turn 4 Sample.ready Sample.oracle
                  [Sample.record "/tmp/a"; Sample.record "/tmp/b"; Sample.record "/tmp/c";
                   Sample.record "/tmp/d"; Sample.record "/tmp/e"] 4 _ _
                  ltac:(lia) eq_refl)).
Defined.

Lemma X18_structure_is_preserved_witness :
  exists rel rel',
    PosixPath.relpath "/" "/Users/me/Library/Caches/app/x.db"
      (PosixPath.expanduser "/Users/me" "~") = Some rel /\
    PosixPath.relpath "/" "/Users/me/Library/Logs/a.log"
      (PosixPath.expanduser "/Users/me" "~") = Some rel' /\
    PosixPath.relpath "/" (PosixPath.join (BACKUP_DIR "/Users/me") rel)
      (BACKUP_DIR "/Users/me") = Some rel /\
    (PosixPath.join (BACKUP_DIR "/Users/me") rel = PosixPath.join (BACKUP_DIR "/Users/me") rel' ->
     "/Users/me/Library/Caches/app/x.db" = "/Users/me/Library/Logs/a.log").
Proof.
  exact (X18_structure_is_preserved "/" ["Users"; "me"]
           ["Library"; "Caches"; "app"; "x.db"] ["Library"; "Logs"; "a.log"]
           ltac:(discriminate) eq_refl ltac:(discriminate) eq_refl
           ltac:(discriminate) eq_refl).
Defined.

Lemma X19_backup_root_failure_is_fatal_witness :
  fst (main SampleMore.read_only false Sample.HOME Sample.cwd
         Sample.os_exists Sample.os_walk Sample.os_stat Sample.ready Sample.oracle [0]
         Sample.start)
    = Raise (OSError "Read-only file system").
Proof.
  exact (proj1 (X19_backup_root_failure_is_fatal unit SampleMore.read_only false
                  Sample.HOME Sample.cwd Sample.os_exists Sample.os_walk Sample.os_stat
                  Sample.ready Sample.oracle [0] Sample.start "Read-only file system" tt
                  eq_refl)).
Defined.

Lemma X20_nothing_to_scan_witness :
  scan_system_data Sample.HOME (fun _ => false) Sample.os_walk Sample.os_stat Sample.start
    = (Ok [],
       wrote Sample.start
         [Logged WARNING (DirectoryMissing "/Users/me/Library/Caches");
          Logged WARNING (DirectoryMissing "/Library/Caches");
          Logged WARNING (DirectoryMissing "/Users/me/Library/Logs");
          Logged WARNING (DirectoryMissing "/private/var/tmp");
          Logged WARNING (DirectoryMissing "/private/var/log");
          Logged INFO (FoundFiles 0 0)]).
Proof.
  exact (proj1 (X20_nothing_to_scan unit Sample.quiet false Sample.HOME Sample.cwd
                  (fun _ => false) Sample.os_walk Sample.os_stat Sample.ready Sample.oracle
                  [0] Sample.start tt (fun _ _ => eq_refl) eq_refl) Sample.start).
Defined.

Lemma X21_failed_start_is_fatal_witness :
  exists e' s' evs,
    cleanup_files Sample.quiet false Sample.HOME Sample.cwd Sample.no_key Sample.oracle
      (completion_order [] 1) [Sample.record "/Library/Caches/app/x.db"] Sample.start
      = (Raise e', s') /\
    world s' = world Sample.start /\ stdin s' = stdin Sample.start /\
    trace s' = trace Sample.start ++ evs /\ Forall is_logged evs.
Proof.
  destruct (X21_failed_start_is_fatal unit Sample.quiet false Sample.HOME Sample.cwd
              Sample.no_key Sample.oracle [] [Sample.record "/Library/Caches/app/x.db"]
              Sample.start 0 _ _ eq_refl eq_refl)
    as (e' & s' & evs & Hrun & _ & Hw & Hi & Ht & Hl).
  exists e', s', evs. auto.
Defined.
